(** * jackal-bot: extraction, ranking, caching and plain-table rendering of bond records

    A shallow embedding of [top_bonds.py], of the cache of
    [telegram_bonds_bot.py] and of the width computation shared by
    [top_bonds.print_table] and [bonds_scheduler.get_bonds_data], followed by
    the properties the specification states about them.

    Python values are modelled as follows.
    - [str] is a list of Unicode code points ([pystr]); literals are written
      as UTF-8 text and decoded by [u].
    - [float] is IEEE binary64, as [SpecFloat.spec_float] with precision 53
      and maximal exponent 1024.
    - [int] is [Z]; list indices and lengths are [nat], converted where the
      source compares them with an [int].
    - the bond [dict] built by [get_top_yield_bonds] is a record with one field
      per key; the two keys that are set only for a future offer date are
      optional fields.
    - [None] results are [option] or, where the source prints different
      messages before returning [None], a sum with the reason.

    What lies outside the program is an argument: the text of the page that
    the request returns, the day [datetime.date.today()] reports, the
    reading of [time.time()], and what a fetch returns to the cache.  Output
    written with [print] is left out, except that each message printed before
    a [return None] has a constructor of its own.

    [int] and [float] of a text follow CPython 3.11: the white space and
    the decimal digits of Unicode 14.0 are brought to ASCII first, and the
    parsers skip the C white space only.  One limit of the model of the
    Python library: [sorted] is an insertion sort, which agrees with
    Python's on every list whose keys [<] orders, that is, whenever no key
    is NaN. *)

From Stdlib Require Import ZArith NArith List String Ascii Bool Lia.
From Stdlib.Strings Require Import Byte.
From Stdlib Require Import SpecFloat Sorted Permutation DecimalString.
From stdpp Require Import base list gmap strings sorting.
Import ListNotations.

Local Open Scope Z_scope.

(** ** Python strings *)

Module PyStr.

Definition char := N.
Definition pystr := list char.

(** UTF-8 decoding of a literal: one code point per character. *)
Definition utf8_step (st : nat * N * list N) (b : N) : nat * N * list N :=
  let '(k, acc, out) := st in
  match k with
  | S k' =>
      let acc' := (acc * 64 + b mod 64)%N in
      match k' with
      | O => (O, 0%N, acc' :: out)
      | _ => (k', acc', out)
      end
  | O =>
      if (b <? 128)%N then (O, 0%N, b :: out)
      else if (b <? 224)%N then (1%nat, (b mod 32)%N, out)
      else if (b <? 240)%N then (2%nat, (b mod 16)%N, out)
      else (3%nat, (b mod 8)%N, out)
  end.

Definition u (s : string) : pystr :=
  rev (snd (fold_left utf8_step
              (map Byte.to_N (list_byte_of_string s)) (O, 0%N, []))).

Definition chr (s : string) : char := hd 0%N (u s).

(** The double quote, which a literal cannot hold. *)
Definition dquote : char := 34%N.

Fixpoint pystr_eqb (a b : pystr) : bool :=
  match a, b with
  | [], [] => true
  | x :: a', y :: b' => (x =? y)%N && pystr_eqb a' b'
  | _, _ => false
  end.

(** [str.isspace] for one character: the characters [str.strip], [int],
    [float] and the pattern [\s] treat as white space. *)
Definition isspace (c : char) : bool :=
  ((9 <=? c) && (c <=? 13) || (28 <=? c) && (c <=? 32)
   || (c =? 133) || (c =? 160) || (c =? 5760)
   || (8192 <=? c) && (c <=? 8202)
   || (c =? 8232) || (c =? 8233) || (c =? 8239) || (c =? 8287)
   || (c =? 12288))%N.

Fixpoint lstrip (s : pystr) : pystr :=
  match s with
  | c :: s' => if isspace c then lstrip s' else s
  | [] => []
  end.

(** [s.strip()] *)
Definition strip (s : pystr) : pystr :=
  rev (lstrip (rev (lstrip s))).

Fixpoint startswith (p s : pystr) : bool :=
  match p, s with
  | [], _ => true
  | c :: p', x :: s' => (c =? x)%N && startswith p' s'
  | _ :: _, [] => false
  end.

(** [p in s] for strings *)
Fixpoint contains (p s : pystr) : bool :=
  startswith p s ||
  match s with
  | [] => false
  | _ :: s' => contains p s'
  end.

(** [s.replace(c, new)] for a one-character [c] *)
Definition replace (c : char) (new : pystr) (s : pystr) : pystr :=
  flat_map (fun x => if (x =? c)%N then new else [x]) s.

(** [s.split(c)] for a one-character separator: always at least one part. *)
Fixpoint split (c : char) (s : pystr) : list pystr :=
  match s with
  | [] => [[]]
  | x :: s' =>
      match split c s' with
      | p :: ps => if (x =? c)%N then [] :: p :: ps else (x :: p) :: ps
      | [] => [[x]]
      end
  end.

(** [s.ljust(w)] *)
Definition ljust (w : nat) (s : pystr) : pystr :=
  s ++ repeat 32%N (w - length s)%nat.

(** [sep.join(parts)] *)
Fixpoint join (sep : pystr) (parts : list pystr) : pystr :=
  match parts with
  | [] => []
  | [p] => p
  | p :: ps => p ++ sep ++ join sep ps
  end.

(** [l[:n]] for an [int] bound [n]: a negative [n] counts from the end. *)
Definition slice_to {A} (l : list A) (n : Z) : list A :=
  if 0 <=? n then take (Z.to_nat n) l
  else take (Z.to_nat (Z.of_nat (length l) + n)) l.

(** Decimal digits of a natural number. *)
Definition digits_of_N (n : N) : pystr :=
  map (fun a => N_of_ascii a)
      (list_ascii_of_string (NilZero.string_of_uint (N.to_uint n))).

End PyStr.
Import PyStr.

(** ** The fragment of [re] the source uses *)

Module Re.

(** Character sets of the source's patterns: [.] under DOTALL, [\s],
    a single character and [[^c]]. *)
Inductive cclass :=
| CAny
| CSpace
| CNot (c : char).

Definition cclass_test (cl : cclass) (x : char) : bool :=
  match cl with
  | CAny => true
  | CSpace => isspace x
  | CNot c => negb (x =? c)%N
  end.

(** Patterns: literal text, a repeated character set ([*], [*?], [+]), a
    capturing group, and concatenation.  The source nests no groups, so the
    groups of a match are listed in the order they close. *)
Inductive regex :=
| RLit (p : pystr)
| RStar (cl : cclass) (greedy : bool)
| RPlus (cl : cclass)
| RGroup (r : regex)
| RSeq (r1 r2 : regex).

Fixpoint lit_prefix (p s : pystr) : option pystr :=
  match p with
  | [] => Some s
  | c :: p' =>
      match s with
      | x :: s' => if (c =? x)%N then lit_prefix p' s' else None
      | [] => None
      end
  end.

Definition orelse {R} (a : option R) (b : option R) : option R :=
  match a with
  | Some r => Some r
  | None => b
  end.

(** Backtracking repetition: the greedy form tries the longest run first,
    the lazy form the shortest. *)
Fixpoint star_match {R} (test : char -> bool) (greedy : bool)
    (k : pystr -> option R) (s : pystr) : option R :=
  match s with
  | x :: s' =>
      if test x then
        if greedy then orelse (star_match test greedy k s') (k s)
        else orelse (k s) (star_match test greedy k s')
      else k s
  | [] => k []
  end.

(** Backtracking matcher in continuation-passing style: [k] receives the
    rest of the input and the groups closed so far. *)
Fixpoint rmatch {R} (r : regex) (s : pystr) (caps : list pystr)
    (k : pystr -> list pystr -> option R) : option R :=
  match r with
  | RLit p =>
      match lit_prefix p s with
      | Some s' => k s' caps
      | None => None
      end
  | RStar cl g => star_match (cclass_test cl) g (fun s' => k s' caps) s
  | RPlus cl =>
      match s with
      | x :: s' =>
          if cclass_test cl x
          then star_match (cclass_test cl) true (fun s'' => k s'' caps) s'
          else None
      | [] => None
      end
  | RGroup r' =>
      rmatch r' s caps
        (fun s' caps' => k s' (caps' ++ [take (length s - length s') s]))
  | RSeq a b => rmatch a s caps (fun s' caps' => rmatch b s' caps' k)
  end.

(** A match anchored at the start of [s]: the rest and the groups. *)
Definition match_at (r : regex) (s : pystr) : option (pystr * list pystr) :=
  rmatch r s [] (fun s' caps => Some (s', caps)).

(** [re.search(r, s)]: the groups of the leftmost match. *)
Fixpoint search (r : regex) (s : pystr) : option (list pystr) :=
  match match_at r s with
  | Some (_, caps) => Some caps
  | None =>
      match s with
      | [] => None
      | _ :: s' => search r s'
      end
  end.

(** The non-overlapping matches from left to right.  None of the source's
    patterns matches the empty string; the scan moves one character on where
    a match consumes nothing. *)
Fixpoint finditer (fuel : nat) (r : regex) (s : pystr) : list (list pystr) :=
  match fuel with
  | O => []
  | S fuel' =>
      let next :=
        match s with
        | [] => []
        | _ :: t => finditer fuel' r t
        end in
      match match_at r s with
      | Some (s', caps) =>
          caps :: (if (length s' <? length s)%nat then finditer fuel' r s'
                   else next)
      | None => next
      end
  end.

(** [re.findall(r, s)] for a pattern with one group: the group's texts. *)
Definition findall (r : regex) (s : pystr) : list pystr :=
  map (fun caps => hd [] caps) (finditer (S (length s)) r s).

Fixpoint sub_empty_aux (fuel : nat) (r : regex) (s : pystr) : pystr :=
  match fuel with
  | O => s
  | S fuel' =>
      match s with
      | [] => []
      | x :: t =>
          match match_at r s with
          | Some (s', _) =>
              if (length s' <? length s)%nat then sub_empty_aux fuel' r s'
              else x :: sub_empty_aux fuel' r t
          | None => x :: sub_empty_aux fuel' r t
          end
      end
  end.

(** [re.sub(r, '', s)] *)
Definition sub_empty (r : regex) (s : pystr) : pystr :=
  sub_empty_aux (S (length s)) r s.

Fixpoint rseq (rs : list regex) : regex :=
  match rs with
  | [] => RLit []
  | [r] => r
  | r :: rs' => RSeq r (rseq rs')
  end.

(** [<tag[^>]*>(.*?)</tag>] with DOTALL *)
Definition block_pattern (tag : string) : regex :=
  rseq [RLit (u "<" ++ u tag); RStar (CNot (chr ">")) true; RLit (u ">");
        RGroup (RStar CAny false); RLit (u "</" ++ u tag ++ u ">")].

End Re.

(** ** Python numbers: [int] and [float] from text, [float] to text *)

Module PyNum.

Definition float := spec_float.

Definition prec : Z := 53.
Definition emax : Z := 1024.

Definition fzero : float := S754_zero false.

(** [float(n)] for an [int] *)
Definition float_of_Z (n : Z) : float := binary_normalize prec emax n 0 false.

Definition fsub : float -> float -> float := SFsub prec emax.
Definition fdiv : float -> float -> float := SFdiv prec emax.
Definition flt : float -> float -> bool := SFltb.
Definition fle : float -> float -> bool := SFleb.
Definition feq : float -> float -> bool := SFeqb.

Definition is_nan (f : float) : bool :=
  match f with
  | S754_nan => true
  | _ => false
  end.

Definition is_finite (f : float) : bool :=
  match f with
  | S754_zero _ | S754_finite _ _ _ => true
  | _ => false
  end.

(** Truth value of a [float]: false for a zero only. *)
Definition float_truthy (f : float) : bool :=
  match f with
  | S754_zero _ => false
  | _ => true
  end.

(** The binary64 nearest to [(-1)^neg * m * 10^e], ties to even. *)
Definition float_of_decimal (neg : bool) (m : N) (e : Z) : float :=
  match m with
  | N0 => S754_zero neg
  | Npos p =>
      if 0 <=? e then binary_round prec emax neg (p * Z.to_pos (10 ^ e)) 0
      else
        let '(q, e', l) :=
          SFdiv_core_binary prec emax (Zpos p) 0 (10 ^ (- e)) 0 in
        binary_round_aux prec emax neg q e' l
  end.

(** [Py_ISSPACE]: the white space that the parsers of [int] and [float]
    skip at both ends.  It is less than [str.strip] removes: the separators
    U+001C to U+001F are no white space here. *)
Definition is_c_space (c : char) : bool :=
  ((9 <=? c) && (c <=? 13) || (c =? 32))%N.

Fixpoint c_lstrip (s : pystr) : pystr :=
  match s with
  | c :: s' => if is_c_space c then c_lstrip s' else s
  | [] => []
  end.

Definition c_strip (s : pystr) : pystr :=
  rev (c_lstrip (rev (c_lstrip s))).

(** The code points of the digit zero in every script: each is followed by
    the digits one to nine of its script, and these are all the decimal
    digits (category Nd) of Unicode 14.0, which CPython 3.11 carries. *)
Definition decimal_starts : list N :=
  [48; 1632; 1776; 1984; 2406; 2534; 2662; 2790; 2918; 3046; 3174; 3302;
   3430; 3558; 3664; 3792; 3872; 4160; 4240; 6112; 6160; 6470; 6608; 6784;
   6800; 6992; 7088; 7232; 7248; 42528; 43216; 43264; 43472; 43504; 43600;
   44016; 65296; 66720; 68912; 69734; 69872; 69942; 70096; 70384; 70736;
   70864; 71248; 71360; 71472; 71904; 72016; 72784; 73040; 73120; 92768;
   92864; 93008; 120782; 120792; 120802; 120812; 120822; 123200; 123632;
   125264; 130032]%N.

(** [Py_UNICODE_TODECIMAL] *)
Definition decimal_value (c : char) : option N :=
  option_map (fun b => (c - b)%N)
    (List.find (fun b => ((b <=? c) && (c <? b + 10))%N) decimal_starts).

(** The loop of [_PyUnicode_TransformDecimalAndSpaceToASCII]: white space
    beyond ASCII becomes a space, a decimal digit of any script its ASCII
    digit, and the text ends in a question mark at the first character that
    is neither. *)
Fixpoint transform_loop (s : pystr) : pystr :=
  match s with
  | [] => []
  | ch :: s' =>
      if (ch <? 127)%N then ch :: transform_loop s'
      else if isspace ch then chr " " :: transform_loop s'
      else
        match decimal_value ch with
        | Some d => (48 + d)%N :: transform_loop s'
        | None => [chr "?"]
        end
  end.

(** What [int] and [float] parse: an ASCII text as it is, any other text
    through the loop. *)
Definition to_ascii (s : pystr) : pystr :=
  if forallb (fun ch => (ch <? 128)%N) s then s else transform_loop s.

(** The ASCII digits, which are all the digits left after [to_ascii]. *)
Definition is_digit (c : char) : bool := ((48 <=? c) && (c <=? 57))%N.
Definition digit_val (c : char) : N := (c - 48)%N.

(** [(["_"] digit)*]: the digits read and the rest. *)
Fixpoint digits_tail (s : pystr) : list N * pystr :=
  match s with
  | c :: s' =>
      if is_digit c then
        let '(ds, r) := digits_tail s' in (digit_val c :: ds, r)
      else if (c =? chr "_")%N then
        match s' with
        | d :: s'' =>
            if is_digit d then
              let '(ds, r) := digits_tail s'' in (digit_val d :: ds, r)
            else ([], s)
        | [] => ([], s)
        end
      else ([], s)
  | [] => ([], [])
  end.

(** [digit (["_"] digit)*] *)
Definition digitpart (s : pystr) : option (list N * pystr) :=
  match s with
  | c :: s' =>
      if is_digit c then
        let '(ds, r) := digits_tail s' in Some (digit_val c :: ds, r)
      else None
  | [] => None
  end.

Definition N_of_digits (ds : list N) : N :=
  fold_left (fun acc d => (acc * 10 + d)%N) ds 0%N.

(** An optional sign: whether it is a minus, and the rest. *)
Definition sign_opt (s : pystr) : bool * pystr :=
  match s with
  | c :: s' =>
      if (c =? chr "-")%N then (true, s')
      else if (c =? chr "+")%N then (false, s')
      else (false, s)
  | [] => (false, [])
  end.

(** The limit of [int] on the digits of a decimal text (CPython 3.11 on). *)
Definition max_str_digits : nat := 4300.

(** [int(s)]: [None] stands for [ValueError]. *)
Definition int_of_str (s : pystr) : option Z :=
  let '(neg, s1) := sign_opt (c_strip (to_ascii s)) in
  match digitpart s1 with
  | Some (ds, []) =>
      if (max_str_digits <? length ds)%nat then None
      else
        let n := Z.of_N (N_of_digits ds) in
        Some (if neg then - n else n)
  | _ => None
  end.

Definition lower (c : char) : char :=
  if ((65 <=? c) && (c <=? 90))%N then (c + 32)%N else c.

(** The exponent part, if any: its value and the rest; [None] for an
    exponent mark that no digits follow. *)
Definition exponent_opt (s : pystr) : option (Z * pystr) :=
  match s with
  | c :: s' =>
      if (lower c =? chr "e")%N then
        let '(neg, s1) := sign_opt s' in
        match digitpart s1 with
        | Some (ds, r) =>
            let n := Z.of_N (N_of_digits ds) in
            Some (if neg then - n else n, r)
        | None => None
        end
      else Some (0, s)
  | [] => Some (0, [])
  end.

(** The digits before and after the point, and the rest:
    [[digitpart] "." digitpart | digitpart ["."]]. *)
Definition number_part (s : pystr) : option (list N * list N * pystr) :=
  match digitpart s with
  | Some (ip, r) =>
      match r with
      | c :: r' =>
          if (c =? chr ".")%N then
            match digitpart r' with
            | Some (fp, r'') => Some (ip, fp, r'')
            | None => Some (ip, [], r')
            end
          else Some (ip, [], r)
      | [] => Some (ip, [], [])
      end
  | None =>
      match s with
      | c :: r' =>
          if (c =? chr ".")%N then
            match digitpart r' with
            | Some (fp, r'') => Some ([], fp, r'')
            | None => None
            end
          else None
      | [] => None
      end
  end.

(** [float(s)]: [None] stands for [ValueError]. *)
Definition float_of_str (s : pystr) : option float :=
  let '(neg, s1) := sign_opt (c_strip (to_ascii s)) in
  let low := map lower s1 in
  if pystr_eqb low (u "inf") || pystr_eqb low (u "infinity")
  then Some (S754_infinity neg)
  else if pystr_eqb low (u "nan") then Some S754_nan
  else
    match number_part s1 with
    | Some (ip, fp, r) =>
        match exponent_opt r with
        | Some (e, []) =>
            Some (float_of_decimal neg (N_of_digits (ip ++ fp))
                    (e - Z.of_nat (length fp)))
        | _ => None
        end
    | None => None
    end.

Definition round_half_even (num den : Z) : Z :=
  let q := num / den in
  match (2 * (num mod den)) ?= den with
  | Lt => q
  | Gt => q + 1
  | Eq => if Z.even q then q else q + 1
  end.

(** The digits of [n] with a point before the last [d] of them. *)
Definition fixed_point (d : nat) (n : N) : pystr :=
  let ds := digits_of_N n in
  let ds' := repeat (chr "0") (S d - length ds)%nat ++ ds in
  let k := (length ds' - d)%nat in
  match d with
  | O => ds'
  | _ => take k ds' ++ u "." ++ drop k ds'
  end.

(** ["{:.df}".format(f)] *)
Definition format_f (d : nat) (f : float) : pystr :=
  let sign (s : bool) := if s then u "-" else [] in
  match f with
  | S754_nan => u "nan"
  | S754_infinity s => sign s ++ u "inf"
  | S754_zero s => sign s ++ fixed_point d 0
  | S754_finite s m e =>
      let scaled :=
        if 0 <=? e then Zpos m * 2 ^ e * 10 ^ Z.of_nat d
        else round_half_even (Zpos m * 10 ^ Z.of_nat d) (2 ^ (- e)) in
      sign s ++ fixed_point d (Z.to_N scaled)
  end.

End PyNum.
Import PyNum.

(** ** [datetime.date] *)

Module PyDate.

Inductive exn := ValueError | OverflowError.

Record date := mkdate { year : Z; month : Z; day : Z }.

Definition is_leap (y : Z) : bool :=
  (y mod 4 =? 0) && (negb (y mod 100 =? 0) || (y mod 400 =? 0)).

Definition days_in_month (y m : Z) : Z :=
  if (m =? 2) then (if is_leap y then 29 else 28)
  else if (m =? 4) || (m =? 6) || (m =? 9) || (m =? 11) then 30
  else 31.

Definition days_before_year (y : Z) : Z :=
  let p := y - 1 in p * 365 + p / 4 - p / 100 + p / 400.

Definition days_before_month (y m : Z) : Z :=
  fold_left (fun acc k => acc + days_in_month y (Z.of_nat k))
            (seq 1 (Z.to_nat (m - 1))) 0.

(** [d.toordinal()]: day 1 is 1 January of year 1. *)
Definition toordinal (d : date) : Z :=
  days_before_year (year d) + days_before_month (year d) (month d) + day d.

(** The range of a C [int], to which the constructor converts its
    arguments before it checks them. *)
Definition fits_c_int (z : Z) : bool :=
  (- 2 ^ 31 <=? z) && (z <=? 2 ^ 31 - 1).

(** [datetime.date(y, m, d)] *)
Definition date_new (y m d : Z) : exn + date :=
  if negb (fits_c_int y && fits_c_int m && fits_c_int d) then inl OverflowError
  else if (1 <=? y) && (y <=? 9999) && (1 <=? m) && (m <=? 12)
          && (1 <=? d) && (d <=? days_in_month y m)
  then inr (mkdate y m d)
  else inl ValueError.

End PyDate.
Import PyDate.

(** ** [top_bonds.py] *)

Module TopBonds.

(** The dictionary built for one table row. *)
Record bond := mkbond {
  ISIN : pystr;
  Name : pystr;
  Yield_to_Maturity : float;
  Rating : pystr;
  Maturity : pystr;
  Offer_Date : pystr;
  Years_to_Offer : option float;
  Years_to_Offer_Str : option pystr
}.

(** Why [get_top_yield_bonds] returns [None]: one constructor per message
    it prints, and [Raised] for an exception that reaches the handler around
    the whole body. *)
Inductive failure :=
| NoTables
| NoBondsTable
| NoHeaders
| MissingColumns
| Raised (e : exn).

Definition NA : pystr := u "N/A".

Definition table_pattern : Re.regex := Re.block_pattern "table".
Definition row_pattern : Re.regex := Re.block_pattern "tr".
Definition header_pattern : Re.regex := Re.block_pattern "th".
Definition cell_pattern : Re.regex := Re.block_pattern "td".

(** The pattern of line 120, with Q for the double quote:
    [title=Q[^Q]*\s+\(([^)]+)\)Q[^>]*>([^<]+)</a>] *)
Definition name_pattern : Re.regex :=
  Re.rseq [Re.RLit (u "title=" ++ [dquote]); Re.RStar (Re.CNot dquote) true;
           Re.RPlus Re.CSpace; Re.RLit (u "(");
           Re.RGroup (Re.RPlus (Re.CNot (chr ")")));
           Re.RLit (u ")" ++ [dquote]); Re.RStar (Re.CNot (chr ">")) true;
           Re.RLit (u ">"); Re.RGroup (Re.RPlus (Re.CNot (chr "<")));
           Re.RLit (u "</a>")].

(** [<[^>]+>] *)
Definition tag_pattern : Re.regex :=
  Re.rseq [Re.RLit (u "<"); Re.RPlus (Re.CNot (chr ">")); Re.RLit (u ">")].

Definition strip_tags (s : pystr) : pystr := Re.sub_empty tag_pattern s.

Definition name_marker : pystr := u "Имя".
Definition ytm_marker : pystr := u "Доходн".
Definition rating_marker : pystr := u "Рейтинг".
Definition maturity_marker : pystr := u "Лет до".
Definition offer_marker : pystr := u "Оферта".

(** The first table whose text holds both markers. *)
Definition select_table (tables : list pystr) : option pystr :=
  List.find (fun t => contains ytm_marker t && contains rating_marker t) tables.

(** [next((i for i, h in enumerate(headers) if marker in h), None)] *)
Fixpoint find_index_from (i : nat) (marker : pystr) (headers : list pystr)
    : option nat :=
  match headers with
  | [] => None
  | h :: hs =>
      if contains marker h then Some i
      else find_index_from (S i) marker hs
  end.

Definition find_index : pystr -> list pystr -> option nat := find_index_from 0.

Record columns := mkcolumns {
  name_idx : option nat;
  ytm_idx : option nat;
  rating_idx : option nat;
  maturity_idx : option nat;
  offer_date_idx : option nat
}.

Definition resolve_columns (headers : list pystr) : columns :=
  {| name_idx := find_index name_marker headers;
     ytm_idx := find_index ytm_marker headers;
     rating_idx := find_index rating_marker headers;
     maturity_idx := find_index maturity_marker headers;
     offer_date_idx := find_index offer_marker headers |}.

(** [filter(None, l)] on indices: [None] and [0] are both false. *)
Definition filter_truthy (l : list (option nat)) : list nat :=
  flat_map (fun o => match o with
                     | Some (S i) => [S i]
                     | _ => []
                     end) l.

(** [max(l)]: raises [ValueError] on an empty sequence. *)
Definition py_max (l : list nat) : exn + nat :=
  match l with
  | [] => inl ValueError
  | x :: l' => inr (fold_left Nat.max l' x)
  end.

(** The bound of the test that skips short rows. *)
Definition required_max (c : columns) : exn + nat :=
  py_max (filter_truthy [name_idx c; ytm_idx c; rating_idx c; maturity_idx c]).

(** [cells[idx].strip() if idx is not None and idx < len(cells) else dflt] *)
Definition cell_at (cells : list pystr) (idx : option nat) (dflt : pystr)
    : pystr :=
  match idx with
  | Some i =>
      match cells !! i with
      | Some c => strip c
      | None => dflt
      end
  | None => dflt
  end.

(** Lines 117-127: the ISIN and the name from the name cell. *)
Definition parse_name (name_html : pystr) : pystr * pystr :=
  match Re.search name_pattern name_html with
  | Some caps => (nth 0 caps [], nth 1 caps [])
  | None => (NA, strip (strip_tags name_html))
  end.

(** Lines 130-135: the yield. *)
Definition parse_ytm (ytm_text : pystr) : float :=
  let t := strip (replace (chr ",") (u ".") (replace (chr "%") [] ytm_text)) in
  match float_of_str t with
  | Some f => f
  | None => fzero
  end.

(** Lines 141-147: the text shown for the years to maturity. *)
Definition parse_maturity (maturity_text : pystr) : pystr :=
  match float_of_str (replace (chr ",") (u ".") maturity_text) with
  | Some m => format_f 1 m ++ u " years"
  | None => NA
  end.

(** [day, month, year = map(int, text.split('.'))]; [None] stands for the
    [ValueError] of a part that is no integer or of a wrong number of
    parts. *)
Definition parse_dmy (text : pystr) : option (Z * Z * Z) :=
  match map int_of_str (split (chr ".") text) with
  | [Some d; Some m; Some y] => Some (d, m, y)
  | _ => None
  end.

(** Lines 158-186 for the tag-free text of the offer cell: the value of
    [offer_date] and of [years_to_offer] after them, or the exception that
    the handler of line 181 does not catch. *)
Definition offer_of_text (today : date) (text : pystr)
    : exn + (pystr * option float) :=
  if negb (pystr_eqb text []) && negb (pystr_eqb text NA)
     && negb (pystr_eqb text (u "-"))
  then
    match parse_dmy text with
    | None => inr (text, None)
    | Some (d, m, y) =>
        let y' := if y <? 100 then y + 2000 else y in
        match date_new y' m d with
        | inl ValueError => inr (text, None)
        | inl OverflowError => inl OverflowError
        | inr offer_date_obj =>
            let days_to_offer := toordinal offer_date_obj - toordinal today in
            if 0 <? days_to_offer
            then inr (text, Some (fdiv (float_of_Z days_to_offer)
                                       (float_of_Z 365)))
            else inr (NA, None)
        end
    end
  else if pystr_eqb text (u "-") then inr (NA, None)
  else inr (text, None).

(** Lines 150-190. *)
Definition parse_offer (today : date) (cells : list pystr)
    (idx : option nat) : exn + (pystr * option float) :=
  match idx with
  | Some i =>
      match cells !! i with
      | Some c =>
          match offer_of_text today (strip (strip_tags (strip c))) with
          | inl e => inl e
          | inr (offer_date, years_to_offer) =>
              inr (if pystr_eqb offer_date [] then NA else offer_date,
                   years_to_offer)
          end
      | None => inr (NA, None)
      end
  | None => inr (NA, None)
  end.

(** Lines 117-208: the dictionary of a row that is not skipped. *)
Definition build_bond (today : date) (c : columns) (cells : list pystr)
    : exn + bond :=
  let '(isin, name) := parse_name (cell_at cells (name_idx c) []) in
  let ytm := parse_ytm (cell_at cells (ytm_idx c) (u "0")) in
  let rating := cell_at cells (rating_idx c) NA in
  let maturity_str := parse_maturity (cell_at cells (maturity_idx c) []) in
  match parse_offer today cells (offer_date_idx c) with
  | inl e => inl e
  | inr (offer_date, years_to_offer) =>
      inr {| ISIN := isin;
             Name := name;
             Yield_to_Maturity := ytm;
             Rating := rating;
             Maturity := maturity_str;
             Offer_Date := offer_date;
             Years_to_Offer := years_to_offer;
             Years_to_Offer_Str :=
               (fun y => format_f 1 y ++ u " years") <$> years_to_offer |}
  end.

(** Line 110: the cells of a row. *)
Definition cells_of (row : pystr) : list pystr := Re.findall cell_pattern row.

(** One turn of the loop of line 107: the list after the row, or the
    exception that ends the call. *)
Definition process_row (today : date) (c : columns) (bonds_list : list bond)
    (row : pystr) : exn + list bond :=
  let cells := cells_of row in
  match required_max c with
  | inl e => inl e
  | inr mx =>
      if (length cells <=? mx)%nat then inr bonds_list
      else
        match build_bond today c cells with
        | inl e => inl e
        | inr b => inr (bonds_list ++ [b])
        end
  end.

Fixpoint process_rows (today : date) (c : columns) (bonds_list : list bond)
    (rows : list pystr) : exn + list bond :=
  match rows with
  | [] => inr bonds_list
  | row :: rows' =>
      match process_row today c bonds_list row with
      | inl e => inl e
      | inr bonds_list' => process_rows today c bonds_list' rows'
      end
  end.

(** The table chosen and its columns (lines 41-97). *)
Definition locate (html_content : pystr) : failure + (pystr * columns) :=
  match Re.findall table_pattern html_content with
  | [] => inl NoTables
  | tables =>
      match select_table tables with
      | None => inl NoBondsTable
      | Some table_content =>
          match Re.search row_pattern table_content with
          | None => inl NoHeaders
          | Some groups =>
              let header_row := nth 0 groups [] in
              let headers := map strip (Re.findall header_pattern header_row) in
              let c := resolve_columns headers in
              match ytm_idx c with
              | None => inl MissingColumns
              | Some _ => inr (table_content, c)
              end
          end
      end
  end.

(** The rows after the header row (lines 103-107). *)
Definition data_rows (table_content : pystr) : list pystr :=
  drop 1 (Re.findall row_pattern table_content).

(** [bonds_list] at line 211, for the text of the page and the day the call
    is made. *)
Definition extract (html_content : pystr) (today : date)
    : failure + list bond :=
  match locate html_content with
  | inl f => inl f
  | inr (table_content, c) =>
      match process_rows today c [] (data_rows table_content) with
      | inl e => inl (Raised e)
      | inr bonds_list => inr bonds_list
      end
  end.

(** [sorted] compares keys with [<] only and is stable; with
    [reverse=True] it sorts the reversed list and reverses the result, which
    keeps the input order of equal keys.  Insertion behind the elements that
    are not greater gives the list every stable sort gives when [<] orders
    the keys, which it does unless a key is NaN. *)
Fixpoint insert_asc {A} (lt : A -> A -> bool) (x : A) (l : list A) : list A :=
  match l with
  | [] => [x]
  | y :: l' => if lt x y then x :: y :: l' else y :: insert_asc lt x l'
  end.

Definition sort_asc {A} (lt : A -> A -> bool) (l : list A) : list A :=
  fold_left (fun acc x => insert_asc lt x acc) l [].

Definition sorted {A} (key : A -> float) (reverse : bool) (l : list A)
    : list A :=
  let lt a b := flt (key a) (key b) in
  if reverse then rev (sort_asc lt (rev l)) else sort_asc lt l.

(** Lines 212-216. *)
Definition rank (bonds_list : list bond) (count : Z) : list bond :=
  slice_to (sorted Yield_to_Maturity true bonds_list) count.

(** [get_top_yield_bonds(count)] for the text the request returns. *)
Definition get_top_yield_bonds (html_content : pystr) (today : date)
    (count : Z) : failure + list bond :=
  match extract html_content today with
  | inl f => inl f
  | inr bonds_list => inr (rank bonds_list count)
  end.

End TopBonds.
Import TopBonds.

(** ** The plain table of [top_bonds.print_table] and of
      [bonds_scheduler.get_bonds_data] *)

Module Table.

(** [item[col]] as lines 245-248 turn it into text, [None] where the key
    is absent: the yield with two decimals and a percent sign, any other
    shown value as it is.  The key ['Years to Offer'], which no table shows,
    is left out. *)
Definition cell_text (item : bond) (col : string) : option pystr :=
  if String.eqb col "ISIN" then Some (ISIN item)
  else if String.eqb col "Name" then Some (Name item)
  else if String.eqb col "Yield to Maturity"
       then Some (format_f 2 (Yield_to_Maturity item) ++ u "%")
  else if String.eqb col "Rating" then Some (Rating item)
  else if String.eqb col "Maturity" then Some (Maturity item)
  else if String.eqb col "Offer Date" then Some (Offer_Date item)
  else if String.eqb col "Years to Offer Str" then Years_to_Offer_Str item
  else None.

(** The text of a cell in a data row: [item.get(col, "N/A")] rendered. *)
Definition shown (item : bond) (col : string) : pystr :=
  match cell_text item col with
  | Some value_str => value_str
  | None => NA
  end.

(** [{col: len(col) for col in columns}] *)
Definition init_widths (columns : list string) : gmap string nat :=
  list_to_map (map (fun col => (col, length (u col))) columns).

(** The body of the inner loop: [widths[col] = max(widths[col], len(value_str))]
    when the item has the key. *)
Definition widen (item : bond) (widths : gmap string nat) (col : string)
    : gmap string nat :=
  match cell_text item col with
  | Some value_str =>
      <[col := Nat.max (widths !!! col) (length value_str)]> widths
  | None => widths
  end.

Definition column_widths (columns : list string) (data : list bond)
    : gmap string nat :=
  foldl (fun widths item => foldl (widen item) widths columns)
        (init_widths columns) data.

Definition sep : pystr := u " | ".

Definition header_cells (columns : list string) (widths : gmap string nat)
    : list pystr :=
  map (fun col => ljust (widths !!! col) (u col)) columns.

Definition row_cells (columns : list string) (widths : gmap string nat)
    (item : bond) : list pystr :=
  map (fun col => ljust (widths !!! col) (shown item col)) columns.

(** The lines of the table: the header, the rule under it, one line per
    item. *)
Definition table_lines (columns : list string) (data : list bond)
    : list pystr :=
  let widths := column_widths columns data in
  let header_line := join sep (header_cells columns widths) in
  header_line :: repeat (chr "-") (length header_line)
    :: map (fun item => join sep (row_cells columns widths item)) data.

End Table.

Module PrintTable.

Definition columns : list string :=
  ["ISIN"; "Name"; "Yield to Maturity"; "Rating"; "Maturity"; "Offer Date";
   "Years to Offer Str"]%string.

(** [print_table(data)]: the lines printed. *)
Definition print_table (data : list bond) : list pystr :=
  match data with
  | [] => [u "No data to display."]
  | _ => Table.table_lines columns data
  end.

End PrintTable.

Module BondsScheduler.

Definition columns : list string :=
  ["ISIN"; "Name"; "Yield to Maturity"; "Rating"; "Maturity"]%string.

(** The table inside the report of [get_bonds_data] (lines 24-52). *)
Definition report_table (bonds : list bond) : list pystr :=
  Table.table_lines columns bonds.

End BondsScheduler.

(** ** The cache of [telegram_bonds_bot.py] *)

Module TelegramBondsBot.

(** The two globals. *)
Record cache := mkcache {
  last_fetch_time : option float;
  last_bonds_data : option (list bond)
}.

Definition initial : cache :=
  {| last_fetch_time := None; last_bonds_data := None |}.

Definition ttl : float := float_of_Z 3600.

(** The test of line 256: both globals are true values and the entry is
    younger than an hour. *)
Definition fresh (st : cache) (current_time : float) : bool :=
  match last_fetch_time st, last_bonds_data st with
  | Some t, Some (_ :: _) =>
      float_truthy t && flt (fsub current_time t) ttl
  | _, _ => false
  end.

(** The records a call serves from the cache, if it does (lines 256-259). *)
Definition cached (st : cache) (current_time : float) (count : Z)
    : option (list bond) :=
  match last_bonds_data st with
  | Some data =>
      if fresh st current_time && (count <=? Z.of_nat (length data))
      then Some data
      else None
  | None => None
  end.

(** Lines 264-265. *)
Definition fetch_count (count : Z) : Z := Z.min (Z.max count 5) 20.

(** [get_bonds_data(count)] at time [current_time], where [fetch n] is what
    [top_bonds.get_top_yield_bonds(n)] returns at that moment.  The result,
    the globals after the call, and the arguments of the fetches made. *)
Definition get_bonds_data (fetch : Z -> option (list bond))
    (current_time : float) (count : Z) (st : cache)
    : option (list bond) * cache * list Z :=
  match cached st current_time count with
  | Some data => (Some (slice_to data count), st, [])
  | None =>
      let n := fetch_count count in
      match fetch n with
      | Some (b :: bs) =>
          let bonds := b :: bs in
          (Some (slice_to bonds count),
           {| last_fetch_time := Some current_time;
              last_bonds_data := Some bonds |},
           [n])
      | _ => (None, st, [n])
      end
  end.

(** The fetch that reads a given page on a given day. *)
Definition fetch_page (html_content : pystr) (today : date) (n : Z)
    : option (list bond) :=
  match get_top_yield_bonds html_content today n with
  | inr bonds => Some bonds
  | inl _ => None
  end.

End TelegramBondsBot.

(** ** Notions the properties are stated with *)

(** A key that orders the values as [SFcompare] does: the class of the value,
    then exponent and mantissa, both negated for negative values. *)
Definition fkey (f : float) : Z * Z * Z :=
  match f with
  | S754_nan => (0, 0, 0)
  | S754_zero _ => (0, 0, 0)
  | S754_infinity true => (-2, 0, 0)
  | S754_infinity false => (2, 0, 0)
  | S754_finite true m e => (-1, - e, Zneg m)
  | S754_finite false m e => (1, e, Zpos m)
  end.

Definition lexcmp (x y : Z * Z * Z) : comparison :=
  let '(a1, b1, c1) := x in
  let '(a2, b2, c2) := y in
  match a1 ?= a2 with
  | Eq => match b1 ?= b2 with
          | Eq => c1 ?= c2
          | r => r
          end
  | r => r
  end.

Definition lex_lt (x y : Z * Z * Z) : Prop :=
  let '(a1, b1, c1) := x in
  let '(a2, b2, c2) := y in
  a1 < a2 \/ (a1 = a2 /\ (b1 < b2 \/ (b1 = b2 /\ c1 < c2))).

(** Ascending for [lt]: no element is less than one before it. *)
Definition ascending {A} (lt : A -> A -> bool) : list A -> Prop :=
  StronglySorted (fun a b => lt b a = false).

(** Non-increasing yields: each record's yield is at most that of every
    record before it. *)
Definition by_yield_desc (a b : bond) : Prop :=
  fle (Yield_to_Maturity b) (Yield_to_Maturity a) = true.

(** The records whose yield equals [v]. *)
Definition same_yield (v : float) (r : bond) : bool :=
  feq (Yield_to_Maturity r) v.

Definition yield_not_nan (r : bond) : Prop :=
  is_nan (Yield_to_Maturity r) = false.

(** ** Sample inputs *)

Module Samples.

Definition today : date := mkdate 2024 3 1.

(** A record with a name and a yield and nothing else known. *)
Definition plain (name : string) (ytm : float) : bond :=
  {| ISIN := NA; Name := u name; Yield_to_Maturity := ytm; Rating := NA;
     Maturity := NA; Offer_Date := NA; Years_to_Offer := None;
     Years_to_Offer_Str := None |}.

Definition f8_75 : float := S754_finite false 4925812092436480 (-49).
Definition f12_5 : float := S754_finite false 7036874417766400 (-49).
Definition f1 : float := float_of_Z 1.

Definition four_records : list bond :=
  [plain "a" f8_75; plain "b" f12_5; plain "c" f8_75; plain "d" f12_5].

(** Two rows with the yields [12.50%] and [8,75%]. *)
Definition row2_a : pystr := u "<td>A</td><td>12.50%</td><td>AA</td>".
Definition row2_b : pystr := u "<td>B</td><td>8,75%</td><td>N/A</td>".
Definition table2 : pystr :=
  u "<tr><th>Имя</th><th>Доходн</th><th>Рейтинг</th></tr>"
  ++ u "<tr>" ++ row2_a ++ u "</tr>" ++ u "<tr>" ++ row2_b ++ u "</tr>".
Definition page2 : pystr := u "<table>" ++ table2 ++ u "</table>".
Definition columns2 : columns :=
  {| name_idx := Some 0%nat; ytm_idx := Some 1%nat; rating_idx := Some 2%nat;
     maturity_idx := None; offer_date_idx := None |}.

(** Two rows, the first with the yield text [nan]. *)
Definition page_nan : pystr :=
  u "<table><tr><th>Имя</th><th>Доходн</th><th>Рейтинг</th></tr><tr><td>A</td><td>nan</td><td>AA</td></tr><tr><td>B</td><td>1</td><td>B</td></tr></table>".

End Samples.

(** ** Reading the outcome of a cache call *)

Module Outcome.

Import TelegramBondsBot.

Definition result_of (o : option (list bond) * cache * list Z)
    : option (list bond) := fst (fst o).
Definition state_of (o : option (list bond) * cache * list Z) : cache :=
  snd (fst o).

(** The entry of [st] can serve [count] records at [now]: both globals hold
    true values, the entry is younger than the TTL and it has at least
    [count] records. *)
Definition usable (st : cache) (now : float) (count : Z) (data : list bond)
    : Prop :=
  last_bonds_data st = Some data /\ data <> []
  /\ (exists t, last_fetch_time st = Some t /\ float_truthy t = true
                /\ flt (fsub now t) ttl = true)
  /\ count <= Z.of_nat (length data).

End Outcome.

Module CacheSamples.

Import TelegramBondsBot.

Definition t0 : float := float_of_Z 1700000000.
Definition t1 : float := float_of_Z 1700000060.

Definition five_records : list bond :=
  [Samples.plain "a" Samples.f12_5; Samples.plain "b" Samples.f12_5;
   Samples.plain "c" Samples.f8_75; Samples.plain "d" Samples.f8_75;
   Samples.plain "e" Samples.f1].

Definition three_records : list bond := take 3 five_records.

(** A page that always yields five records, one that yields three, and one
    that cannot be read. *)
Definition fetch_five (n : Z) : option (list bond) :=
  Some (slice_to five_records n).
Definition fetch_fails (n : Z) : option (list bond) := None.

Definition holds_five : cache :=
  {| last_fetch_time := Some t0; last_bonds_data := Some five_records |}.

End CacheSamples.

(** What the claim asks of one column of a table.  *)
Definition column_fits (cols : list string) (data : list bond) (col : string)
    : Prop :=
  let w := Table.column_widths cols data !!! col in
  (length (u col) <= w)%nat
  /\ Forall (fun item =>
               (length (Table.shown item col) <= w)%nat
               /\ length (ljust w (Table.shown item col)) = w) data.


(** A row of the page whose cells gave the record [b]. *)
Definition emitted (html_content : pystr) (today : date) (c : columns)
    (cells : list pystr) (b : bond) : Prop :=
  exists table bonds row,
    locate html_content = inr (table, c)
    /\ extract html_content today = inr bonds
    /\ In row (data_rows table) /\ cells = cells_of row
    /\ build_bond today c cells = inr b /\ In b bonds.

(** The cell count of a row covers the index [mx]. *)
Definition covers (mx : nat) (row : pystr) : bool :=
  (mx <? length (cells_of row))%nat.

(** The indices the header resolved among the given columns. *)
Definition resolved (l : list (option nat)) : list nat :=
  flat_map (fun o => match o with
                     | Some i => [i]
                     | None => []
                     end) l.

Module Pages.

(** Four columns; a full row, a row without the offer cell and a row
    without the rating and offer cells. *)
Definition full_row : pystr :=
  u "<td>A</td><td>12.50%</td><td>AA</td><td>31.12.30</td>".
Definition short_row : pystr := u "<td>B</td><td>8,75%</td><td>BB</td>".
Definition tiny_row : pystr := u "<td>C</td><td>9%</td>".

Definition table_rows : pystr :=
  u "<tr><th>Имя</th><th>Доходн</th><th>Рейтинг</th><th>Оферта</th></tr>"
  ++ u "<tr>" ++ full_row ++ u "</tr>"
  ++ u "<tr>" ++ short_row ++ u "</tr>"
  ++ u "<tr>" ++ tiny_row ++ u "</tr>".

Definition page_rows : pystr := u "<table>" ++ table_rows ++ u "</table>".

Definition columns_rows : columns :=
  {| name_idx := Some 0%nat; ytm_idx := Some 1%nat; rating_idx := Some 2%nat;
     maturity_idx := None; offer_date_idx := Some 3%nat |}.

(** The yield is the first column and no name, rating or maturity column
    exists; the rating marker stands in the caption. *)
Definition page_yield_first : pystr :=
  u "<table><caption>Рейтинг</caption><tr><th>Доходн</th><th>Оферта</th></tr><tr><td>12,5%</td><td>-</td></tr></table>".

(** An offer date whose year does not fit a C int. *)
Definition page_overflow : pystr :=
  u "<table><tr><th>Имя</th><th>Доходн</th><th>Рейтинг</th><th>Оферта</th></tr><tr><td>A</td><td>12.50%</td><td>AA</td><td>01.01.99999999999</td></tr></table>".

End Pages.

Module MorePages.

(** No rating column (the rating marker stands in the caption) and a name
    cell without a link. *)
Definition row_no_rating : pystr := u "<td><b>A</b> x</td><td>12,5%</td>".
Definition table_no_rating : pystr :=
  u "<caption>Рейтинг</caption><tr><th>Имя</th><th>Доходн</th></tr>"
  ++ u "<tr>" ++ row_no_rating ++ u "</tr>".
Definition page_no_rating : pystr :=
  u "<table>" ++ table_no_rating ++ u "</table>".
Definition columns_no_rating : columns :=
  {| name_idx := Some 0%nat; ytm_idx := Some 1%nat; rating_idx := None;
     maturity_idx := None; offer_date_idx := None |}.

End MorePages.

Module OfferPages.

(** Offer cells: a past date, a dash, a word. *)
Definition past_row : pystr :=
  u "<td>A</td><td>12.50%</td><td>AA</td><td>01.01.20</td>".
Definition dash_row : pystr := u "<td>B</td><td>8,75%</td><td>BB</td><td>-</td>".
Definition soon_row : pystr := u "<td>C</td><td>9%</td><td>B</td><td>soon</td>".

Definition table_offers : pystr :=
  u "<tr><th>Имя</th><th>Доходн</th><th>Рейтинг</th><th>Оферта</th></tr>"
  ++ u "<tr>" ++ past_row ++ u "</tr>"
  ++ u "<tr>" ++ dash_row ++ u "</tr>"
  ++ u "<tr>" ++ soon_row ++ u "</tr>".

Definition page_offers : pystr := u "<table>" ++ table_offers ++ u "</table>".

End OfferPages.

(** The text as [float] takes it (see [to_ascii]), without the white space
    around it and after an optional sign, spells [word] in any letter
    case. *)
Definition spells (word text : pystr) : bool :=
  pystr_eqb (map lower (snd (sign_opt (c_strip (to_ascii text))))) word.

(** The text lines 130-131 hand to [float] for the yield cell [cell]. *)
Definition cleaned_yield (cell : pystr) : pystr :=
  strip (replace (chr ",") (u ".") (replace (chr "%") [] (strip cell))).

Module YieldPages.

(** The yield is the last column; the second row ends before it. *)
Definition row_full : pystr := u "<td>A</td><td>AA</td><td>8,75%</td>".
Definition row_short : pystr := u "<td>B</td><td>BB</td>".
Definition table_yield_last : pystr :=
  u "<tr><th>Имя</th><th>Рейтинг</th><th>Доходн</th></tr>"
  ++ u "<tr>" ++ row_full ++ u "</tr>" ++ u "<tr>" ++ row_short ++ u "</tr>".
Definition page_yield_last : pystr :=
  u "<table>" ++ table_yield_last ++ u "</table>".
Definition columns_yield_last : columns :=
  {| name_idx := Some 0%nat; ytm_idx := Some 2%nat; rating_idx := Some 1%nat;
     maturity_idx := None; offer_date_idx := None |}.

End YieldPages.


(** ** More sample pages *)

Module EdgePages.

(** Only the header row, with the yield in the first column. *)
Definition table_header_only : pystr :=
  u "<caption>Рейтинг</caption><tr><th>Доходн</th><th>Оферта</th></tr>".
Definition page_header_only : pystr :=
  u "<table>" ++ table_header_only ++ u "</table>".
Definition columns_header_only : columns :=
  {| name_idx := None; ytm_idx := Some 0%nat; rating_idx := None;
     maturity_idx := None; offer_date_idx := Some 1%nat |}.

(** No name and no maturity column. *)
Definition row_no_name : pystr := u "<td>AA</td><td>7,5%</td>".
Definition table_no_name : pystr :=
  u "<tr><th>Рейтинг</th><th>Доходн</th></tr>"
  ++ u "<tr>" ++ row_no_name ++ u "</tr>".
Definition page_no_name : pystr := u "<table>" ++ table_no_name ++ u "</table>".
Definition columns_no_name : columns :=
  {| name_idx := None; ytm_idx := Some 1%nat; rating_idx := Some 0%nat;
     maturity_idx := None; offer_date_idx := None |}.

(** A page whose first table lacks the rating marker. *)
Definition two_tables : list pystr :=
  [u "<tr><th>Доходн</th></tr>"; Samples.table2].

End EdgePages.

(** A table the selection of line 53 accepts. *)
Definition qualifies (table : pystr) : bool :=
  contains ytm_marker table && contains rating_marker table.


(** ** Runs of the cache *)

Module CacheRuns.

Import TelegramBondsBot.

(** One call of [get_bonds_data]: the page the site serves at that moment,
    the day, the clock reading and the count asked. *)
Record call := mkcall {
  call_page : pystr;
  call_today : date;
  call_time : float;
  call_count : Z
}.

Definition step (st : cache) (cl : call) : cache :=
  Outcome.state_of
    (get_bonds_data (fetch_page (call_page cl) (call_today cl))
       (call_time cl) (call_count cl) st).

(** The globals after a series of calls. *)
Definition run (calls : list call) (st : cache) : cache :=
  fold_left step calls st.

(** Both globals are unset, or both are set and the list is not empty and
    has at most twenty records. *)
Definition consistent (st : cache) : Prop :=
  (last_fetch_time st = None /\ last_bonds_data st = None)
  \/ (exists t data,
        last_fetch_time st = Some t /\ last_bonds_data st = Some data
        /\ (1 <= length data <= 20)%nat).

End CacheRuns.


(** The width [w] gives a column is the length of its label or of one of
    its values. *)
Definition column_tight (data : list bond) (w : gmap string nat)
    (col : string) : Prop :=
  w !!! col = length (u col)
  \/ exists item v, In item data /\ Table.cell_text item col = Some v
                    /\ w !!! col = length v.

(** ** What a match of a pattern is *)

Module ReSpec.

Import Re.

(** [matches r s s' caps caps']: the pattern [r] matches the start of [s]
    and leaves [s']; the groups closed go from [caps] to [caps']. *)
Fixpoint matches (r : regex) (s s' : pystr) (caps caps' : list pystr)
    : Prop :=
  match r with
  | RLit p => s = p ++ s' /\ caps' = caps
  | RStar cl _ =>
      exists t, s = t ++ s' /\ Forall (fun x => cclass_test cl x = true) t
                /\ caps' = caps
  | RPlus cl =>
      exists t, s = t ++ s' /\ t <> []
                /\ Forall (fun x => cclass_test cl x = true) t
                /\ caps' = caps
  | RGroup r' =>
      exists c0 t, matches r' s s' caps c0 /\ s = t ++ s'
                   /\ caps' = c0 ++ [t]
  | RSeq a b =>
      exists mid cm, matches a s mid caps cm /\ matches b mid s' cm caps'
  end.

(** [piece] is a contiguous part of [s]. *)
Definition part_of (piece s : pystr) : Prop :=
  exists pre post, s = pre ++ piece ++ post.

End ReSpec.


Module LinkPages.

(** A name cell with a link whose title ends in a parenthesised ISIN. *)
Definition link_cell : pystr :=
  u "<a title=" ++ [dquote] ++ u "Foo bar (RU000A1)" ++ [dquote]
  ++ u " href=x>Foo</a>".
Definition row_link : pystr :=
  u "<td>" ++ link_cell ++ u "</td><td>10%</td><td>A</td>".
Definition table_link : pystr :=
  u "<tr><th>Имя</th><th>Доходн</th><th>Рейтинг</th></tr>"
  ++ u "<tr>" ++ row_link ++ u "</tr>".
Definition page_link : pystr := u "<table>" ++ table_link ++ u "</table>".

End LinkPages.


(** The sign bit of a float ([false] for NaN). *)
Definition sign_bit (f : float) : bool :=
  match f with
  | S754_zero s | S754_infinity s | S754_finite s _ _ => s
  | S754_nan => false
  end.

(** [a] is an earlier calendar day than [b]. *)
Definition date_lt (a b : date) : Prop :=
  year a < year b
  \/ (year a = year b
      /\ (month a < month b \/ (month a = month b /\ day a < day b))).

(** A date the constructor accepts. *)
Definition valid_date (dt : date) : Prop :=
  date_new (year dt) (month dt) (day dt) = inr dt.

(** The text of the offer cell at index [i] after lines 153-155. *)
Definition offer_text (cells : list pystr) (i : nat) : option pystr :=
  (fun cell => strip (strip_tags (strip cell))) <$> cells !! i.


(** The days of a year. *)
Definition year_length (y : Z) : Z := if is_leap y then 366 else 365.

(** ** The messages and commands of [telegram_bonds_bot.py] *)

Module BotText.

Definition nl : pystr := [10%N].

(** [str(z)] for an [int] *)
Definition str_of_Z (z : Z) : pystr :=
  if z <? 0 then u "-" ++ digits_of_N (Z.to_N (- z))
  else digits_of_N (Z.to_N z).

(** ["{:02d}".format(z)]: at least two characters, the sign among them. *)
Definition format_02d (z : Z) : pystr :=
  if z <? 0 then u "-" ++ digits_of_N (Z.to_N (- z))
  else
    let ds := digits_of_N (Z.to_N z) in
    repeat (chr "0") (2 - length ds)%nat ++ ds.

(** [int(f)] for a [float]: the integer towards zero; [None] stands for the
    [ValueError] of NaN and the [OverflowError] of an infinity. *)
Definition int_of_float (f : float) : option Z :=
  match f with
  | S754_zero _ => Some 0
  | S754_finite s m e =>
      let a := if 0 <=? e then Zpos m * 2 ^ e else Zpos m / 2 ^ (- e) in
      Some (if s then - a else a)
  | _ => None
  end.

(** [s.split()]: the words between runs of white space. *)
Fixpoint split_ws_from (cur : pystr) (s : pystr) : list pystr :=
  match s with
  | [] =>
      match cur with
      | [] => []
      | _ => [rev cur]
      end
  | x :: t =>
      if isspace x then
        match cur with
        | [] => split_ws_from [] t
        | _ => rev cur :: split_ws_from [] t
        end
      else split_ws_from (x :: cur) t
  end.

Definition split_ws (s : pystr) : list pystr := split_ws_from [] s.

Definition no_data_text : pystr := u "Не удалось получить данные по облигациям.".

(** Line 305. *)
Definition position_emoji (i : nat) : pystr :=
  match i with
  | 1%nat => u "🥇"
  | 2%nat => u "🥈"
  | 3%nat => u "🥉"
  | _ => u "🏅"
  end.

(** Line 302. *)
Definition tinvest_link (isin : pystr) : pystr :=
  if negb (pystr_eqb isin NA) then u "https://www.tinkoff.ru/invest/bonds/" ++ isin ++ u "/"
  else u "#".

(** Lines 294-317: the part of the message for the bond at position [i]. *)
Definition bond_block (i : nat) (item : bond) : pystr :=
  let isin := ISIN item in
  let name := Name item in
  let ytm := format_f 2 (Yield_to_Maturity item) ++ u "%" in
  position_emoji i ++ u " <b>" ++ str_of_Z (Z.of_nat i) ++ u ". <a href='"
  ++ tinvest_link isin ++ u "'>" ++ name ++ u "</a></b> (" ++ isin ++ u ")" ++ nl
  ++ u "   📈 Доходность: <b>" ++ ytm ++ u "</b>" ++ nl
  ++ u "   ⭐️ Рейтинг: " ++ Rating item ++ nl
  ++ u "   🗓 Срок погашения: " ++ Maturity item ++ nl
  ++ match Years_to_Offer_Str item with
     | Some s => u "   📅 До оферты: " ++ s ++ nl
     | None => []
     end
  ++ nl.

(** The loop of line 292, counting from [i]. *)
Fixpoint bond_blocks (i : nat) (bonds : list bond) : pystr :=
  match bonds with
  | [] => []
  | item :: rest => bond_block i item ++ bond_blocks (S i) rest
  end.

Definition title (count : Z) : pystr :=
  u "<b>🔝 Топ-" ++ str_of_Z count ++ u " облигаций с наибольшей доходностью к погашению:</b>" ++ nl ++ nl.

Definition footer : pystr := u "<i>Данные с сайта smart-lab.ru</i>".

(** [format_bonds_message(bonds, count)] *)
Definition format_bonds_message (bonds : list bond) (count : Z) : pystr :=
  match bonds with
  | [] => no_data_text
  | _ => title count ++ bond_blocks 1 bonds ++ footer
  end.

Definition start_text (user_first_name : pystr) : pystr :=
  u "Привет, " ++ user_first_name ++ u "! 👋" ++ nl ++ nl
  ++ u "Я бот, который показывает топ облигаций с наибольшей доходностью к погашению с сайта smart-lab.ru." ++ nl ++ nl
  ++ u "Доступные команды:" ++ nl
  ++ u "/bonds [число] - Получить топ-N облигаций с наибольшей доходностью (по умолчанию 5)" ++ nl
  ++ u "/subscribe - Подписаться на ежедневные обновления" ++ nl
  ++ u "/unsubscribe - Отписаться от ежедневных обновлений" ++ nl
  ++ u "/status - Проверить статус бота" ++ nl
  ++ u "/help - Показать справку".

Definition help_text : pystr :=
  u "Доступные команды:" ++ nl
  ++ u "/start - Начать работу с ботом" ++ nl
  ++ u "/help - Показать справку" ++ nl
  ++ u "/bonds [число] - Получить топ-N облигаций с наибольшей доходностью (по умолчанию 5)" ++ nl
  ++ u "/subscribe - Подписаться на ежедневные обновления" ++ nl
  ++ u "/unsubscribe - Отписаться от ежедневных обновлений" ++ nl
  ++ u "/status - Проверить статус бота".

Definition subscribed_text : pystr :=
  u "✅ Вы успешно подписались на ежедневные обновления по облигациям!" ++ nl ++ nl
  ++ u "Вы будете получать информацию о топ облигациях с наибольшей доходностью каждый день в 10:00 МСК.".

Definition unsubscribed_text : pystr := u "❌ Вы отписались от ежедневных обновлений.".
Definition not_subscribed_text : pystr := u "Вы не были подписаны на обновления.".

(** Lines 369-380; [last_fetch] is the local time text of the last fetch,
    if there was one. *)
Definition status_text (uptime : Z) (subscribers : nat)
    (last_fetch : option pystr) : pystr :=
  let hours := uptime / 3600 in
  let remainder := uptime mod 3600 in
  let minutes := remainder / 60 in
  let seconds := remainder mod 60 in
  u "✅ Бот работает исправно" ++ nl ++ nl
  ++ u "Время работы: " ++ format_02d hours ++ u ":" ++ format_02d minutes ++ u ":"
  ++ format_02d seconds ++ nl
  ++ u "Количество подписчиков: " ++ str_of_Z (Z.of_nat subscribers) ++ nl
  ++ match last_fetch with
     | Some text => u "Последнее обновление данных: " ++ text
     | None => u "Данные еще не загружались"
     end.

Definition fetching_text (count : Z) : pystr :=
  u "Получаю данные по топ-" ++ str_of_Z count ++ u " облигациям с smart-lab.ru...".

Definition unknown_text : pystr := u "Неизвестная команда. Используйте /help для получения списка доступных команд.".

End BotText.
Module TelegramCommands.

Import TelegramBondsBot BotText.

(** A call of [send_message]. *)
Record message := mkmessage {
  chat : Z;
  text : pystr;
  parse_mode : option pystr
}.

(** The globals a command reads and writes. *)
Record bot := mkbot {
  subscribed_users : gset Z;
  store : cache;
  start_time : float
}.

(** What a command reads from outside: the clock, what a fetch of the
    page returns, and the local time text of a time stamp ([None] where
    [fromtimestamp] raises). *)
Record world := mkworld {
  now : float;
  fetch : Z -> option (list bond);
  local_time : float -> option pystr
}.

Definition with_users (st : bot) (users : gset Z) : bot :=
  {| subscribed_users := users; store := store st;
     start_time := start_time st |}.

Definition with_store (st : bot) (c : cache) : bot :=
  {| subscribed_users := subscribed_users st; store := c;
     start_time := start_time st |}.

Definition plain (chat_id : Z) (t : pystr) : message :=
  {| chat := chat_id; text := t; parse_mode := None |}.

Definition html (chat_id : Z) (t : pystr) : message :=
  {| chat := chat_id; text := t; parse_mode := Some (u "HTML") |}.

(** Lines 387-397: the count a [/bonds] command asks for; [int] reads the
    second word as [int_of_str] does. *)
Definition bonds_count (command : pystr) : Z :=
  match split_ws command with
  | _ :: arg :: _ =>
      match int_of_str arg with
      | Some requested_count => Z.max 1 (Z.min 20 requested_count)
      | None => 5
      end
  | _ => 5
  end.

(** Lines 366-382. *)
Definition status_reply (w : world) (st : bot) : option pystr :=
  match int_of_float (fsub (now w) (start_time st)) with
  | None => None
  | Some uptime =>
      let subscribers := size (subscribed_users st) in
      match last_fetch_time (store st) with
      | Some t =>
          if float_truthy t then
            match local_time w t with
            | Some last_fetch =>
                Some (status_text uptime subscribers (Some last_fetch))
            | None => None
            end
          else Some (status_text uptime subscribers None)
      | None => Some (status_text uptime subscribers None)
      end
  end.

(** [handle_command(chat_id, command, user_first_name)]: the globals after
    it, the messages sent in order and the arguments of the fetches made;
    [None] where an exception leaves the function.  The API address is taken
    to be set, so that [send_message] returns. *)
Definition handle_command (w : world) (chat_id : Z)
    (command user_first_name : pystr) (st : bot)
    : option (bot * list message * list Z) :=
  if pystr_eqb command (u "/start") then
    Some (st, [plain chat_id (start_text user_first_name)], [])
  else if pystr_eqb command (u "/help") then
    Some (st, [plain chat_id help_text], [])
  else if pystr_eqb command (u "/subscribe") then
    Some (with_users st ({[chat_id]} ∪ subscribed_users st),
          [plain chat_id subscribed_text], [])
  else if pystr_eqb command (u "/unsubscribe") then
    if bool_decide (chat_id ∈ subscribed_users st) then
      Some (with_users st (subscribed_users st ∖ {[chat_id]}),
            [plain chat_id unsubscribed_text], [])
    else Some (st, [plain chat_id not_subscribed_text], [])
  else if pystr_eqb command (u "/status") then
    match status_reply w st with
    | Some message => Some (st, [plain chat_id message], [])
    | None => None
    end
  else if startswith (u "/bonds") command then
    let count := bonds_count command in
    let '(bonds, store', fetches) :=
      get_bonds_data (fetch w) (now w) count (store st) in
    let reply :=
      match bonds with
      | Some (b :: bs) => html chat_id (format_bonds_message (b :: bs) count)
      | _ => plain chat_id no_data_text
      end in
    Some (with_store st store',
          [plain chat_id (fetching_text count); reply], fetches)
  else Some (st, [plain chat_id unknown_text], []).

(** [send_daily_updates()].  The order in which a Python set is walked is
    not fixed; [elements] stands for it. *)
Definition send_daily_updates (w : world) (st : bot)
    : bot * list message * list Z :=
  if bool_decide (subscribed_users st = ∅) then (st, [], [])
  else
    let '(bonds, store', fetches) :=
      get_bonds_data (fetch w) (now w) 5 (store st) in
    match bonds with
    | Some (b :: bs) =>
        let message := format_bonds_message (b :: bs) 5 in
        (with_store st store',
         map (fun chat_id => html chat_id message)
             (elements (subscribed_users st)),
         fetches)
    | _ => (with_store st store', [], fetches)
    end.

End TelegramCommands.

(** ** The retry loop of [send_message], [delete_webhook] and
      [get_updates] *)

Module Transport.

(** How one attempt to reach the API ends: the decoded answer, a
    [URLError], or any other exception raised inside the [try]: a body that
    is not JSON, and in [delete_webhook] an answer that has no [get]. *)
Inductive outcome (R : Type) :=
| Response (r : R)
| URLError
| OtherError.

Arguments Response {R} r.
Arguments URLError {R}.
Arguments OtherError {R}.

Definition max_retries : nat := 3.

(** The loop [while retry_count < max_retries]; [net k] is how attempt
    number [k] (from 0) ends.  The value returned, the attempts made and the
    seconds slept between them. *)
Fixpoint retry_loop {R} (net : nat -> outcome R) (fuel retry_count : nat)
    (retry_delay : Z) : option R * nat * list Z :=
  match fuel with
  | O => (None, O, [])
  | S fuel' =>
      if (retry_count <? max_retries)%nat then
        match net retry_count with
        | Response r => (Some r, 1%nat, [])
        | URLError =>
            let retry_count' := S retry_count in
            if (retry_count' <? max_retries)%nat then
              let '(r, n, sl) :=
                retry_loop net fuel' retry_count' (retry_delay * 2) in
              (r, S n, retry_delay :: sl)
            else (None, 1%nat, [])
        | OtherError => (None, 1%nat, [])
        end
      else (None, O, [])
  end.

(** The three functions start the loop with no retries made and a delay of
    one second. *)
Definition request {R} (net : nat -> outcome R) : option R * nat * list Z :=
  retry_loop net max_retries 0 1.

End Transport.

(** ** The daily check of the main loop *)

Module DailyCheck.

(** The fields of [datetime.datetime.now()] that the loop reads. *)
Record reading := mkreading { hour : Z; minute : Z }.

Definition is_time_for_daily_update (now : reading) : bool :=
  (hour now =? 10) && (minute now =? 0).

(** Lines 484-489: [now] is the reading of line 484 and [inner] the one
    [is_time_for_daily_update] takes itself.  Whether the updates are sent,
    and [last_daily_check] afterwards. *)
Definition daily_check (now inner last_daily_check : reading)
    : bool * reading :=
  if negb (minute now =? minute last_daily_check)
  then (is_time_for_daily_update inner, now)
  else (false, last_daily_check).

End DailyCheck.


(** * Properties *)

(** ** The model of the Python library on small inputs *)

Example u_cyrillic : u "Имя" = [1048; 1084; 1103]%N.
Proof. reflexivity. Qed.

Example strip_unicode_space : strip ([160; 32]%N ++ u "a b" ++ [10]%N) = u "a b".
Proof. reflexivity. Qed.

Example split_dots : split (chr ".") (u "a..b") = [u "a"; []; u "b"].
Proof. reflexivity. Qed.

Example findall_cells :
  Re.findall cell_pattern (u "<td class=x>a</td><td>b<b>c</b></td>")
  = [u "a"; u "b<b>c</b>"].
Proof. vm_compute. reflexivity. Qed.

Example findall_rows_unclosed :
  Re.findall row_pattern (u "<tr><tr>x</tr></tr><track>y</tr>")
  = [u "<tr>x"; u "y"].
Proof. vm_compute. reflexivity. Qed.

Example strip_tags_keeps_empty_brackets :
  strip_tags (u "a<b>c<>d<e") = u "ac<>d<e".
Proof. vm_compute. reflexivity. Qed.

Example name_link :
  parse_name (u "<a title=" ++ [dquote] ++ u "Foo bar (RU000A1)" ++ [dquote]
              ++ u " href=x>Nm</a>")
  = (u "RU000A1", u "Nm").
Proof. vm_compute. reflexivity. Qed.

Example name_link_last_parenthesis :
  parse_name (u "<a title=" ++ [dquote] ++ u "Foo (a) (b)" ++ [dquote]
              ++ u " >X</a>")
  = (u "b", u "X").
Proof. vm_compute. reflexivity. Qed.

Example name_without_link :
  parse_name (u "<b>Plain</b> bond ") = (NA, u "Plain bond").
Proof. vm_compute. reflexivity. Qed.

Example float_tenth :
  float_of_str (u "0.1") = Some (S754_finite false 7205759403792794 (-56)).
Proof. vm_compute. reflexivity. Qed.

Example float_tie_to_even :
  float_of_str (u "9007199254740993")
  = Some (S754_finite false 4503599627370496 1).
Proof. vm_compute. reflexivity. Qed.

Example float_overflow : float_of_str (u "1e400") = Some (S754_infinity false).
Proof. vm_compute. reflexivity. Qed.

Example float_words :
  map float_of_str [u " +InFiNiTy "; u "-inf"; u "NaN"; u "infinit"]
  = [Some (S754_infinity false); Some (S754_infinity true); Some S754_nan;
     None].
Proof. vm_compute. reflexivity. Qed.

Example float_underscores :
  map float_of_str [u "1_0e1_0"; u "1__0"; u "1_"; u "1_.5"; u "."; u "1e";
                    u ""; u "1,5"]
  = [Some (S754_finite false 6553600000000000 (-16)); None; None; None; None;
     None; None; None].
Proof. vm_compute. reflexivity. Qed.

Example float_point_forms :
  map float_of_str [u "5."; u ".5"; u "1.e1"]
  = [Some (S754_finite false 5629499534213120 (-50));
     Some (S754_finite false 4503599627370496 (-53));
     Some (S754_finite false 5629499534213120 (-49))].
Proof. vm_compute. reflexivity. Qed.

Example int_forms :
  map int_of_str [u " -0_12 "; u "+7"; u "1.0"; u "1_"; u ""; u "0x10"]
  = [Some (-12); Some 7; None; None; None; None].
Proof. vm_compute. reflexivity. Qed.

(** The separator U+001C is white space to [str.strip] and not to [int];
    the no-break space and the digits of other scripts are read. *)
Example int_white_space_and_scripts :
  map int_of_str
      [u "31" ++ [28%N]; [28%N] ++ u "31"; u "31" ++ [160%N]; u "٣١";
       u "-٣١"; u "３１"; u "1" ++ [127%N]; u "١_٠"; [9%N] ++ u "1" ++ [10%N]]
  = [None; None; Some 31; Some 31; Some (-31); Some 31; None; Some 10;
     Some 1]
  /\ strip (u "31" ++ [28%N]) = u "31".
Proof. vm_compute. split; reflexivity. Qed.

Example float_white_space_and_scripts :
  map float_of_str
      [u "１２.５"; u "1e٥"; u "12.5" ++ [28%N]; u "nan" ++ [160%N]; u "ｎａｎ"]
  = [Some Samples.f12_5; Some (float_of_Z 100000); None; Some S754_nan; None].
Proof. vm_compute. reflexivity. Qed.

Example format_two_decimals :
  map (format_f 2) [Samples.f12_5; Samples.f8_75; S754_nan;
                    S754_infinity true; S754_zero true]
  = [u "12.50"; u "8.75"; u "nan"; u "-inf"; u "-0.00"].
Proof. vm_compute. reflexivity. Qed.

Example format_rounds_half_even :
  option_map (format_f 2) (float_of_str (u "0.125")) = Some (u "0.12")
  /\ option_map (format_f 1) (float_of_str (u "0.25")) = Some (u "0.2")
  /\ option_map (format_f 2) (float_of_str (u "12.345")) = Some (u "12.35").
Proof. repeat split; vm_compute; reflexivity. Qed.

Example date_ordinals :
  toordinal (mkdate 1 1 1) = 1 /\ toordinal (mkdate 2030 1 1) = 741078
  /\ toordinal (mkdate 2030 1 1) - toordinal (mkdate 2024 3 1) = 2132.
Proof. repeat split. Qed.

Example date_errors :
  date_new 2024 2 30 = inl ValueError /\ date_new 0 1 1 = inl ValueError
  /\ date_new (2 ^ 31 - 1) 1 1 = inl ValueError
  /\ date_new (2 ^ 31) 1 1 = inl OverflowError
  /\ date_new 2024 (2 ^ 31) 1 = inl OverflowError
  /\ date_new 2024 2 29 = inr (mkdate 2024 2 29).
Proof. repeat split. Qed.

Example slices :
  slice_to [1; 2; 3] (-1) = [1; 2] /\ slice_to [1; 2; 3] (-5) = []
  /\ slice_to [1; 2; 3] 0 = [] /\ slice_to [1; 2; 3] 7 = [1; 2; 3].
Proof. repeat split. Qed.

(** The two-row page of the specification: the 12.50 record first, the 8.75
    record second, and no [N/A] in the yield column of the table. *)
Example two_row_page :
  exists a b,
    get_top_yield_bonds Samples.page2 Samples.today 2 = inr [a; b]
    /\ Name a = u "A" /\ Yield_to_Maturity a = Samples.f12_5
    /\ Name b = u "B" /\ Yield_to_Maturity b = Samples.f8_75
    /\ Rating b = NA
    /\ map (fun r => Table.shown r "Yield to Maturity") [a; b]
       = [u "12.50%"; u "8.75%"].
Proof.
  eexists. eexists. split; [vm_compute; reflexivity|].
  repeat split; vm_compute; reflexivity.
Qed.


(** ** The order of binary64 values that are not NaN *)

Section FloatOrder.

Lemma lexcmp_lt x y : lexcmp x y = Lt <-> lex_lt x y.
Proof.
  destruct x as [[a1 b1] c1], y as [[a2 b2] c2]; simpl.
  destruct (Z.compare_spec a1 a2), (Z.compare_spec b1 b2),
    (Z.compare_spec c1 c2); split; intros; try discriminate; try lia; auto.
Qed.

Lemma lexcmp_eq x y : lexcmp x y = Eq <-> x = y.
Proof.
  destruct x as [[a1 b1] c1], y as [[a2 b2] c2]; simpl.
  destruct (Z.compare_spec a1 a2), (Z.compare_spec b1 b2),
    (Z.compare_spec c1 c2); split; intros H'; try discriminate;
    try (injection H'; intros; lia); subst; auto.
Qed.

Lemma lexcmp_gt x y : lexcmp x y = Gt <-> lex_lt y x.
Proof.
  destruct x as [[a1 b1] c1], y as [[a2 b2] c2]; simpl.
  destruct (Z.compare_spec a1 a2), (Z.compare_spec b1 b2),
    (Z.compare_spec c1 c2); split; intros; try discriminate; try lia; auto.
Qed.

Lemma SFcompare_fkey a b :
  is_nan a = false -> is_nan b = false ->
  SFcompare a b = Some (lexcmp (fkey a) (fkey b)).
Proof.
  destruct a as [sa|sa| |sa ma ea], b as [sb|sb| |sb mb eb];
    try discriminate; intros _ _;
    try destruct sa; try destruct sb; try reflexivity; simpl.
  rewrite Z.compare_opp.
  destruct (Z.compare_spec ea eb) as [->| |]; simpl.
  - rewrite Z.compare_refl. reflexivity.
  - destruct (Z.compare_spec eb ea); try lia; reflexivity.
  - destruct (Z.compare_spec eb ea); try lia; reflexivity.
Qed.

Lemma flt_fkey a b :
  is_nan a = false -> is_nan b = false ->
  flt a b = true <-> lex_lt (fkey a) (fkey b).
Proof.
  intros Ha Hb. unfold flt, SFltb. rewrite SFcompare_fkey by assumption.
  rewrite <- lexcmp_lt. destruct (lexcmp _ _); split; congruence.
Qed.

Lemma lex_lt_trans x y z : lex_lt x y -> lex_lt y z -> lex_lt x z.
Proof.
  destruct x as [[a1 b1] c1], y as [[a2 b2] c2], z as [[a3 b3] c3].
  simpl. lia.
Qed.

Lemma lex_lt_total x y : lex_lt x y \/ x = y \/ lex_lt y x.
Proof.
  destruct x as [[a1 b1] c1], y as [[a2 b2] c2]. simpl.
  destruct (Z.lt_total a1 a2) as [|[|]], (Z.lt_total b1 b2) as [|[|]],
    (Z.lt_total c1 c2) as [|[|]]; subst; auto; try (left; lia);
    right; right; lia.
Qed.

Lemma lex_lt_irrefl x : ~ lex_lt x x.
Proof. destruct x as [[a b] c]. simpl. lia. Qed.

Lemma flt_trans a b c :
  is_nan a = false -> is_nan b = false -> is_nan c = false ->
  flt a b = true -> flt b c = true -> flt a c = true.
Proof.
  intros Ha Hb Hc. rewrite !flt_fkey by assumption. apply lex_lt_trans.
Qed.

Lemma flt_asym a b :
  is_nan a = false -> is_nan b = false ->
  flt a b = true -> flt b a = false.
Proof.
  intros Ha Hb H1. destruct (flt b a) eqn:H2; [|reflexivity].
  apply flt_fkey in H1, H2; try assumption.
  destruct (lex_lt_irrefl _ (lex_lt_trans _ _ _ H1 H2)).
Qed.

Lemma flt_false a b :
  is_nan a = false -> is_nan b = false ->
  flt a b = false <-> (fkey a = fkey b \/ lex_lt (fkey b) (fkey a)).
Proof.
  intros Ha Hb. split.
  - intros H. destruct (lex_lt_total (fkey a) (fkey b)) as [Hl|[He|Hg]]; auto.
    apply flt_fkey in Hl; try assumption. congruence.
  - intros H. destruct (flt a b) eqn:E; [|reflexivity].
    apply flt_fkey in E; try assumption. destruct H as [H|H].
    + rewrite H in E. destruct (lex_lt_irrefl _ E).
    + destruct (lex_lt_irrefl _ (lex_lt_trans _ _ _ E H)).
Qed.

Lemma flt_negtrans a b c :
  is_nan a = false -> is_nan b = false -> is_nan c = false ->
  flt a b = false -> flt b c = false -> flt a c = false.
Proof.
  intros Ha Hb Hc. rewrite !flt_false by assumption.
  intros [H1|H1] [H2|H2].
  - left. congruence.
  - right. rewrite H1. exact H2.
  - right. rewrite <- H2. exact H1.
  - right. exact (lex_lt_trans _ _ _ H2 H1).
Qed.

Lemma fle_of_not_flt a b :
  is_nan a = false -> is_nan b = false ->
  flt a b = false -> fle b a = true.
Proof.
  intros Ha Hb H. apply flt_false in H; try assumption.
  unfold fle, SFleb. rewrite SFcompare_fkey by assumption.
  destruct H as [H|H].
  - rewrite H. assert (E : lexcmp (fkey b) (fkey b) = Eq) by (apply lexcmp_eq; reflexivity).
    rewrite E. reflexivity.
  - apply lexcmp_lt in H. rewrite H. reflexivity.
Qed.

Lemma feq_not_nan a v : feq a v = true -> is_nan a = false /\ is_nan v = false.
Proof.
  unfold feq, SFeqb. destruct a, v; simpl; try discriminate; auto.
Qed.

Lemma feq_unordered a b v :
  feq a v = true -> feq b v = true -> flt a b = false.
Proof.
  intros H1 H2.
  destruct (feq_not_nan _ _ H1) as [Ha Hv], (feq_not_nan _ _ H2) as [Hb _].
  apply flt_false; try assumption. left.
  unfold feq, SFeqb in H1, H2. rewrite SFcompare_fkey in H1, H2 by assumption.
  destruct (lexcmp (fkey a) (fkey v)) eqn:E1; try discriminate.
  destruct (lexcmp (fkey b) (fkey v)) eqn:E2; try discriminate.
  apply lexcmp_eq in E1, E2. congruence.
Qed.

End FloatOrder.

(** ** Stable insertion sort *)

Section StableSort.

Context {A : Type} (lt : A -> A -> bool) (ok : A -> Prop).

Hypothesis lt_trans : forall a b c, ok a -> ok b -> ok c ->
  lt a b = true -> lt b c = true -> lt a c = true.
Hypothesis lt_asym : forall a b, ok a -> ok b ->
  lt a b = true -> lt b a = false.
Hypothesis lt_negtrans : forall a b c, ok a -> ok b -> ok c ->
  lt a b = false -> lt b c = false -> lt a c = false.

Lemma insert_asc_perm x l : Permutation (insert_asc lt x l) (x :: l).
Proof.
  induction l as [|y l IH]; simpl; [reflexivity|].
  destruct (lt x y); [reflexivity|].
  rewrite IH. apply perm_swap.
Qed.

Lemma insert_asc_Forall (P : A -> Prop) x l :
  P x -> Forall P l -> Forall P (insert_asc lt x l).
Proof.
  intros Hx Hl. eapply Permutation_Forall.
  - symmetry. apply insert_asc_perm.
  - constructor; assumption.
Qed.

Lemma insert_asc_sorted x l :
  ok x -> Forall ok l -> ascending lt l -> ascending lt (insert_asc lt x l).
Proof.
  intros Hx Hok Hs. induction Hs as [|y l Hs IH Hy]; simpl.
  - repeat constructor.
  - apply Forall_cons_1 in Hok as [Hoky Hokl].
    destruct (lt x y) eqn:E.
    + constructor; [constructor; assumption|].
      constructor; [apply lt_asym; assumption|].
      rewrite Forall_forall in Hy, Hokl |- *. intros z Hz.
      destruct (lt z x) eqn:E2; [|reflexivity].
      rewrite <- (Hy z Hz). symmetry.
      apply (lt_trans z x y); auto.
    + constructor; [apply IH; assumption|].
      apply insert_asc_Forall; assumption.
Qed.

Lemma sort_asc_perm_acc l acc :
  Permutation (fold_left (fun acc x => insert_asc lt x acc) l acc) (acc ++ l).
Proof.
  revert acc. induction l as [|x l IH]; intros acc; simpl.
  - rewrite app_nil_r. reflexivity.
  - rewrite IH, insert_asc_perm. apply Permutation_middle.
Qed.

Lemma sort_asc_perm l : Permutation (sort_asc lt l) l.
Proof. apply (sort_asc_perm_acc l []). Qed.

Lemma sort_asc_sorted_acc l acc :
  Forall ok l -> Forall ok acc -> ascending lt acc ->
  ascending lt (fold_left (fun acc x => insert_asc lt x acc) l acc).
Proof.
  revert acc. induction l as [|x l IH]; intros acc Hl Hacc Hs; simpl.
  - assumption.
  - apply Forall_cons_1 in Hl as [Hx Hl]. apply IH; auto.
    + apply insert_asc_Forall; assumption.
    + apply insert_asc_sorted; assumption.
Qed.

Lemma sort_asc_sorted l : Forall ok l -> ascending lt (sort_asc lt l).
Proof.
  intros Hl. apply sort_asc_sorted_acc; auto; constructor.
Qed.

(** A class of elements no two of which are ordered keeps its order. *)
Variable cls : A -> bool.
Hypothesis cls_unordered : forall a b,
  cls a = true -> cls b = true -> lt a b = false.

Lemma insert_asc_filter x l :
  ok x -> Forall ok l -> ascending lt l ->
  List.filter cls (insert_asc lt x l) = List.filter cls l ++ List.filter cls [x].
Proof.
  intros Hx Hok Hs. induction Hs as [|y l Hs IH Hy].
  - simpl. reflexivity.
  - apply Forall_cons_1 in Hok as [Hoky Hokl].
    cbn [insert_asc]. destruct (lt x y) eqn:E.
    + destruct (cls x) eqn:Cx.
      * assert (Hnone : List.filter cls (y :: l) = []).
        { assert (Hall : Forall (fun z => cls z = false) (y :: l)).
          { constructor.
            - destruct (cls y) eqn:Cy; [|reflexivity].
              rewrite (cls_unordered x y Cx Cy) in E. discriminate.
            - rewrite Forall_forall in Hy, Hokl |- *. intros z Hz.
              destruct (cls z) eqn:Cz; [|reflexivity].
              pose proof (cls_unordered x z Cx Cz) as Hxz.
              pose proof (lt_negtrans x z y Hx (Hokl z Hz) Hoky Hxz (Hy z Hz)).
              congruence. }
          clear -Hall. induction Hall as [|z l' Hz _ IH']; simpl; [reflexivity|].
          rewrite Hz. exact IH'. }
        change (List.filter cls (x :: y :: l))
          with (List.filter cls ([x] ++ (y :: l))).
        rewrite List.filter_app, Hnone, app_nil_r. reflexivity.
      * change (List.filter cls (x :: y :: l))
          with (List.filter cls ([x] ++ (y :: l))).
        rewrite List.filter_app. simpl. rewrite Cx, app_nil_r. reflexivity.
    + cbn [List.filter]. rewrite (IH Hokl).
      destruct (cls y); reflexivity.
Qed.

Lemma sort_asc_filter_acc l acc :
  Forall ok l -> Forall ok acc -> ascending lt acc ->
  List.filter cls (fold_left (fun acc x => insert_asc lt x acc) l acc)
  = List.filter cls acc ++ List.filter cls l.
Proof.
  revert acc. induction l as [|x l IH]; intros acc Hl Hacc Hs; simpl.
  - rewrite app_nil_r. reflexivity.
  - apply Forall_cons_1 in Hl as [Hx Hl]. rewrite IH; auto.
    + rewrite insert_asc_filter by assumption. simpl.
      destruct (cls x); simpl; rewrite <- ?app_assoc; simpl;
        rewrite ?app_nil_r; reflexivity.
    + apply insert_asc_Forall; assumption.
    + apply insert_asc_sorted; assumption.
Qed.

Lemma sort_asc_filter l :
  Forall ok l -> List.filter cls (sort_asc lt l) = List.filter cls l.
Proof.
  intros Hl. apply (sort_asc_filter_acc l []); auto; constructor.
Qed.

End StableSort.

(** ** [sorted] with [reverse=True] on float keys *)

Section SortedByKey.

Context {A : Type} (key : A -> float).

Let klt (a b : A) : bool := flt (key a) (key b).
Let kok (a : A) : Prop := is_nan (key a) = false.

Lemma StronglySorted_rev_flip (R : A -> A -> Prop) l :
  StronglySorted R l -> StronglySorted (fun a b => R b a) (rev l).
Proof.
  induction 1 as [|a l Hs IH Ha]; simpl; [constructor|].
  apply StronglySorted_app. split; [|split].
  - intros x1 x2 H1 H2. apply list_elem_of_In in H1, H2.
    destruct H2 as [<-|[]]. apply In_rev in H1.
    rewrite Forall_forall in Ha. apply Ha. apply list_elem_of_In. exact H1.
  - exact IH.
  - repeat constructor.
Qed.

Lemma sorted_perm reverse l : Permutation (sorted key reverse l) l.
Proof.
  unfold sorted. destruct reverse.
  - rewrite <- Permutation_rev, sort_asc_perm, <- Permutation_rev. reflexivity.
  - apply sort_asc_perm.
Qed.

Lemma kok_rev l : Forall kok l -> Forall kok (rev l).
Proof.
  intros H. eapply Permutation_Forall; [apply Permutation_rev|exact H].
Qed.

Lemma sorted_desc_not_lt l :
  Forall kok l ->
  StronglySorted (fun a b => klt a b = false) (sorted key true l).
Proof.
  intros Hl. unfold sorted.
  apply (StronglySorted_rev_flip (fun a b => klt b a = false)).
  apply (sort_asc_sorted klt kok).
  - intros a b c Ha Hb Hc. apply flt_trans; assumption.
  - intros a b Ha Hb. apply flt_asym; assumption.
  - apply kok_rev. exact Hl.
Qed.

Lemma StronglySorted_weaken (R1 R2 : A -> A -> Prop) (P : A -> Prop) l :
  (forall a b, P a -> P b -> R1 a b -> R2 a b) ->
  Forall P l -> StronglySorted R1 l -> StronglySorted R2 l.
Proof.
  intros Himp HP Hs. induction Hs as [|a l Hs IH Ha]; [constructor|].
  apply Forall_cons_1 in HP as [Pa Pl]. constructor; [apply IH; exact Pl|].
  rewrite Forall_forall in Ha, Pl |- *. intros b Hb.
  apply Himp; auto.
Qed.

Lemma sorted_desc_sorted l :
  Forall kok l ->
  StronglySorted (fun a b => fle (key b) (key a) = true) (sorted key true l).
Proof.
  intros Hl.
  apply (StronglySorted_weaken (fun a b => klt a b = false) _ kok).
  - intros a b Ha Hb H. apply fle_of_not_flt; assumption.
  - eapply Permutation_Forall; [symmetry; apply sorted_perm|exact Hl].
  - apply sorted_desc_not_lt. exact Hl.
Qed.

Lemma sorted_desc_stable l v :
  Forall kok l ->
  List.filter (fun r => feq (key r) v) (sorted key true l)
  = List.filter (fun r => feq (key r) v) l.
Proof.
  intros Hl. unfold sorted.
  rewrite List.filter_rev.
  rewrite (sort_asc_filter klt kok).
  - rewrite List.filter_rev. apply rev_involutive.
  - intros a b c Ha Hb Hc. apply flt_trans; assumption.
  - intros a b Ha Hb. apply flt_asym; assumption.
  - intros a b c Ha Hb Hc. apply flt_negtrans; assumption.
  - intros a b Ha Hb. apply (feq_unordered _ _ v); assumption.
  - apply kok_rev. exact Hl.
Qed.

End SortedByKey.

(** ** The ranker (C4, C8) *)

Lemma slice_to_nonneg {A} (l : list A) (n : Z) :
  0 <= n -> slice_to l n = take (Z.to_nat n) l.
Proof.
  intros H. unfold slice_to. destruct (Z.leb_spec 0 n); [reflexivity|lia].
Qed.

Lemma slice_to_neg {A} (l : list A) (n : Z) :
  n < 0 -> slice_to l n = take (length l - Z.to_nat (- n)) l.
Proof.
  intros H. unfold slice_to. destruct (Z.leb_spec 0 n); [lia|].
  f_equal. lia.
Qed.

Lemma StronglySorted_take {A} (R : A -> A -> Prop) n l :
  StronglySorted R l -> StronglySorted R (take n l).
Proof.
  intros H. rewrite <- (take_drop n l) in H.
  apply StronglySorted_app in H. tauto.
Qed.

Lemma filter_take_prefix {A} (f : A -> bool) n (l : list A) :
  List.filter f (take n l) `prefix_of` List.filter f l.
Proof.
  exists (List.filter f (drop n l)).
  rewrite <- List.filter_app, take_drop. reflexivity.
Qed.

(** C4, amended: for records none of whose yields is NaN and for [k >= 0],
    [rank records k] is sorted non-increasing by yield, has length
    [min k (len records)], is the start of a rearrangement of the records,
    and lists the records of any one yield in their input order. *)
Theorem rank_sorted_stable (records : list bond) (k : Z) :
  0 <= k ->
  Forall yield_not_nan records ->
  StronglySorted by_yield_desc (rank records k)
  /\ length (rank records k) = Nat.min (Z.to_nat k) (length records)
  /\ (exists rest, Permutation (rank records k ++ rest) records)
  /\ forall v, List.filter (same_yield v) (rank records k)
               `prefix_of` List.filter (same_yield v) records.
Proof.
  intros Hk Hnan. unfold rank. rewrite slice_to_nonneg by assumption.
  split; [|split; [|split]].
  - apply StronglySorted_take.
    apply (sorted_desc_sorted Yield_to_Maturity). exact Hnan.
  - rewrite length_take. f_equal.
    apply Permutation_length, sorted_perm.
  - exists (drop (Z.to_nat k) (sorted Yield_to_Maturity true records)).
    rewrite take_drop. apply sorted_perm.
  - intros v.
    pose proof (sorted_desc_stable Yield_to_Maturity records v Hnan) as Hst.
    unfold same_yield. rewrite <- Hst.
    apply filter_take_prefix.
Qed.

Lemma rank_sorted_stable_witness :
  0 <= 3 /\ Forall yield_not_nan Samples.four_records
  /\ rank Samples.four_records 3
     = [Samples.plain "b" Samples.f12_5; Samples.plain "d" Samples.f12_5;
        Samples.plain "a" Samples.f8_75]
  /\ StronglySorted by_yield_desc (rank Samples.four_records 3)
  /\ length (rank Samples.four_records 3) = 3%nat.
Proof.
  assert (H0 : 0 <= 3) by lia.
  assert (H1 : Forall yield_not_nan Samples.four_records)
    by (repeat constructor).
  pose proof (rank_sorted_stable Samples.four_records 3 H0 H1) as (Hs & Hl & _).
  repeat split; try assumption. 
Defined.

(** C4 as stated fails: a record whose yield is NaN is compared false with
    every other, and the result is not non-increasing. *)
Lemma rank_nan_not_sorted :
  rank [Samples.plain "a" S754_nan; Samples.plain "b" Samples.f1] 2
  = [Samples.plain "a" S754_nan; Samples.plain "b" Samples.f1]
  /\ ~ StronglySorted by_yield_desc
         (rank [Samples.plain "a" S754_nan; Samples.plain "b" Samples.f1] 2).
Proof.
  split; [reflexivity|].
  intros H. apply StronglySorted_inv in H as [_ H].
  apply Forall_inv in H. discriminate H.
Qed.

(** C8, amended: the ranker does not clamp and never fails.  Whenever the
    extraction succeeds the call succeeds for every [count]: for
    [count >= 0] it returns the first [count] entries of the sorted list, and
    for [count < 0] the sorted list without its last [-count] entries. *)
Theorem rank_truncates_never_fails html today records count :
  extract html today = inr records ->
  get_top_yield_bonds html today count = inr (rank records count)
  /\ (0 <= count ->
      rank records count
      = take (Z.to_nat count) (sorted Yield_to_Maturity true records))
  /\ (count < 0 ->
      rank records count
      = take (length records - Z.to_nat (- count))
             (sorted Yield_to_Maturity true records)).
Proof.
  intros He. unfold get_top_yield_bonds. rewrite He.
  split; [reflexivity|]. unfold rank. split; intros Hc.
  - apply slice_to_nonneg. exact Hc.
  - rewrite slice_to_neg by exact Hc.
    f_equal. f_equal. apply Permutation_length, sorted_perm.
Qed.

Lemma rank_truncates_never_fails_witness :
  exists records,
    extract Samples.page2 Samples.today = inr records
    /\ length records = 2%nat
    /\ get_top_yield_bonds Samples.page2 Samples.today 25
       = inr (rank records 25)
    /\ rank records 25 = sorted Yield_to_Maturity true records.
Proof.
  destruct (extract Samples.page2 Samples.today) as [f|records] eqn:He;
    [vm_compute in He; discriminate He|].
  exists records.
  destruct (rank_truncates_never_fails _ _ _ 25 He) as (H1 & H2 & _).
  assert (Hl : length records = 2%nat).
  { vm_compute in He. injection He as <-. reflexivity. }
  repeat split; try assumption.
  rewrite H2 by lia. apply take_ge. 
  rewrite (Permutation_length (sorted_perm _ _ _)). lia.
Defined.

(** C8 as stated fails: a negative count is no error; the call returns the
    sorted records without the last one. *)
Lemma rank_negative_count_no_error :
  exists r,
    get_top_yield_bonds Samples.page2 Samples.today (-1) = inr [r]
    /\ Name r = u "A" /\ Yield_to_Maturity r = Samples.f12_5.
Proof.
  eexists. split; [vm_compute; reflexivity|]. split; reflexivity.
Qed.

(** ** The cache (C3, C10) *)

Section Cache.

Import TelegramBondsBot Outcome.

Lemma cached_usable st now count data :
  cached st now count = Some data <-> usable st now count data.
Proof.
  unfold cached, usable, fresh. split.
  - destruct (last_bonds_data st) as [d|]; [|discriminate].
    destruct (last_fetch_time st) as [t|]; [|discriminate].
    destruct d as [|b bs]; [discriminate|].
    destruct (float_truthy t) eqn:Et; [|discriminate].
    destruct (flt (fsub now t) ttl) eqn:Ef; [|discriminate].
    simpl. destruct (Z.leb_spec count (Z.of_nat (S (length bs)))) as [Hc|Hc];
      [|discriminate].
    intros [= <-]. split; [reflexivity|]. split; [discriminate|].
    split; [exists t; auto|]. simpl. lia.
  - intros (Hd & Hne & (t & Ht & Et & Ef) & Hc).
    rewrite Hd, Ht. destruct data as [|b bs]; [contradiction|].
    rewrite Et, Ef. simpl.
    destruct (Z.leb_spec count (Z.of_nat (S (length bs)))) as [Hc'|Hc'];
      [reflexivity|simpl in Hc; lia].
Qed.

Lemma get_bonds_data_hit fetch now count st data :
  cached st now count = Some data ->
  get_bonds_data fetch now count st = (Some (slice_to data count), st, []).
Proof. intros H. unfold get_bonds_data. rewrite H. reflexivity. Qed.


Lemma get_bonds_data_miss_failed fetch now count st :
  cached st now count = None ->
  fetch (fetch_count count) = None \/ fetch (fetch_count count) = Some [] ->
  get_bonds_data fetch now count st = (None, st, [fetch_count count]).
Proof.
  intros Hc Hf. unfold get_bonds_data. rewrite Hc.
  destruct Hf as [-> | ->]; reflexivity.
Qed.


End Cache.

Section CachePolicy.

Import TelegramBondsBot Outcome.





(** C10: a fetch that fails or brings no records leaves both globals as they
    were and the call returns [None]; any later call that the old entry can
    serve is still served from it. *)
Theorem failed_fetch_keeps_cache fetch now count st :
  cached st now count = None ->
  fetch (fetch_count count) = None \/ fetch (fetch_count count) = Some [] ->
  result_of (get_bonds_data fetch now count st) = None
  /\ state_of (get_bonds_data fetch now count st) = st
  /\ forall fetch' now' count' data,
       usable st now' count' data ->
       get_bonds_data fetch' now' count'
         (state_of (get_bonds_data fetch now count st))
       = (Some (slice_to data count'), st, []).
Proof.
  intros Hc Hf. rewrite (get_bonds_data_miss_failed _ _ _ _ Hc Hf).
  unfold result_of, state_of. simpl. repeat split.
  intros fetch' now' count' data Hu.
  apply get_bonds_data_hit, cached_usable, Hu.
Qed.

(** The cache holds five records; a call for ten a minute later fails to
    fetch; a call for five is then served from the five. *)
Lemma failed_fetch_keeps_cache_witness :
  cached CacheSamples.holds_five CacheSamples.t1 10 = None
  /\ result_of (get_bonds_data CacheSamples.fetch_fails CacheSamples.t1 10
                  CacheSamples.holds_five) = None
  /\ get_bonds_data CacheSamples.fetch_five CacheSamples.t1 5
       (state_of (get_bonds_data CacheSamples.fetch_fails CacheSamples.t1 10
                    CacheSamples.holds_five))
     = (Some CacheSamples.five_records, CacheSamples.holds_five, []).
Proof.
  assert (Hc : cached CacheSamples.holds_five CacheSamples.t1 10 = None)
    by reflexivity.
  destruct (failed_fetch_keeps_cache CacheSamples.fetch_fails CacheSamples.t1
              10 CacheSamples.holds_five Hc (or_introl eq_refl))
    as (H1 & _ & H3).
  split; [exact Hc|]. split; [exact H1|].
  apply (H3 CacheSamples.fetch_five CacheSamples.t1 5 CacheSamples.five_records).
  split; [reflexivity|]. split; [discriminate|].
  split; [exists CacheSamples.t0; repeat split|vm_compute; discriminate].
Defined.

End CachePolicy.

(** ** Column widths of the plain table (C9) *)

Section Widths.

Import Table.

Lemma widen_ge item (w : gmap string nat) col c :
  (w !!! c <= widen item w col !!! c)%nat.
Proof.
  unfold widen. destruct (cell_text item col) as [v|]; [|lia].
  destruct (decide (col = c)) as [->|Hne].
  - rewrite lookup_total_insert_eq. lia.
  - rewrite lookup_total_insert_ne by exact Hne. lia.
Qed.

Lemma widen_cell item (w : gmap string nat) col v :
  cell_text item col = Some v -> (length v <= widen item w col !!! col)%nat.
Proof.
  intros H. unfold widen. rewrite H, lookup_total_insert_eq. lia.
Qed.

Lemma foldl_widen_ge item cols (w : gmap string nat) c :
  (w !!! c <= foldl (widen item) w cols !!! c)%nat.
Proof.
  revert w. induction cols as [|col cols IH]; intros w; simpl; [lia|].
  etransitivity; [apply (widen_ge item w col c)|apply IH].
Qed.

Lemma foldl_widen_cell item cols (w : gmap string nat) col v :
  In col cols -> cell_text item col = Some v ->
  (length v <= foldl (widen item) w cols !!! col)%nat.
Proof.
  revert w. induction cols as [|c cols IH]; intros w Hin Hv; [destruct Hin|].
  simpl. destruct Hin as [->|Hin].
  - etransitivity; [apply (widen_cell item w col v Hv)|apply foldl_widen_ge].
  - apply IH; assumption.
Qed.

Lemma widths_ge_acc cols data (w : gmap string nat) c :
  (w !!! c
   <= foldl (fun widths item => foldl (widen item) widths cols) w data !!! c)%nat.
Proof.
  revert w. induction data as [|item data IH]; intros w; simpl; [lia|].
  etransitivity; [apply (foldl_widen_ge item cols w c)|apply IH].
Qed.

Lemma widths_cell_acc cols data (w : gmap string nat) item col v :
  In item data -> In col cols -> cell_text item col = Some v ->
  (length v
   <= foldl (fun widths item => foldl (widen item) widths cols) w data !!! col)%nat.
Proof.
  revert w. induction data as [|it data IH]; intros w Hi Hc Hv; [destruct Hi|].
  simpl. destruct Hi as [->|Hi].
  - etransitivity; [apply (foldl_widen_cell item cols w col v Hc Hv)|].
    apply widths_ge_acc.
  - apply IH; assumption.
Qed.

Lemma init_widths_lookup cols col :
  In col cols -> init_widths cols !!! col = length (u col).
Proof.
  unfold init_widths. induction cols as [|c cols IH]; intros Hin; [destruct Hin|].
  simpl. destruct (decide (c = col)) as [->|Hne].
  - apply lookup_total_insert_eq.
  - rewrite lookup_total_insert_ne by exact Hne.
    destruct Hin as [Heq|Hin]; [contradiction|]. apply IH. exact Hin.
Qed.

Lemma length_ljust w s : (length s <= w)%nat -> length (ljust w s) = w.
Proof.
  intros H. unfold ljust. rewrite length_app, repeat_length. lia.
Qed.

Lemma table_columns_fit cols data :
  Forall (fun col => (3 <= length (u col))%nat) cols ->
  Forall (column_fits cols data) cols.
Proof.
  intros Hlab. rewrite Forall_forall in Hlab |- *. intros col Hcol.
  apply list_elem_of_In in Hcol.
  assert (Hw : (length (u col) <= column_widths cols data !!! col)%nat).
  { unfold column_widths. rewrite <- (init_widths_lookup cols col Hcol).
    apply widths_ge_acc. }
  split; [exact Hw|].
  rewrite Forall_forall. intros item Hitem. apply list_elem_of_In in Hitem.
  assert (Hs : (length (shown item col) <= column_widths cols data !!! col)%nat).
  { unfold shown. destruct (cell_text item col) as [v|] eqn:Ev.
    - apply (widths_cell_acc cols data _ item col v Hitem Hcol Ev).
    - etransitivity; [|exact Hw].
      apply (Hlab col). apply list_elem_of_In. exact Hcol. }
  split; [exact Hs|]. apply length_ljust. exact Hs.
Qed.


End Widths.

(** ** The row loop of the extractor *)

Section Rows.

Lemma process_row_skip today c mx acc row :
  required_max c = inr mx -> covers mx row = false ->
  process_row today c acc row = inr acc.
Proof.
  intros Hm Hc. unfold process_row. rewrite Hm.
  unfold covers in Hc. apply Nat.ltb_ge in Hc.
  destruct (Nat.leb_spec (length (cells_of row)) mx); [reflexivity|lia].
Qed.

Lemma process_row_keep today c mx acc row :
  required_max c = inr mx -> covers mx row = true ->
  process_row today c acc row
  = match build_bond today c (cells_of row) with
    | inl e => inl e
    | inr b => inr (acc ++ [b])
    end.
Proof.
  intros Hm Hc. unfold process_row. rewrite Hm.
  unfold covers in Hc. apply Nat.ltb_lt in Hc.
  destruct (Nat.leb_spec (length (cells_of row)) mx); [lia|reflexivity].
Qed.

(** The records the loop adds are those of the covering rows, in order. *)
Lemma process_rows_inv today c mx rows : forall acc out,
  required_max c = inr mx ->
  process_rows today c acc rows = inr out ->
  exists bs, out = acc ++ bs
    /\ Forall2 (fun row b => build_bond today c (cells_of row) = inr b)
               (List.filter (covers mx) rows) bs.
Proof.
  induction rows as [|row rows IH]; intros acc out Hm H; simpl in H.
  - injection H as <-. exists []. rewrite app_nil_r. split; [reflexivity|constructor].
  - simpl. destruct (covers mx row) eqn:Hc.
    + rewrite (process_row_keep _ _ _ _ _ Hm Hc) in H.
      destruct (build_bond today c (cells_of row)) as [e|b] eqn:Hb;
        [discriminate|].
      destruct (IH _ _ Hm H) as (bs & -> & HF).
      exists (b :: bs). rewrite <- app_assoc. split; [reflexivity|].
      constructor; assumption.
    + rewrite (process_row_skip _ _ _ _ _ Hm Hc) in H.
      apply (IH _ _ Hm H).
Qed.

(** The loop ends normally when every covering row builds. *)
Lemma process_rows_total today c mx rows : forall acc,
  required_max c = inr mx ->
  Forall (fun row => covers mx row = true ->
                     exists b, build_bond today c (cells_of row) = inr b) rows ->
  exists out, process_rows today c acc rows = inr out.
Proof.
  induction rows as [|row rows IH]; intros acc Hm HF; simpl.
  - eexists. reflexivity.
  - apply Forall_cons_1 in HF as [Hrow HF].
    destruct (covers mx row) eqn:Hc.
    + rewrite (process_row_keep _ _ _ _ _ Hm Hc).
      destruct (Hrow eq_refl) as [b ->]. apply IH; assumption.
    + rewrite (process_row_skip _ _ _ _ _ Hm Hc). apply IH; assumption.
Qed.

(** The bound of the skip test is the largest of the name, yield, rating
    and maturity indices that the header resolved. *)
Lemma required_max_is_max c mx :
  required_max c = inr mx ->
  In mx (resolved [name_idx c; ytm_idx c; rating_idx c; maturity_idx c])
  /\ Forall (fun i => (i <= mx)%nat)
            (resolved [name_idx c; ytm_idx c; rating_idx c; maturity_idx c]).
Proof.
  unfold required_max.
  destruct (name_idx c) as [[|n]|], (ytm_idx c) as [[|y]|],
    (rating_idx c) as [[|r]|], (maturity_idx c) as [[|m]|];
    simpl; intros H; try discriminate; injection H as <-;
    (split; [simpl; lia|apply Forall_forall; intros i Hi;
                        apply list_elem_of_In in Hi; simpl in Hi; lia]).
Qed.

Lemma build_bond_fails today c cells e :
  build_bond today c cells = inl e ->
  parse_offer today cells (offer_date_idx c) = inl e.
Proof.
  unfold build_bond. destruct (parse_name _) as [isin name].
  destruct (parse_offer today cells (offer_date_idx c)) as [e'|[od yo]];
    [congruence|discriminate].
Qed.

Lemma build_bond_total today c cells :
  (forall e, parse_offer today cells (offer_date_idx c) <> inl e) ->
  exists b, build_bond today c cells = inr b.
Proof.
  intros H. destruct (build_bond today c cells) as [e|b] eqn:E.
  - apply build_bond_fails in E. destruct (H e E).
  - exists b. reflexivity.
Qed.

Lemma extract_emitted html today bonds b :
  extract html today = inr bonds -> In b bonds ->
  exists c cells, emitted html today c cells b.
Proof.
  intros He Hin. pose proof He as He'. unfold extract in He.
  destruct (locate html) as [f|[table c]] eqn:Hl; [discriminate|].
  destruct (process_rows today c [] (data_rows table)) as [e|out] eqn:Hp;
    [discriminate|].
  injection He as <-.
  destruct (required_max c) as [e|mx] eqn:Hm.
  - destruct (data_rows table) as [|row rows]; simpl in Hp.
    + injection Hp as <-. destruct Hin.
    + unfold process_row in Hp. rewrite Hm in Hp. discriminate.
  - destruct (process_rows_inv _ _ _ _ _ _ Hm Hp) as (bs & -> & HF).
    simpl in Hin.
    assert (Hex : exists row, In row (List.filter (covers mx) (data_rows table))
                   /\ build_bond today c (cells_of row) = inr b).
    { clear -HF Hin. induction HF as [|row b' rows bs' Hb HF IH];
        [destruct Hin|].
      destruct Hin as [->|Hin].
      - exists row. split; [left; reflexivity|exact Hb].
      - destruct (IH Hin) as (r & Hr & Hb'). exists r. split; [right|]; auto. }
    destruct Hex as (row & Hrow & Hb). apply List.filter_In in Hrow as [Hrow _].
    exists c, (cells_of row), table, bs, row. auto 10.
Qed.

Lemma parse_offer_raises today cells idx e :
  parse_offer today cells idx = inl e -> e = OverflowError.
Proof.
  unfold parse_offer. destruct idx as [i|]; [|discriminate].
  destruct (cells !! i) as [cell|]; [|discriminate].
  destruct (offer_of_text today _) as [e'|[od yo]] eqn:E; [|discriminate].
  intros [= <-]. unfold offer_of_text in E.
  destruct (negb _ && negb _ && negb _).
  - destruct (parse_dmy _) as [[[d m] y]|]; [|discriminate].
    destruct (date_new _ m d) as [[|]|dt]; try discriminate.
    + congruence.
    + destruct (0 <? _); discriminate.
  - destruct (pystr_eqb _ _); discriminate.
Qed.

Lemma build_bond_fields today c cells b :
  build_bond today c cells = inr b ->
  (ISIN b, Name b) = parse_name (cell_at cells (name_idx c) [])
  /\ Yield_to_Maturity b = parse_ytm (cell_at cells (ytm_idx c) (u "0"))
  /\ Rating b = cell_at cells (rating_idx c) NA
  /\ Maturity b = parse_maturity (cell_at cells (maturity_idx c) [])
  /\ parse_offer today cells (offer_date_idx c)
     = inr (Offer_Date b, Years_to_Offer b).
Proof.
  unfold build_bond. destruct (parse_name _) as [isin name].
  destruct (parse_offer today cells (offer_date_idx c)) as [e|[od yo]];
    [discriminate|].
  intros [= <-]. simpl. auto.
Qed.


End Rows.

(** ** Which rows become records (C1) *)


Lemma page_rows_located :
  locate Pages.page_rows = inr (Pages.table_rows, Pages.columns_rows).
Proof. vm_compute. reflexivity. Qed.

Lemma page_rows_data :
  data_rows Pages.table_rows
  = [Pages.full_row; Pages.short_row; Pages.tiny_row].
Proof. vm_compute. reflexivity. Qed.



(** ** When the extraction fails (C6) *)

Lemma process_rows_raises today c mx rows : forall acc e,
  required_max c = inr mx ->
  process_rows today c acc rows = inl e ->
  exists row, In row rows /\ build_bond today c (cells_of row) = inl e.
Proof.
  induction rows as [|row rows IH]; intros acc e Hm H; simpl in H;
    [discriminate|].
  destruct (covers mx row) eqn:Hc.
  - rewrite (process_row_keep _ _ _ _ _ Hm Hc) in H.
    destruct (build_bond today c (cells_of row)) as [e'|b] eqn:Hb.
    + exists row. split; [left; reflexivity|congruence].
    + destruct (IH _ _ Hm H) as (r & Hr & Hb'). exists r. split; [right|]; auto.
  - rewrite (process_row_skip _ _ _ _ _ Hm Hc) in H.
    destruct (IH _ _ Hm H) as (r & Hr & Hb'). exists r. split; [right|]; auto.
Qed.

(** Every way [extract] fails: the four tests of lines 45-97, the empty
    [max] of line 113 and the overflow that the handler of line 181 lets
    through. *)
Lemma extract_failure_cases html today f :
  extract html today = inl f ->
  (f = NoTables /\ Re.findall table_pattern html = [])
  \/ (f = NoBondsTable
      /\ select_table (Re.findall table_pattern html) = None)
  \/ (f = NoHeaders
      /\ exists table, select_table (Re.findall table_pattern html) = Some table
                       /\ Re.search row_pattern table = None)
  \/ (f = MissingColumns
      /\ exists table groups,
           select_table (Re.findall table_pattern html) = Some table
           /\ Re.search row_pattern table = Some groups
           /\ find_index ytm_marker
                (map strip (Re.findall header_pattern (nth 0 groups [])))
              = None)
  \/ (f = Raised ValueError
      /\ exists table c, locate html = inr (table, c)
                         /\ required_max c = inl ValueError
                         /\ data_rows table <> [])
  \/ (f = Raised OverflowError
      /\ exists table c row,
           locate html = inr (table, c) /\ In row (data_rows table)
           /\ parse_offer today (cells_of row) (offer_date_idx c)
              = inl OverflowError).
Proof.
  unfold extract. destruct (locate html) as [f'|[table c]] eqn:Hl.
  - intros [= <-]. unfold locate in Hl.
    destruct (Re.findall table_pattern html) as [|t ts] eqn:Ht.
    { injection Hl as <-. left. auto. }
    destruct (select_table (t :: ts)) as [table|] eqn:Hs.
    2:{ injection Hl as <-. right. left. auto. }
    destruct (Re.search row_pattern table) as [groups|] eqn:Hh.
    2:{ injection Hl as <-. right. right. left. split; [reflexivity|].
        exists table. auto. }
    destruct (ytm_idx (resolve_columns _)) eqn:Hy; [discriminate|].
    injection Hl as <-. right. right. right. left. split; [reflexivity|].
    exists table, groups. auto.
  - destruct (process_rows today c [] (data_rows table)) as [e|out] eqn:Hp;
      [|discriminate].
    intros [= <-]. right. right. right. right.
    destruct (required_max c) as [e'|mx] eqn:Hm.
    + left. assert (e' = ValueError) as ->.
      { unfold required_max, py_max in Hm.
        destruct (filter_truthy _); [congruence|discriminate]. }
      destruct (data_rows table) as [|row rows] eqn:Hr; [discriminate|].
      simpl in Hp. unfold process_row in Hp. rewrite Hm in Hp.
      injection Hp as <-. split; [reflexivity|].
      exists table, c. rewrite Hr. repeat split; auto; discriminate.
    + right. destruct (process_rows_raises _ _ _ _ _ _ Hm Hp) as (row & Hr & Hb).
      apply build_bond_fails in Hb.
      pose proof (parse_offer_raises _ _ _ _ Hb) as ->.
      split; [reflexivity|]. exists table, c, row. auto.
Qed.

(** C6 fails on the code: the header resolves the yield column at index 0
    and no name, rating or maturity column, and the call fails on the first
    data row, because [filter(None, ...)] drops the index 0 with the [None]s
    and [max] is given nothing. *)
Theorem extract_fails_on_yield_first_page :
  exists table,
    locate Pages.page_yield_first
    = inr (table, {| name_idx := None; ytm_idx := Some 0%nat;
                     rating_idx := None; maturity_idx := None;
                     offer_date_idx := Some 1%nat |})
    /\ map cells_of (data_rows table) = [[u "12,5%"; u "-"]]
    /\ extract Pages.page_yield_first Samples.today = inl (Raised ValueError).
Proof.
  eexists. split; [vm_compute; reflexivity|].
  split; vm_compute; reflexivity.
Qed.

(** A second way past the per-cell handlers: a date part outside the range
    of a C int raises [OverflowError], which line 181 does not catch. *)
Lemma extract_fails_on_overflowing_date :
  extract Pages.page_overflow Samples.today = inl (Raised OverflowError).
Proof. vm_compute. reflexivity. Qed.

(** ** The fields of an emitted record (C2, C5, C7) *)

Lemma pystr_eqb_eq a b : pystr_eqb a b = true <-> a = b.
Proof.
  revert b. induction a as [|x a IH]; intros [|y b]; simpl;
    try (split; [discriminate|discriminate]); [tauto|].
  rewrite andb_true_iff, N.eqb_eq, IH. split.
  - intros [-> ->]. reflexivity.
  - intros [= -> ->]. auto.
Qed.

Lemma pystr_eqb_neq a b : a <> b -> pystr_eqb a b = false.
Proof.
  intros H. destruct (pystr_eqb a b) eqn:E; [|reflexivity].
  apply pystr_eqb_eq in E. contradiction.
Qed.

Lemma emitted_intro html today table c row b bonds :
  locate html = inr (table, c) -> extract html today = inr bonds ->
  In row (data_rows table) -> build_bond today c (cells_of row) = inr b ->
  In b bonds -> emitted html today c (cells_of row) b.
Proof. intros. exists table, bonds, row. auto 10. Qed.

Lemma emitted_built html today c cells b :
  emitted html today c cells b -> build_bond today c cells = inr b.
Proof. intros (table & bonds & row & _ & _ & _ & _ & H & _). exact H. Qed.

(** C7, amended: for every record that [extract] emits, when the link
    pattern does not match the name cell the ISIN is the sentinel, which is
    the text [N/A], and the name is the cell's text without tags, stripped;
    when the header has no rating column the rating is the sentinel
    [N/A]. *)
Theorem unmatched_name_absent_rating html today c cells b :
  emitted html today c cells b ->
  (Re.search name_pattern (cell_at cells (name_idx c) []) = None ->
   ISIN b = NA
   /\ Name b = strip (strip_tags (cell_at cells (name_idx c) [])))
  /\ (rating_idx c = None -> Rating b = NA).
Proof.
  intros He. apply emitted_built, build_bond_fields in He.
  destruct He as (Hn & _ & Hr & _). split.
  - intros Hs. unfold parse_name in Hn. rewrite Hs in Hn.
    injection Hn as -> ->. auto.
  - intros Hi. rewrite Hr, Hi. reflexivity.
Qed.

Lemma page_no_rating_emitted :
  exists b,
    emitted MorePages.page_no_rating Samples.today MorePages.columns_no_rating
      (cells_of MorePages.row_no_rating) b.
Proof.
  eexists.
  eapply (emitted_intro _ _ MorePages.table_no_rating _ MorePages.row_no_rating).
  - vm_compute. reflexivity.
  - vm_compute. reflexivity.
  - vm_compute. left. reflexivity.
  - vm_compute. reflexivity.
  - left. reflexivity.
Defined.

(** A page without a rating column whose name cell is bold text. *)
Lemma unmatched_name_absent_rating_witness :
  exists b,
    emitted MorePages.page_no_rating Samples.today MorePages.columns_no_rating
      (cells_of MorePages.row_no_rating) b
    /\ ISIN b = NA /\ Name b = u "A x" /\ Rating b = NA.
Proof.
  destruct page_no_rating_emitted as [b Hb]. exists b.
  destruct (unmatched_name_absent_rating _ _ _ _ _ Hb) as [H1 H2].
  destruct H1 as [Hi Hn]; [vm_compute; reflexivity|].
  split; [exact Hb|]. split; [exact Hi|]. split; [|apply H2; reflexivity].
  rewrite Hn. vm_compute. reflexivity.
Defined.

(** C7 as stated fails: the sentinel of the code is the text [N/A]; no
    record carries the text [unknown] that the claim names. *)
Lemma unmatched_name_gives_na_not_unknown :
  locate MorePages.page_no_rating
  = inr (MorePages.table_no_rating, MorePages.columns_no_rating)
  /\ rating_idx MorePages.columns_no_rating = None
  /\ data_rows MorePages.table_no_rating = [MorePages.row_no_rating]
  /\ Re.search name_pattern
       (cell_at (cells_of MorePages.row_no_rating)
                (name_idx MorePages.columns_no_rating) []) = None
  /\ exists b,
       extract MorePages.page_no_rating Samples.today = inr [b]
       /\ ISIN b = u "N/A" /\ ISIN b <> u "unknown"
       /\ Rating b = u "N/A" /\ Rating b <> u "unknown".
Proof.
  split; [vm_compute; reflexivity|]. split; [reflexivity|].
  split; [vm_compute; reflexivity|]. split; [vm_compute; reflexivity|].
  eexists. split; [vm_compute; reflexivity|].
  repeat split; vm_compute; discriminate.
Qed.

Lemma parse_offer_cell today cells i cell :
  cells !! i = Some cell ->
  parse_offer today cells (Some i)
  = match offer_of_text today (strip (strip_tags (strip cell))) with
    | inl e => inl e
    | inr (offer_date, years_to_offer) =>
        inr (if pystr_eqb offer_date [] then NA else offer_date,
             years_to_offer)
    end.
Proof. intros H. unfold parse_offer. rewrite H. reflexivity. Qed.

Lemma parse_dmy_some_text text d m y :
  parse_dmy text = Some (d, m, y) ->
  pystr_eqb text [] = false /\ pystr_eqb text NA = false
  /\ pystr_eqb text (u "-") = false.
Proof.
  intros H. repeat split; apply pystr_eqb_neq; intros ->;
    vm_compute in H; discriminate H.
Qed.

(** C2, amended: for every record that [extract] emits, the offer field is
    the sentinel [N/A], with no years to offer, when the column or the cell
    is missing and when the cell's text is a dash or empty; when the text
    reads as day.month.year (a year below 100 taken as 20xx) and is a valid
    date, a date after today gives the text and the day difference divided
    by 365.0, and a date not after today gives [N/A] and no years; a text
    that does not read as a date keeps its text, with no years to offer. *)
Theorem offer_date_field html today c cells b :
  emitted html today c cells b ->
  ((offer_date_idx c = None
    \/ exists i, offer_date_idx c = Some i /\ cells !! i = None) ->
   Offer_Date b = NA /\ Years_to_Offer b = None)
  /\ Years_to_Offer_Str b
     = (fun y => format_f 1 y ++ u " years") <$> Years_to_Offer b
  /\ forall i cell,
       offer_date_idx c = Some i -> cells !! i = Some cell ->
       let text := strip (strip_tags (strip cell)) in
       (text = [] \/ text = u "-" ->
        Offer_Date b = NA /\ Years_to_Offer b = None)
       /\ (forall d m y dt,
             parse_dmy text = Some (d, m, y) ->
             date_new (if y <? 100 then y + 2000 else y) m d = inr dt ->
             (toordinal today < toordinal dt ->
              Offer_Date b = text
              /\ Years_to_Offer b
                 = Some (fdiv (float_of_Z (toordinal dt - toordinal today))
                              (float_of_Z 365)))
             /\ (toordinal dt <= toordinal today ->
                 Offer_Date b = NA /\ Years_to_Offer b = None))
       /\ (text <> [] -> text <> u "-" ->
           parse_dmy text = None
           \/ (exists d m y,
                 parse_dmy text = Some (d, m, y)
                 /\ date_new (if y <? 100 then y + 2000 else y) m d
                    = inl ValueError) ->
           Offer_Date b = text /\ Years_to_Offer b = None).
Proof.
  intros He. apply emitted_built in He.
  pose proof (build_bond_fields _ _ _ _ He) as (_ & _ & _ & _ & Ho).
  assert (Hstr : Years_to_Offer_Str b
                 = (fun y => format_f 1 y ++ u " years") <$> Years_to_Offer b).
  { unfold build_bond in He. destruct (parse_name _) as [isin name].
    destruct (parse_offer today cells (offer_date_idx c)) as [e|[od yo]];
      [discriminate|].
    injection He as <-. reflexivity. }
  split; [|split; [exact Hstr|]]; clear Hstr He;
    set (od := Offer_Date b) in *; set (yo := Years_to_Offer b) in *;
    clearbody od yo.
  - intros [Hn|(i & Hi & Hc)].
    + rewrite Hn in Ho. simpl in Ho. injection Ho as <- <-; split; reflexivity.
    + rewrite Hi in Ho. unfold parse_offer in Ho. rewrite Hc in Ho.
      injection Ho as <- <-; split; reflexivity.
  - intros i cell Hi Hc text. rewrite Hi, (parse_offer_cell _ _ _ _ Hc) in Ho.
    fold text in Ho. unfold offer_of_text in Ho.
    split; [|split].
    + intros [Ht|Ht]; rewrite Ht in Ho; vm_compute in Ho;
        injection Ho as <- <-; split; reflexivity.
    + intros d m y dt Hp Hd.
      destruct (parse_dmy_some_text _ _ _ _ Hp) as (E1 & E2 & E3).
      rewrite E1, E2, E3, Hp, Hd in Ho. simpl in Ho.
      split; intros Hcmp.
      * destruct (Z.ltb_spec 0 (toordinal dt - toordinal today)); [|lia].
        rewrite E1 in Ho. injection Ho as <- <-; split; reflexivity.
      * destruct (Z.ltb_spec 0 (toordinal dt - toordinal today)); [lia|].
        simpl in Ho. injection Ho as <- <-; split; reflexivity.
    + intros Hne Hnd Hbad.
      rewrite (pystr_eqb_neq _ _ Hne), (pystr_eqb_neq _ _ Hnd) in Ho.
      simpl in Ho. destruct (pystr_eqb text NA) eqn:Ena; simpl in Ho.
      * rewrite (pystr_eqb_neq _ _ Hne) in Ho. injection Ho as <- <-; split; reflexivity.
      * destruct Hbad as [Hp|(d & m & y & Hp & Hd)].
        -- rewrite Hp, (pystr_eqb_neq _ _ Hne) in Ho. injection Ho as <- <-; split; reflexivity.
        -- rewrite Hp, Hd, (pystr_eqb_neq _ _ Hne) in Ho. injection Ho as <- <-; split; reflexivity.
Qed.

Lemma full_row_emitted :
  exists b,
    emitted Pages.page_rows Samples.today Pages.columns_rows
      (cells_of Pages.full_row) b.
Proof.
  eexists. eapply (emitted_intro _ _ Pages.table_rows _ Pages.full_row).
  - exact page_rows_located.
  - vm_compute. reflexivity.
  - rewrite page_rows_data. left. reflexivity.
  - vm_compute. reflexivity.
  - left. reflexivity.
Defined.

(** The offer cell [31.12.30] read on 1 March 2024: 2496 days ahead. *)
Lemma offer_date_field_witness :
  exists b,
    emitted Pages.page_rows Samples.today Pages.columns_rows
      (cells_of Pages.full_row) b
    /\ toordinal (mkdate 2030 12 31) - toordinal Samples.today = 2496
    /\ Offer_Date b = u "31.12.30"
    /\ Years_to_Offer b = Some (fdiv (float_of_Z 2496) (float_of_Z 365)).
Proof.
  destruct full_row_emitted as [b Hb]. exists b.
  destruct (offer_date_field _ _ _ _ _ Hb) as (_ & _ & H).
  destruct (H 3%nat (u "31.12.30") eq_refl eq_refl) as (_ & H2 & _).
  destruct (H2 31 12 30 (mkdate 2030 12 31) eq_refl eq_refl) as [H3 _].
  destruct H3 as [Ho Hy]; [vm_compute; reflexivity|].
  split; [exact Hb|]. split; [reflexivity|]. split; [exact Ho|exact Hy].
Defined.

(** A day followed by the separator U+001C is no integer to [int], so the
    text is kept as it is and no years are computed; written in the digits
    of another script the date reads as in ASCII. *)
Example offer_text_separator_and_scripts :
  parse_dmy (u "31" ++ [28%N] ++ u ".12.30") = None
  /\ offer_of_text Samples.today (u "31" ++ [28%N] ++ u ".12.30")
     = inr (u "31" ++ [28%N] ++ u ".12.30", None)
  /\ parse_dmy (u "٣١.١٢.٣٠") = Some (31, 12, 30)
  /\ offer_of_text Samples.today (u "٣١.١٢.٣٠")
     = inr (u "٣١.١٢.٣٠",
            Some (fdiv (float_of_Z 2496) (float_of_Z 365))).
Proof. vm_compute. repeat split; reflexivity. Qed.

(** C2 as stated fails: the offer text [soon] does not read as a date and
    the record keeps it, where the claim has [N/A]. *)
Lemma offer_text_kept_when_unparseable :
  locate OfferPages.page_offers
  = inr (OfferPages.table_offers, Pages.columns_rows)
  /\ data_rows OfferPages.table_offers
     = [OfferPages.past_row; OfferPages.dash_row; OfferPages.soon_row]
  /\ parse_dmy (u "soon") = None
  /\ exists b1 b2 b3,
       extract OfferPages.page_offers Samples.today = inr [b1; b2; b3]
       /\ Offer_Date b1 = NA /\ Offer_Date b2 = NA
       /\ Offer_Date b3 = u "soon" /\ Offer_Date b3 <> NA
       /\ Years_to_Offer b3 = None.
Proof.
  split; [vm_compute; reflexivity|]. split; [vm_compute; reflexivity|].
  split; [reflexivity|]. eexists. eexists. eexists.
  split; [vm_compute; reflexivity|].
  repeat split. discriminate.
Qed.

(** *** A decimal never rounds to NaN *)

Lemma shr_1_nonneg mrs : 0 <= shr_m mrs -> 0 <= shr_m (shr_1 mrs).
Proof.
  destruct mrs as [m r s]. simpl.
  destruct m as [|[p|p|]|[p|p|]]; simpl; lia.
Qed.

Lemma iter_pos_shr_1_nonneg p : forall mrs,
  0 <= shr_m mrs -> 0 <= shr_m (SpecFloat.iter_pos shr_1 p mrs).
Proof.
  induction p as [p IH|p IH|]; intros mrs H; simpl.
  - apply IH, IH, shr_1_nonneg, H.
  - apply IH, IH, H.
  - apply shr_1_nonneg, H.
Qed.

Lemma shr_fexp_nonneg m e l :
  0 <= m -> 0 <= shr_m (fst (shr_fexp prec emax m e l)).
Proof.
  intros H. unfold shr_fexp, shr.
  assert (H0 : 0 <= shr_m (shr_record_of_loc m l))
    by (destruct l as [|[| |]]; exact H).
  destruct (fexp prec emax (Zdigits2 m + e) - e); simpl; auto.
  apply iter_pos_shr_1_nonneg, H0.
Qed.

Lemma round_nearest_even_nonneg m l : 0 <= m -> 0 <= round_nearest_even m l.
Proof.
  intros H. destruct l as [|[| |]]; simpl; try lia.
  destruct (Z.even m); lia.
Qed.

Lemma binary_round_aux_not_nan s m e l :
  0 <= m -> is_nan (binary_round_aux prec emax s m e l) = false.
Proof.
  intros H. unfold binary_round_aux.
  pose proof (shr_fexp_nonneg m e l H) as H1.
  destruct (shr_fexp prec emax m e l) as [mrs' e'].
  simpl in H1.
  pose proof (shr_fexp_nonneg
                (round_nearest_even (shr_m mrs') (loc_of_shr_record mrs'))
                e' loc_Exact (round_nearest_even_nonneg _ _ H1)) as H2.
  destruct (shr_fexp prec emax _ e' loc_Exact) as [mrs'' e''].
  simpl in H2. destruct (shr_m mrs'') as [|p|p]; [reflexivity| |lia].
  destruct (e'' <=? emax - prec); reflexivity.
Qed.

Lemma float_of_decimal_not_nan neg m e :
  is_nan (float_of_decimal neg m e) = false.
Proof.
  unfold float_of_decimal. destruct m as [|p]; [reflexivity|].
  destruct (Z.leb_spec 0 e) as [He|He].
  - unfold binary_round. destruct (shl_align _ _ _) as [mz ez].
    apply binary_round_aux_not_nan. lia.
  - destruct (SFdiv_core_binary prec emax (Z.pos p) 0 (10 ^ (- e)) 0)
      as [[q e'] l] eqn:E.
    apply binary_round_aux_not_nan.
    unfold SFdiv_core_binary in E.
    set (m' := match _ - _ - _ with
               | Zpos _ => _
               | _ => _
               end) in E.
    assert (Hm' : 0 <= m').
    { subst m'. destruct (_ - _ - _); try lia. apply Z.shiftl_nonneg. lia. }
    destruct (Z.div_eucl m' (10 ^ (- e))) as [q0 r0] eqn:Ed.
    injection E as <- _ _.
    assert (Hq : q0 = m' / 10 ^ (- e)).
    { unfold Z.div. rewrite Ed. reflexivity. }
    rewrite Hq. apply Z.div_pos; [exact Hm'|].
    apply Z.pow_pos_nonneg; lia.
Qed.

Lemma float_of_str_nan text :
  (exists f, float_of_str text = Some f /\ is_nan f = true)
  <-> spells (u "nan") text = true.
Proof.
  unfold float_of_str, spells.
  destruct (sign_opt (c_strip (to_ascii text))) as [neg s1]. simpl.
  destruct (pystr_eqb (map lower s1) (u "inf")) eqn:E1.
  { split.
    - intros (f & [= <-] & Hn). discriminate Hn.
    - intros H. apply pystr_eqb_eq in H, E1. rewrite H in E1. discriminate. }
  destruct (pystr_eqb (map lower s1) (u "infinity")) eqn:E2.
  { split.
    - intros (f & [= <-] & Hn). discriminate Hn.
    - intros H. apply pystr_eqb_eq in H, E2. rewrite H in E2. discriminate. }
  simpl. destruct (pystr_eqb (map lower s1) (u "nan")) eqn:E3.
  { split; [reflexivity|]. intros _. exists S754_nan. auto. }
  split; [|discriminate].
  intros (f & Hf & Hn).
  destruct (number_part s1) as [[[ip fp] r]|]; [|discriminate].
  destruct (exponent_opt r) as [[e [|x r']]|]; try discriminate.
  injection Hf as <-. rewrite float_of_decimal_not_nan in Hn. discriminate.
Qed.

Lemma covering_row_has_yield_cell c mx i row :
  required_max c = inr mx -> ytm_idx c = Some i -> covers mx row = true ->
  exists cell, cells_of row !! i = Some cell.
Proof.
  intros Hm Hi Hc. destruct (required_max_is_max c mx Hm) as [_ Hmax].
  rewrite Hi in Hmax. unfold covers in Hc. apply Nat.ltb_lt in Hc.
  assert (Hle : (i <= mx)%nat).
  { destruct (name_idx c); simpl in Hmax.
    - apply Forall_cons_1 in Hmax as [_ Hmax].
      apply Forall_cons_1 in Hmax as [H _]. exact H.
    - apply Forall_cons_1 in Hmax as [H _]. exact H. }
  apply lookup_lt_is_Some. lia.
Qed.

(** C5, amended: [extract] makes a record only of a row that has its yield
    cell: a row that ends before the cell is skipped.  Reading the yield
    never raises: a row fails to build only through its offer date.  The
    yield of a record is the float that [float] reads from the cell without
    percent signs and with points for commas, and 0.0 when [float] rejects
    that text.  It is NaN exactly when the text spells [nan], and it is not
    finite only as the value [float] read. *)
Theorem yield_is_what_float_reads html today table c bonds :
  locate html = inr (table, c) ->
  extract html today = inr bonds ->
  exists i,
    ytm_idx c = Some i
    /\ (forall row acc,
          In row (data_rows table) -> cells_of row !! i = None ->
          process_row today c acc row = inr acc)
    /\ (forall row e,
          build_bond today c (cells_of row) = inl e ->
          parse_offer today (cells_of row) (offer_date_idx c) = inl e)
    /\ Forall (fun b =>
                 exists row cell,
                   In row (data_rows table)
                   /\ cells_of row !! i = Some cell
                   /\ build_bond today c (cells_of row) = inr b
                   /\ (forall f, float_of_str (cleaned_yield cell) = Some f ->
                                 Yield_to_Maturity b = f)
                   /\ (float_of_str (cleaned_yield cell) = None ->
                       Yield_to_Maturity b = fzero)
                   /\ (is_nan (Yield_to_Maturity b) = true
                       <-> spells (u "nan") (cleaned_yield cell) = true)
                   /\ (is_finite (Yield_to_Maturity b) = false ->
                       float_of_str (cleaned_yield cell)
                       = Some (Yield_to_Maturity b)))
              bonds.
Proof.
  intros Hl He.
  assert (Hy : exists i, ytm_idx c = Some i).
  { unfold locate in Hl.
    destruct (Re.findall table_pattern html) as [|t ts]; [discriminate|].
    destruct (select_table (t :: ts)) as [tb|]; [|discriminate].
    destruct (Re.search row_pattern tb) as [groups|]; [|discriminate].
    destruct (ytm_idx (resolve_columns _)) as [i|] eqn:Hi; [|discriminate].
    injection Hl as _ <-. exists i. exact Hi. }
  destruct Hy as [i Hi]. exists i. split; [exact Hi|].
  unfold extract in He. rewrite Hl in He.
  destruct (process_rows today c [] (data_rows table)) as [e|out] eqn:Hp;
    [discriminate|].
  injection He as <-.
  destruct (required_max c) as [e|mx] eqn:Hm.
  { destruct (data_rows table) as [|row rows]; simpl in Hp.
    - injection Hp as <-. split; [intros row acc []|].
      split; [intros row e'; apply build_bond_fails|constructor].
    - unfold process_row in Hp. rewrite Hm in Hp. discriminate. }
  split; [|split; [intros row e; apply build_bond_fails|]].
  - intros row acc _ Hnone. apply (process_row_skip _ _ mx); [exact Hm|].
    destruct (covers mx row) eqn:Hc; [|reflexivity].
    destruct (covering_row_has_yield_cell _ _ _ _ Hm Hi Hc) as [cell Hcell].
    congruence.
  - destruct (process_rows_inv _ _ _ _ _ _ Hm Hp) as (bs & -> & HF).
    simpl.
    assert (Hsub : forall row, In row (List.filter (covers mx) (data_rows table)) ->
                               In row (data_rows table) /\ covers mx row = true)
      by (intros row; apply List.filter_In).
    revert HF Hsub. generalize (List.filter (covers mx) (data_rows table)).
    intros kept HF Hsub.
    clear Hp. revert Hsub.
    induction HF as [|row b kept' bs' Hb _ IH]; intros Hsub; constructor.
    + destruct (Hsub row (or_introl eq_refl)) as [Hrow Hc].
      destruct (covering_row_has_yield_cell _ _ _ _ Hm Hi Hc) as [cell Hcell].
      exists row, cell. split; [exact Hrow|]. split; [exact Hcell|].
      split; [exact Hb|].
      apply build_bond_fields in Hb. destruct Hb as (_ & Hyld & _).
      unfold cell_at in Hyld. rewrite Hi, Hcell in Hyld.
      unfold parse_ytm in Hyld. fold (cleaned_yield cell) in Hyld.
      rewrite <- float_of_str_nan.
      destruct (float_of_str (cleaned_yield cell)) as [f|] eqn:Ef.
      * repeat split.
        -- intros f' [= <-]. exact Hyld.
        -- discriminate.
        -- intros Hn. exists f. rewrite <- Hyld. auto.
        -- intros (f' & [= <-] & Hn). rewrite Hyld. exact Hn.
        -- intros _. rewrite Hyld. reflexivity.
      * repeat split.
        -- discriminate.
        -- intros _. exact Hyld.
        -- rewrite Hyld. discriminate.
        -- intros (f' & Hf & _). discriminate Hf.
        -- rewrite Hyld. discriminate.
    + apply IH. intros r Hr. apply Hsub. right. exact Hr.
Qed.

Lemma page_yield_last_located :
  locate YieldPages.page_yield_last
  = inr (YieldPages.table_yield_last, YieldPages.columns_yield_last).
Proof. vm_compute. reflexivity. Qed.

Lemma page_yield_last_data :
  data_rows YieldPages.table_yield_last
  = [YieldPages.row_full; YieldPages.row_short].
Proof. vm_compute. reflexivity. Qed.

(** The yield is the third column.  The row of three cells gives a record
    with the yield 8.75, read from [8,75%]; the row of two cells, which has
    no yield cell, is skipped. *)
Lemma yield_is_what_float_reads_witness :
  exists b,
    extract YieldPages.page_yield_last Samples.today = inr [b]
    /\ cleaned_yield (u "8,75%") = u "8.75"
    /\ Yield_to_Maturity b = Samples.f8_75
    /\ forall acc,
         process_row Samples.today YieldPages.columns_yield_last acc
           YieldPages.row_short = inr acc.
Proof.
  eexists.
  assert (He : extract YieldPages.page_yield_last Samples.today = inr [_])
    by (vm_compute; reflexivity).
  destruct (yield_is_what_float_reads _ _ _ _ _ page_yield_last_located He)
    as (i & Hi & Hskip & _ & HF).
  injection Hi as <-.
  split; [exact He|]. split; [vm_compute; reflexivity|]. split.
  - apply Forall_cons_1 in HF as [(row & cell & Hrow & Hcell & Hb & H1 & _) _].
    rewrite page_yield_last_data in Hrow.
    destruct Hrow as [<-|[<-|[]]].
    + vm_compute in Hcell. injection Hcell as <-.
      apply H1. vm_compute. reflexivity.
    + vm_compute in Hcell. discriminate Hcell.
  - intros acc. apply Hskip.
    + rewrite page_yield_last_data. right. left. reflexivity.
    + vm_compute. reflexivity.
Defined.

(** C5 as stated fails: the yield text [nan] is a float to Python, and the
    record carries NaN, which is not a finite number. *)
Lemma extract_yields_nan :
  exists b1 b2,
    extract Samples.page_nan Samples.today = inr [b1; b2]
    /\ Yield_to_Maturity b1 = S754_nan
    /\ is_finite (Yield_to_Maturity b1) = false.
Proof.
  eexists. eexists. split; [vm_compute; reflexivity|]. split; reflexivity.
Qed.

(** * Further properties of the code *)

(** ** Choosing the table and the columns *)

(** X1: the table chosen is the first one whose text holds both markers:
    every table before it lacks one of them; no table is chosen exactly when
    none holds both. *)
Theorem select_table_is_first tables :
  (forall t, select_table tables = Some t <->
     exists before after,
       tables = before ++ t :: after /\ qualifies t = true
       /\ Forall (fun t' => qualifies t' = false) before)
  /\ (select_table tables = None <->
      Forall (fun t' => qualifies t' = false) tables).
Proof.
  unfold select_table. fold qualifies.
  change (fun t => contains ytm_marker t && contains rating_marker t)
    with qualifies.
  induction tables as [|x tables [IH1 IH2]]; simpl.
  - split.
    + intros t. split; [discriminate|].
      intros (before & after & H & _). destruct before; discriminate.
    + split; auto.
  - destruct (qualifies x) eqn:Hx.
    + split.
      * intros t. split.
        -- intros [= <-]. exists [], tables. auto.
        -- intros (before & after & H & Hq & Hb).
           destruct before as [|y before]; simpl in H.
           ++ congruence.
           ++ injection H as <- _. apply Forall_inv in Hb. congruence.
      * split; [discriminate|]. intros H. apply Forall_inv in H. congruence.
    + split.
      * intros t. rewrite IH1. split.
        -- intros (before & after & -> & Hq & Hb).
           exists (x :: before), after. auto.
        -- intros (before & after & H & Hq & Hb).
           destruct before as [|y before]; simpl in H.
           ++ injection H as -> _. congruence.
           ++ injection H as <- ->. apply Forall_cons_1 in Hb as [_ Hb].
              exists before, after. auto.
      * rewrite IH2. split.
        -- intros H. constructor; assumption.
        -- intros H. apply Forall_cons_1 in H as [_ H]. exact H.
Qed.

Lemma find_index_from_spec marker headers : forall start i,
  find_index_from start marker headers = Some i <->
  exists k h, i = (start + k)%nat /\ headers !! k = Some h
              /\ contains marker h = true
              /\ forall j h', (j < k)%nat -> headers !! j = Some h' ->
                              contains marker h' = false.
Proof.
  induction headers as [|x headers IH]; intros start i; simpl.
  - split; [discriminate|]. intros (k & h & _ & H & _). discriminate H.
  - destruct (contains marker x) eqn:Hx.
    + split.
      * intros [= <-]. exists O, x.
        split; [lia|]. split; [reflexivity|]. split; [exact Hx|].
        intros j h' Hj. lia.
      * intros (k & h & -> & Hk & Hc & Hmin).
        destruct k as [|k]; [f_equal; lia|].
        specialize (Hmin O x (Nat.lt_0_succ k) eq_refl). congruence.
    + rewrite IH. split.
      * intros (k & h & -> & Hk & Hc & Hmin).
        exists (S k), h.
        split; [lia|]. split; [exact Hk|]. split; [exact Hc|].
        intros [|j] h' Hj Hh'; simpl in Hh'; [congruence|].
        apply (Hmin j h'); [lia|exact Hh'].
      * intros (k & h & -> & Hk & Hc & Hmin).
        destruct k as [|k]; simpl in Hk; [congruence|].
        exists k, h.
        split; [lia|]. split; [exact Hk|]. split; [exact Hc|].
        intros j h' Hj Hh'. apply (Hmin (S j) h'); [lia|exact Hh'].
Qed.

(** X2: a column index is the position of the first header that holds the
    marker, so it lies within the header row; the index is undefined exactly
    when no header holds the marker. *)
Theorem find_index_is_first marker headers :
  (forall i, find_index marker headers = Some i <->
     exists h, headers !! i = Some h /\ contains marker h = true
               /\ forall j h', (j < i)%nat -> headers !! j = Some h' ->
                               contains marker h' = false)
  /\ (find_index marker headers = None <->
      Forall (fun h => contains marker h = false) headers).
Proof.
  split.
  - intros i. unfold find_index. rewrite find_index_from_spec. split.
    + intros (k & h & -> & H). exists h. exact H.
    + intros (h & H). exists i, h. auto.
  - unfold find_index. generalize O.
    induction headers as [|x headers IH]; intros start; simpl.
    + split; auto.
    + destruct (contains marker x) eqn:Hx.
      * split; [discriminate|]. intros H. apply Forall_inv in H. congruence.
      * rewrite IH. split.
        -- intros H. constructor; assumption.
        -- intros H. apply Forall_cons_1 in H as [_ H]. exact H.
Qed.

(** ** Sizes and edge cases of the extraction *)

(** X3: a table that has only its header row gives the empty list, not a
    failure, whatever its columns are and whatever count is asked. *)
Theorem header_only_table_gives_empty_list html today table c count :
  locate html = inr (table, c) -> data_rows table = [] ->
  extract html today = inr []
  /\ get_top_yield_bonds html today count = inr [].
Proof.
  intros Hl Hr.
  assert (He : extract html today = inr []).
  { unfold extract. rewrite Hl, Hr. reflexivity. }
  split; [exact He|].
  unfold get_top_yield_bonds. rewrite He. unfold rank, slice_to. simpl.
  destruct (0 <=? count); rewrite take_nil; reflexivity.
Qed.

Lemma header_only_table_gives_empty_list_witness :
  locate EdgePages.page_header_only
  = inr (EdgePages.table_header_only, EdgePages.columns_header_only)
  /\ required_max EdgePages.columns_header_only = inl ValueError
  /\ get_top_yield_bonds EdgePages.page_header_only Samples.today 5 = inr [].
Proof.
  assert (Hl : locate EdgePages.page_header_only
               = inr (EdgePages.table_header_only,
                      EdgePages.columns_header_only))
    by (vm_compute; reflexivity).
  assert (Hr : data_rows EdgePages.table_header_only = [])
    by (vm_compute; reflexivity).
  split; [exact Hl|]. split; [reflexivity|].
  apply (header_only_table_gives_empty_list _ Samples.today _ _ 5 Hl Hr).
Defined.

Lemma process_rows_length today c rows : forall acc out,
  process_rows today c acc rows = inr out ->
  (length out <= length acc + length rows)%nat.
Proof.
  induction rows as [|row rows IH]; intros acc out H; simpl in H.
  - injection H as <-. simpl. lia.
  - destruct (process_row today c acc row) as [e|acc'] eqn:Hp; [discriminate|].
    apply IH in H. simpl.
    assert ((length acc' <= S (length acc))%nat); [|lia].
    unfold process_row in Hp. destruct (required_max c); [discriminate|].
    destruct (length (cells_of row) <=? n)%nat.
    + injection Hp as <-. lia.
    + destruct (build_bond today c (cells_of row)); [discriminate|].
      injection Hp as <-. rewrite length_app. simpl. lia.
Qed.

(** X4: a successful call returns no more records than the table has data
    rows, and for a count that is not negative no more than the count. *)
Theorem result_size_bounds html today count bonds :
  get_top_yield_bonds html today count = inr bonds ->
  exists table c,
    locate html = inr (table, c)
    /\ (length bonds <= length (data_rows table))%nat
    /\ (0 <= count -> Z.of_nat (length bonds) <= count).
Proof.
  unfold get_top_yield_bonds, extract.
  destruct (locate html) as [f|[table c]]; [discriminate|].
  destruct (process_rows today c [] (data_rows table)) as [e|out] eqn:Hp;
    [discriminate|].
  intros [= <-]. exists table, c. split; [reflexivity|].
  apply process_rows_length in Hp. simpl in Hp.
  assert (Hlen : length (sorted Yield_to_Maturity true out) = length out)
    by apply Permutation_length, sorted_perm.
  unfold rank, slice_to. split.
  - destruct (0 <=? count); rewrite length_take; lia.
  - intros Hc. destruct (Z.leb_spec 0 count); [|lia].
    rewrite length_take. lia.
Qed.

Lemma result_size_bounds_witness :
  exists bonds,
    get_top_yield_bonds Pages.page_rows Samples.today 1 = inr bonds
    /\ length (data_rows Pages.table_rows) = 3%nat
    /\ length bonds = 1%nat.
Proof.
  destruct (get_top_yield_bonds Pages.page_rows Samples.today 1)
    as [f|bonds] eqn:E; [vm_compute in E; discriminate E|].
  exists bonds. split; [reflexivity|].
  destruct (result_size_bounds _ _ _ _ E) as (table & c & Hl & H1 & H2).
  split; [rewrite page_rows_data; reflexivity|].
  vm_compute in E. injection E as <-. reflexivity.
Defined.

(** X5: ranking never invents, repeats or alters a record: for every count,
    negative ones and NaN yields included, the result together with some
    left-over records is a rearrangement of the input. *)
Theorem rank_rearranges records count :
  exists rest, Permutation (rank records count ++ rest) records.
Proof.
  unfold rank, slice_to.
  destruct (0 <=? count);
    match goal with
    | |- context [take ?n ?l] => exists (drop n l)
    end; rewrite take_drop; apply sorted_perm.
Qed.

(** X6: without a name column every record has the ISIN [N/A] and the empty
    name; without a maturity column every record has the maturity [N/A]. *)
Theorem absent_name_and_maturity html today c cells b :
  emitted html today c cells b ->
  (name_idx c = None -> ISIN b = NA /\ Name b = [])
  /\ (maturity_idx c = None -> Maturity b = NA).
Proof.
  intros He. apply emitted_built, build_bond_fields in He.
  destruct He as (Hn & _ & _ & Hm & _). split.
  - intros Hi. rewrite Hi in Hn. simpl in Hn.
    change (parse_name []) with (NA, @nil char) in Hn.
    injection Hn as -> ->. auto.
  - intros Hi. rewrite Hm, Hi. reflexivity.
Qed.

Lemma page_no_name_emitted :
  exists b,
    emitted EdgePages.page_no_name Samples.today EdgePages.columns_no_name
      (cells_of EdgePages.row_no_name) b.
Proof.
  eexists.
  eapply (emitted_intro _ _ EdgePages.table_no_name _ EdgePages.row_no_name).
  - vm_compute. reflexivity.
  - vm_compute. reflexivity.
  - vm_compute. left. reflexivity.
  - vm_compute. reflexivity.
  - left. reflexivity.
Defined.

Lemma absent_name_and_maturity_witness :
  exists b,
    emitted EdgePages.page_no_name Samples.today EdgePages.columns_no_name
      (cells_of EdgePages.row_no_name) b
    /\ ISIN b = NA /\ Name b = [] /\ Maturity b = NA /\ Rating b = u "AA".
Proof.
  destruct page_no_name_emitted as [b Hb]. exists b.
  destruct (absent_name_and_maturity _ _ _ _ _ Hb) as [H1 H2].
  destruct (H1 eq_refl) as [Hi Hn].
  split; [exact Hb|]. split; [exact Hi|]. split; [exact Hn|].
  split; [exact (H2 eq_refl)|].
  apply emitted_built, build_bond_fields in Hb.
  destruct Hb as (_ & _ & Hr & _). rewrite Hr. vm_compute. reflexivity.
Defined.

(** ** What the cache returns and holds *)

Section CacheResults.

Import TelegramBondsBot Outcome CacheRuns.

Lemma slice_to_pos_nonempty {A} (l : list A) (n : Z) :
  1 <= n -> l <> [] ->
  slice_to l n <> [] /\ Z.of_nat (length (slice_to l n)) <= n.
Proof.
  intros Hn Hl. rewrite slice_to_nonneg by lia. split.
  - destruct l as [|x l]; [contradiction|].
    destruct (Z.to_nat n) eqn:E; [lia|]. discriminate.
  - rewrite length_take. lia.
Qed.

(** X7: for a count of at least one, a list that [get_bonds_data] returns
    is never empty and never longer than the count, and it is the start of
    the list the cache holds after the call. *)
Theorem get_bonds_data_result_shape fetch now count st l :
  1 <= count ->
  result_of (get_bonds_data fetch now count st) = Some l ->
  l <> [] /\ Z.of_nat (length l) <= count
  /\ exists data,
       last_bonds_data (state_of (get_bonds_data fetch now count st))
       = Some data
       /\ l = take (Z.to_nat count) data.
Proof.
  intros Hc. unfold get_bonds_data.
  destruct (cached st now count) as [data|] eqn:E.
  - unfold result_of, state_of. simpl. intros [= <-].
    apply cached_usable in E. destruct E as (Hd & Hne & _).
    destruct (slice_to_pos_nonempty data count Hc Hne) as [H1 H2].
    split; [exact H1|]. split; [exact H2|].
    exists data. split; [exact Hd|]. apply slice_to_nonneg. lia.
  - destruct (fetch (fetch_count count)) as [[|b bs]|];
      unfold result_of, state_of; simpl; try discriminate.
    intros [= <-].
    destruct (slice_to_pos_nonempty (b :: bs) count Hc) as [H1 H2];
      [discriminate|].
    split; [exact H1|]. split; [exact H2|].
    exists (b :: bs). split; [reflexivity|]. apply slice_to_nonneg. lia.
Qed.

Lemma get_bonds_data_result_shape_witness :
  1 <= 3
  /\ result_of (get_bonds_data CacheSamples.fetch_five CacheSamples.t0 3
                  initial)
     = Some CacheSamples.three_records
  /\ last_bonds_data (state_of (get_bonds_data CacheSamples.fetch_five
                                  CacheSamples.t0 3 initial))
     = Some CacheSamples.five_records.
Proof.
  assert (H1 : 1 <= 3) by lia.
  assert (Hr : result_of (get_bonds_data CacheSamples.fetch_five
                            CacheSamples.t0 3 initial)
               = Some CacheSamples.three_records) by reflexivity.
  destruct (get_bonds_data_result_shape _ _ _ _ _ H1 Hr)
    as (_ & _ & data & Hd & _).
  split; [exact H1|]. split; [exact Hr|]. reflexivity.
Defined.

Lemma fetch_page_length html today n bonds :
  5 <= n <= 20 -> fetch_page html today n = Some bonds ->
  (length bonds <= 20)%nat.
Proof.
  intros Hn. unfold fetch_page, get_top_yield_bonds.
  destruct (extract html today) as [f|out]; [discriminate|].
  intros [= <-]. unfold rank. rewrite slice_to_nonneg by lia.
  rewrite length_take. lia.
Qed.

Lemma step_consistent st cl : consistent st -> consistent (step st cl).
Proof.
  intros Hst. unfold step, get_bonds_data.
  destruct (cached st (call_time cl) (call_count cl)) as [data|];
    [exact Hst|].
  destruct (fetch_page _ _ _) as [[|b bs]|] eqn:Ef;
    unfold state_of; simpl; try exact Hst.
  right. exists (call_time cl), (b :: bs). split; [reflexivity|].
  split; [reflexivity|].
  apply fetch_page_length in Ef; [simpl in *; lia|].
  unfold fetch_count. lia.
Qed.

(** X8: whatever pages the site serves and whatever counts are asked, after
    any series of calls the two globals of the cache are either both unset or
    both set, and a list held has between one and twenty records. *)
Theorem cache_stays_consistent calls :
  consistent (run calls initial).
Proof.
  unfold run. assert (H : consistent initial) by (left; auto).
  revert H. generalize initial.
  induction calls as [|cl calls IH]; intros st Hst; simpl; [exact Hst|].
  apply IH, step_consistent, Hst.
Qed.

End CacheResults.

(** ** The lines of the plain table *)

Section TableLines.

Import Table.

Lemma length_join_pointwise (l1 l2 : list pystr) :
  Forall2 (fun a b => length a = length b) l1 l2 ->
  length (join sep l1) = length (join sep l2).
Proof.
  induction 1 as [|a b l1 l2 Hab HF IH]; [reflexivity|].
  destruct HF as [|a' b' l1' l2' Hab' HF'].
  - simpl. exact Hab.
  - change (join sep (a :: a' :: l1')) with (a ++ sep ++ join sep (a' :: l1')).
    change (join sep (b :: b' :: l2')) with (b ++ sep ++ join sep (b' :: l2')).
    rewrite !length_app, Hab, IH. reflexivity.
Qed.

Lemma cells_same_length (w : gmap string nat) item cols :
  Forall (fun col => (length (u col) <= w !!! col)%nat
                     /\ (length (shown item col) <= w !!! col)%nat) cols ->
  Forall2 (fun a b => length a = length b)
          (row_cells cols w item) (header_cells cols w).
Proof.
  unfold row_cells, header_cells.
  induction 1 as [|col cols [Hl Hs] _ IH]; simpl; constructor; auto.
  rewrite !length_ljust by assumption. reflexivity.
Qed.

Lemma row_line_length cols data item :
  Forall (fun col => (3 <= length (u col))%nat) cols -> In item data ->
  length (join sep (row_cells cols (column_widths cols data) item))
  = length (join sep (header_cells cols (column_widths cols data))).
Proof.
  intros Hlab Hitem. apply length_join_pointwise, cells_same_length.
  pose proof (table_columns_fit cols data Hlab) as Hfit.
  eapply Forall_impl; [exact Hfit|].
  intros col [Hw Hit]. split; [exact Hw|].
  rewrite Forall_forall in Hit.
  destruct (Hit item) as [Hs _]; [apply list_elem_of_In; exact Hitem|].
  exact Hs.
Qed.

Lemma table_lines_aligned cols data :
  Forall (fun col => (3 <= length (u col))%nat) cols ->
  Forall (fun line =>
            length line
            = length (join sep (header_cells cols (column_widths cols data))))
         (table_lines cols data)
  /\ length (table_lines cols data) = (2 + length data)%nat.
Proof.
  intros Hlab. unfold table_lines. split.
  - constructor; [reflexivity|]. constructor; [apply repeat_length|].
    apply Forall_forall. intros line Hline.
    apply list_elem_of_In, in_map_iff in Hline.
    destruct Hline as (item & <- & Hitem).
    apply row_line_length; assumption.
  - simpl. rewrite length_map. reflexivity.
Qed.

(** X9: the table is aligned: the header line, the rule under it and every
    data line have the same length, in [print_table] and in the scheduler's
    report, and the table has two lines more than there are records. *)
Theorem plain_table_is_aligned (data : list bond) :
  (exists n, Forall (fun line => length line = n)
               (table_lines PrintTable.columns data))
  /\ length (table_lines PrintTable.columns data) = (2 + length data)%nat
  /\ (exists n, Forall (fun line => length line = n)
                  (BondsScheduler.report_table data))
  /\ length (BondsScheduler.report_table data) = (2 + length data)%nat.
Proof.
  destruct (table_lines_aligned PrintTable.columns data) as [H1 H2];
    [repeat constructor|].
  destruct (table_lines_aligned BondsScheduler.columns data) as [H3 H4];
    [repeat constructor|].
  split; [eexists; exact H1|]. split; [exact H2|].
  split; [eexists; exact H3|exact H4].
Qed.

End TableLines.

Section TableWidthsTight.

Import Table.

Lemma widen_tight data item (w : gmap string nat) col c :
  In item data -> column_tight data w c ->
  column_tight data (widen item w col) c.
Proof.
  intros Hitem Hc. unfold widen.
  destruct (cell_text item col) as [v|] eqn:Ev; [|exact Hc].
  destruct (decide (col = c)) as [->|Hne].
  - unfold column_tight. rewrite lookup_total_insert_eq.
    destruct (Nat.max_spec (w !!! c) (length v)) as [[_ ->]|[_ ->]].
    + right. exists item, v. auto.
    + exact Hc.
  - unfold column_tight. rewrite lookup_total_insert_ne by exact Hne.
    exact Hc.
Qed.

Lemma foldl_widen_tight data item cols (w : gmap string nat) c :
  In item data -> column_tight data w c ->
  column_tight data (foldl (widen item) w cols) c.
Proof.
  intros Hitem. revert w.
  induction cols as [|col cols IH]; intros w Hc; simpl; [exact Hc|].
  apply IH, widen_tight; assumption.
Qed.

Lemma widths_tight_acc data cols items (w : gmap string nat) c :
  (forall item, In item items -> In item data) ->
  column_tight data w c ->
  column_tight data
    (foldl (fun widths item => foldl (widen item) widths cols) w items) c.
Proof.
  revert w. induction items as [|item items IH]; intros w Hsub Hc; simpl;
    [exact Hc|].
  apply IH.
  - intros it Hit. apply Hsub. right. exact Hit.
  - apply foldl_widen_tight; [apply Hsub; left; reflexivity|exact Hc].
Qed.

Lemma table_columns_tight cols data :
  Forall (column_tight data (column_widths cols data)) cols.
Proof.
  apply Forall_forall. intros col Hcol. apply list_elem_of_In in Hcol.
  unfold column_widths. apply widths_tight_acc; [auto|].
  left. apply init_widths_lookup. exact Hcol.
Qed.

(** X10: no column is wider than it needs to be: its width is the length of
    its label or the length of one of the values shown in it. *)
Theorem plain_table_widths_are_tight (data : list bond) :
  Forall (column_tight data (column_widths PrintTable.columns data))
         PrintTable.columns
  /\ Forall (column_tight data (column_widths BondsScheduler.columns data))
            BondsScheduler.columns.
Proof. split; apply table_columns_tight. Qed.

End TableWidthsTight.

(** ** The matcher reports only matches *)

Section Matcher.

Import Re ReSpec.

Lemma lit_prefix_spec p s s' : lit_prefix p s = Some s' <-> s = p ++ s'.
Proof.
  revert s. induction p as [|c p IH]; intros s; simpl.
  - split; [intros [= ->]; reflexivity|intros ->; reflexivity].
  - destruct s as [|x s]; [split; discriminate|].
    destruct (N.eqb_spec c x) as [->|Hne].
    + rewrite IH. split; [intros ->; reflexivity|intros [= ->]; reflexivity].
    + split; [discriminate|]. intros [= -> _]. contradiction.
Qed.

Lemma startswith_spec p s : startswith p s = true <-> exists b, s = p ++ b.
Proof.
  revert s. induction p as [|c p IH]; intros s; simpl.
  - split; [intros _; exists s; reflexivity|reflexivity].
  - destruct s as [|x s].
    + split; [discriminate|]. intros [b H]. discriminate H.
    + rewrite andb_true_iff, N.eqb_eq, IH. split.
      * intros [-> [b ->]]. exists b. reflexivity.
      * intros [b [= -> ->]]. split; [reflexivity|]. exists b. reflexivity.
Qed.

Lemma contains_spec p s : contains p s = true <-> part_of p s.
Proof.
  unfold part_of. induction s as [|x s IH].
  - simpl. rewrite orb_false_r, startswith_spec. split.
    + intros [b H]. exists [], b. exact H.
    + intros (pre & post & H). destruct pre as [|y pre]; [|discriminate].
      exists post. exact H.
  - cbn [contains]. rewrite orb_true_iff, IH, startswith_spec. split.
    + intros [[b H]|(pre & post & H)].
      * exists [], b. exact H.
      * exists (x :: pre), post. rewrite H. reflexivity.
    + intros (pre & post & H). destruct pre as [|y pre].
      * left. exists post. exact H.
      * right. injection H as _ H. exists pre, post. exact H.
Qed.

Lemma star_match_sound {R} test g (k : pystr -> option R) s res :
  star_match test g k s = Some res ->
  exists t s', s = t ++ s' /\ Forall (fun x => test x = true) t
               /\ k s' = Some res.
Proof.
  induction s as [|x s IH]; simpl.
  - intros H. exists [], []. auto.
  - destruct (test x) eqn:Hx.
    + assert (Hrec : star_match test g k s = Some res ->
                     exists t s', x :: s = t ++ s'
                       /\ Forall (fun y => test y = true) t
                       /\ k s' = Some res).
      { intros H. destruct (IH H) as (t & s' & -> & Ht & Hk).
        exists (x :: t), s'. repeat split; auto. }
      assert (Hnow : k (x :: s) = Some res ->
                     exists t s', x :: s = t ++ s'
                       /\ Forall (fun y => test y = true) t
                       /\ k s' = Some res).
      { intros H. exists [], (x :: s). auto. }
      destruct g; unfold orelse.
      * destruct (star_match test true k s); auto.
      * destruct (k (x :: s)); auto.
    + intros H. exists [], (x :: s). auto.
Qed.

(** The lazy repetition stops at the first place where the rest of the
    pattern matches. *)
Lemma star_match_lazy_first {R} test (k : pystr -> option R) s res :
  star_match test false k s = Some res ->
  exists t s', s = t ++ s' /\ k s' = Some res
               /\ forall t1 t2, t = t1 ++ t2 -> t2 <> [] ->
                                k (t2 ++ s') = None.
Proof.
  induction s as [|x s IH]; simpl.
  - intros H. exists [], []. repeat split; auto.
    intros t1 t2 Ht Hne. destruct t1, t2; try discriminate. contradiction.
  - assert (Hnow : k (x :: s) = Some res ->
                   exists t s', x :: s = t ++ s' /\ k s' = Some res
                     /\ forall t1 t2, t = t1 ++ t2 -> t2 <> [] ->
                                      k (t2 ++ s') = None).
    { intros H. exists [], (x :: s). repeat split; auto.
      intros t1 t2 Ht Hne. destruct t1, t2; try discriminate. contradiction. }
    destruct (test x); [|exact Hnow].
    unfold orelse. destruct (k (x :: s)) eqn:Hk; [exact Hnow|].
    intros H. destruct (IH H) as (t & s' & -> & Hk' & Hmin).
    exists (x :: t), s'. repeat split; auto.
    intros t1 t2 Ht Hne. destruct t1 as [|y t1]; simpl in Ht.
    + subst t2. exact Hk.
    + injection Ht as _ Ht. apply (Hmin t1 t2 Ht Hne).
Qed.

Lemma matches_suffix r : forall s s' caps caps',
  matches r s s' caps caps' -> exists t, s = t ++ s'.
Proof.
  induction r as [p|cl g|cl|r IH|a IHa b IHb]; intros s s' caps caps'; simpl.
  - intros [-> _]. eauto.
  - intros (t & -> & _). eauto.
  - intros (t & -> & _). eauto.
  - intros (c0 & t & _ & -> & _). eauto.
  - intros (mid & cm & Ha & Hb).
    destruct (IHa _ _ _ _ Ha) as [ta ->], (IHb _ _ _ _ Hb) as [tb ->].
    exists (ta ++ tb). rewrite app_assoc. reflexivity.
Qed.

Lemma rmatch_sound {R} r : forall s caps (k : pystr -> list pystr -> option R) res,
  rmatch r s caps k = Some res ->
  exists s' caps', matches r s s' caps caps' /\ k s' caps' = Some res.
Proof.
  induction r as [p|cl g|cl|r IH|a IHa b IHb]; intros s caps k res; simpl.
  - destruct (lit_prefix p s) as [s'|] eqn:E; [|discriminate].
    apply lit_prefix_spec in E. intros H. exists s', caps. auto.
  - intros H. apply star_match_sound in H.
    destruct H as (t & s' & -> & Ht & Hk). exists s', caps.
    split; [exists t; auto|exact Hk].
  - destruct s as [|x s]; [discriminate|].
    destruct (cclass_test cl x) eqn:Hx; [|discriminate].
    intros H. apply star_match_sound in H.
    destruct H as (t & s' & -> & Ht & Hk). exists s', caps.
    split; [|exact Hk]. exists (x :: t).
    split; [reflexivity|]. split; [discriminate|]. split; auto.
  - intros H. apply IH in H. destruct H as (s' & c0 & Hm & Hk).
    destruct (matches_suffix _ _ _ _ _ Hm) as [t Ht].
    exists s', (c0 ++ [t]). split.
    + exists c0, t. auto.
    + subst s. rewrite length_app, Nat.add_sub, take_app_length in Hk.
      exact Hk.
  - intros H. apply IHa in H. destruct H as (mid & cm & Ha & H).
    apply IHb in H. destruct H as (s' & caps' & Hb & Hk).
    exists s', caps'. split; [exists mid, cm; auto|exact Hk].
Qed.

Lemma match_at_sound r s rest caps :
  match_at r s = Some (rest, caps) -> matches r s rest [] caps.
Proof.
  unfold match_at. intros H. apply rmatch_sound in H.
  destruct H as (s' & caps' & Hm & [= <- <-]). exact Hm.
Qed.

Lemma search_sound r s caps :
  search r s = Some caps ->
  exists pre s0 rest, s = pre ++ s0 /\ match_at r s0 = Some (rest, caps).
Proof.
  induction s as [|x s IH]; simpl.
  - destruct (match_at r []) as [[rest c]|] eqn:E; [|discriminate].
    intros [= <-]. exists [], [], rest. auto.
  - destruct (match_at r (x :: s)) as [[rest c]|] eqn:E.
    + intros [= <-]. exists [], (x :: s), rest. auto.
    + intros H. destruct (IH H) as (pre & s0 & rest & -> & Hm).
      exists (x :: pre), s0, rest. auto.
Qed.

Lemma finditer_sound r fuel : forall s caps,
  In caps (finditer fuel r s) ->
  exists pre s0 rest, s = pre ++ s0 /\ match_at r s0 = Some (rest, caps).
Proof.
  induction fuel as [|fuel IH]; intros s caps; simpl; [intros []|].
  assert (Hnext : In caps match s with
                          | [] => []
                          | _ :: t => finditer fuel r t
                          end ->
                  exists pre s0 rest,
                    s = pre ++ s0 /\ match_at r s0 = Some (rest, caps)).
  { destruct s as [|x t]; [intros []|]. intros H.
    destruct (IH _ _ H) as (pre & s0 & rest & -> & Hm).
    exists (x :: pre), s0, rest. auto. }
  destruct (match_at r s) as [[s' c]|] eqn:E; [|exact Hnext].
  intros [<-|H].
  - exists [], s, s'. auto.
  - destruct (length s' <? length s)%nat; [|exact (Hnext H)].
    destruct (IH _ _ H) as (pre & s0 & rest & -> & Hm).
    apply match_at_sound, matches_suffix in E. destruct E as [t ->].
    exists (t ++ pre), s0, rest. rewrite <- app_assoc. auto.
Qed.

Lemma block_match_generic (op cl : pystr) s rest caps :
  cl <> [] ->
  match_at (rseq [RLit op; RStar (CNot (chr ">")) true; RLit (u ">");
                  RGroup (RStar CAny false); RLit cl]) s
  = Some (rest, caps) ->
  exists attrs g,
    s = op ++ attrs ++ u ">" ++ g ++ cl ++ rest
    /\ caps = [g]
    /\ Forall (fun x => x <> chr ">") attrs
    /\ contains cl g = false.
Proof.
  intros Hcl. unfold match_at. cbn [rseq rmatch].
  destruct (lit_prefix op s) as [s1|] eqn:E1; [|discriminate].
  apply lit_prefix_spec in E1. intros H.
  apply star_match_sound in H. destruct H as (attrs & s2 & -> & Hattrs & H).
  destruct (lit_prefix (u ">") s2) as [s3|] eqn:E3; [|discriminate].
  apply lit_prefix_spec in E3.
  apply star_match_lazy_first in H.
  destruct H as (g & s4 & -> & H & Hmin).
  destruct (lit_prefix cl s4) as [s5|] eqn:E5; [|discriminate].
  apply lit_prefix_spec in E5. injection H as <- <-.
  exists attrs, g. subst s s2 s4. split; [reflexivity|]. split.
  - rewrite length_app, Nat.add_sub, take_app_length. reflexivity.
  - split.
    + eapply Forall_impl; [exact Hattrs|]. intros x Hx. simpl in Hx.
      apply negb_true_iff, N.eqb_neq in Hx. exact Hx.
    + destruct (contains cl g) eqn:Hc; [|reflexivity].
      apply contains_spec in Hc. destruct Hc as (pre & post & ->).
      assert (Hne : cl ++ post <> []) by (destruct cl; [contradiction|discriminate]).
      specialize (Hmin pre (cl ++ post) eq_refl Hne). cbv beta in Hmin.
      assert (Hp : lit_prefix cl ((cl ++ post) ++ cl ++ s5)
                   = Some (post ++ cl ++ s5)).
      { apply lit_prefix_spec. rewrite <- app_assoc. reflexivity. }
      rewrite Hp in Hmin. discriminate Hmin.
Qed.

(** A match of [<tag[^>]*>(.*?)</tag>]: the group is the text between the
    end of the opening tag and the first closing tag after it. *)
Lemma block_match_spec tag s rest caps :
  match_at (block_pattern tag) s = Some (rest, caps) ->
  exists attrs g,
    s = (u "<" ++ u tag) ++ attrs ++ u ">" ++ g
        ++ (u "</" ++ u tag ++ u ">") ++ rest
    /\ caps = [g]
    /\ Forall (fun x => x <> chr ">") attrs
    /\ contains (u "</" ++ u tag ++ u ">") g = false.
Proof.
  apply block_match_generic. discriminate.
Qed.

Lemma findall_block_spec tag s g :
  In g (findall (block_pattern tag) s) ->
  part_of g s /\ contains (u "</" ++ u tag ++ u ">") g = false.
Proof.
  unfold findall. intros H. apply in_map_iff in H.
  destruct H as (caps & <- & H). apply finditer_sound in H.
  destruct H as (pre & s0 & rest & -> & Hm).
  apply block_match_spec in Hm.
  destruct Hm as (attrs & g & -> & -> & _ & Hc). simpl. split; [|exact Hc].
  exists (pre ++ (u "<" ++ u tag) ++ attrs ++ u ">"),
         ((u "</" ++ u tag ++ u ">") ++ rest).
  rewrite <- !app_assoc. reflexivity.
Qed.

End Matcher.

(** ** What the patterns of the extractor capture *)

Section Captures.

Import Re ReSpec.

Lemma part_of_trans a b c : part_of a b -> part_of b c -> part_of a c.
Proof.
  intros (p1 & q1 & ->) (p2 & q2 & ->).
  exists (p2 ++ p1), (q1 ++ q2). rewrite <- !app_assoc. reflexivity.
Qed.

(** X11: every table found is a contiguous part of the page and holds no
    closing table tag; likewise every data row within its table and every
    cell within its row. *)
Theorem blocks_are_parts_without_closing_tag html table row :
  Forall (fun t => part_of t html /\ contains (u "</table>") t = false)
         (findall table_pattern html)
  /\ Forall (fun r => part_of r table /\ contains (u "</tr>") r = false)
            (data_rows table)
  /\ Forall (fun c => part_of c row /\ contains (u "</td>") c = false)
            (cells_of row).
Proof.
  split; [|split]; apply Forall_forall; intros x Hx;
    apply list_elem_of_In in Hx.
  - apply (findall_block_spec "table"). exact Hx.
  - apply (findall_block_spec "tr"). unfold data_rows in Hx.
    change (In x (findall row_pattern table)).
    rewrite <- (take_drop 1 (findall row_pattern table)).
    apply in_or_app. right. exact Hx.
  - apply (findall_block_spec "td"). exact Hx.
Qed.

Lemma name_match_spec s rest caps :
  match_at name_pattern s = Some (rest, caps) ->
  exists g1 g2,
    caps = [g1; g2] /\ part_of g1 s /\ part_of g2 s
    /\ g1 <> [] /\ Forall (fun x => x <> chr ")") g1
    /\ g2 <> [] /\ Forall (fun x => x <> chr "<") g2.
Proof.
  intros H. apply match_at_sound in H. unfold name_pattern in H.
  cbn [rseq matches] in H.
  destruct H as (m1 & c1 & [E1 C1] & m2 & c2 & (t2 & E2 & _ & C2)
                 & m3 & c3 & (t3 & E3 & _ & _ & C3)
                 & m4 & c4 & [E4 C4]
                 & m5 & c5 & (c5' & g1 & (t5 & E5 & Hne1 & Hg1 & C5') & Heq1 & C5)
                 & m6 & c6 & [E6 C6]
                 & m7 & c7 & (t7 & E7 & _ & C7)
                 & m8 & c8 & [E8 C8]
                 & m9 & c9 & (c9' & g2 & (t9 & E9 & Hne2 & Hg2 & C9') & Heq2 & C9)
                 & [E10 C10]).
  rewrite E5 in Heq1. apply app_inv_tail in Heq1.
  rewrite E9 in Heq2. apply app_inv_tail in Heq2.
  subst t5 t9 c1 c2 c3 c4 c5' c5 c6 c7 c8 c9' c9 caps.
  subst s m1 m2 m3 m4 m5 m6 m7 m8 m9.
  exists g1, g2. split; [reflexivity|].
  assert (Hn : forall c (x : char), negb (x =? c)%N = true -> x <> c).
  { intros c x Hx. apply negb_true_iff, N.eqb_neq in Hx. exact Hx. }
  repeat split; auto.
  - exists ((u "title=" ++ [dquote]) ++ t2 ++ t3 ++ u "("),
           ((u ")" ++ [dquote]) ++ t7 ++ u ">" ++ g2 ++ u "</a>" ++ rest).
    rewrite <- !app_assoc. reflexivity.
  - exists ((u "title=" ++ [dquote]) ++ t2 ++ t3 ++ u "(" ++ g1
            ++ (u ")" ++ [dquote]) ++ t7 ++ u ">"),
           (u "</a>" ++ rest).
    rewrite <- !app_assoc. reflexivity.
  - eapply Forall_impl; [exact Hg1|]. intros x. apply Hn.
  - eapply Forall_impl; [exact Hg2|]. intros x. apply Hn.
Qed.

(** X12: when the link pattern matches the name cell of an emitted record,
    its ISIN and its name are non-empty pieces of the cell, the ISIN holds
    no closing parenthesis and the name holds no [<]. *)
Theorem linked_name_shape html today c cells b :
  emitted html today c cells b ->
  search name_pattern (cell_at cells (name_idx c) []) <> None ->
  ISIN b <> [] /\ Forall (fun x => x <> chr ")") (ISIN b)
  /\ Name b <> [] /\ Forall (fun x => x <> chr "<") (Name b)
  /\ part_of (ISIN b) (cell_at cells (name_idx c) [])
  /\ part_of (Name b) (cell_at cells (name_idx c) []).
Proof.
  intros He Hs. apply emitted_built, build_bond_fields in He.
  destruct He as (Hn & _). unfold parse_name in Hn.
  destruct (search name_pattern (cell_at cells (name_idx c) []))
    as [caps|] eqn:E; [|contradiction].
  apply search_sound in E. destruct E as (pre & s0 & rest & Hcell & Hm).
  apply name_match_spec in Hm.
  destruct Hm as (g1 & g2 & -> & P1 & P2 & N1 & F1 & N2 & F2).
  simpl in Hn. injection Hn as -> ->.
  assert (Hpart : part_of s0 (cell_at cells (name_idx c) [])).
  { exists pre, []. rewrite app_nil_r. exact Hcell. }
  repeat split; auto; eapply part_of_trans; eauto.
Qed.

End Captures.

Lemma page_link_emitted :
  exists b,
    emitted LinkPages.page_link Samples.today Samples.columns2
      (cells_of LinkPages.row_link) b.
Proof.
  eexists. eapply (emitted_intro _ _ LinkPages.table_link _ LinkPages.row_link).
  - vm_compute. reflexivity.
  - vm_compute. reflexivity.
  - vm_compute. left. reflexivity.
  - vm_compute. reflexivity.
  - left. reflexivity.
Defined.

Lemma linked_name_shape_witness :
  exists b,
    emitted LinkPages.page_link Samples.today Samples.columns2
      (cells_of LinkPages.row_link) b
    /\ ISIN b = u "RU000A1" /\ Name b = u "Foo"
    /\ Forall (fun x => x <> chr ")") (ISIN b).
Proof.
  destruct page_link_emitted as [b Hb]. exists b.
  assert (Hs : Re.search name_pattern
                 (cell_at (cells_of LinkPages.row_link)
                    (name_idx Samples.columns2) []) <> None)
    by (vm_compute; discriminate).
  destruct (linked_name_shape _ _ _ _ _ Hb Hs) as (_ & HF & _).
  split; [exact Hb|].
  pose proof (build_bond_fields _ _ _ _ (emitted_built _ _ _ _ _ Hb))
    as (Hn & _).
  change (parse_name _) with (u "RU000A1", u "Foo") in Hn.
  injection Hn as Hi Hn. auto.
Defined.

(** ** Tags, commas and percent signs *)

Section Cleaning.

Import Re ReSpec.

Lemma sub_empty_aux_sublist r fuel : forall s,
  sub_empty_aux fuel r s `sublist_of` s.
Proof.
  induction fuel as [|fuel IH]; intros s; simpl; [reflexivity|].
  destruct s as [|x t]; [reflexivity|].
  destruct (match_at r (x :: t)) as [[s' caps]|] eqn:E.
  - destruct (length s' <? length (x :: t))%nat.
    + apply match_at_sound, matches_suffix in E. destruct E as [pre E].
      rewrite E. apply sublist_inserts_l, IH.
    + apply sublist_skip, IH.
  - apply sublist_skip, IH.
Qed.

Lemma tag_pattern_needs_bracket s :
  match s with
  | x :: _ => x <> chr "<"
  | [] => True
  end ->
  match_at tag_pattern s = None.
Proof.
  unfold match_at, tag_pattern. cbn [rseq rmatch]. intros Hx.
  destruct (lit_prefix (u "<") s) as [s'|] eqn:E; [|reflexivity].
  apply lit_prefix_spec in E. subst s. contradiction Hx. reflexivity.
Qed.

Lemma sub_empty_aux_plain fuel : forall s,
  Forall (fun x => x <> chr "<") s -> sub_empty_aux fuel tag_pattern s = s.
Proof.
  induction fuel as [|fuel IH]; intros s Hs; simpl; [reflexivity|].
  destruct s as [|x t]; [reflexivity|].
  apply Forall_cons_1 in Hs as [Hx Ht].
  rewrite (tag_pattern_needs_bracket (x :: t) Hx). rewrite IH by exact Ht.
  reflexivity.
Qed.

(** X13: removing the tags only deletes characters: the result is what is
    left of the text after dropping some of its characters, in the same
    order; a text without [<] comes back unchanged. *)
Theorem strip_tags_only_deletes s :
  strip_tags s `sublist_of` s
  /\ (length (strip_tags s) <= length s)%nat
  /\ (Forall (fun x => x <> chr "<") s -> strip_tags s = s).
Proof.
  unfold strip_tags, sub_empty. split; [apply sub_empty_aux_sublist|].
  split; [apply sublist_length, sub_empty_aux_sublist|].
  apply sub_empty_aux_plain.
Qed.

Lemma replace_comma_percent_commute t :
  replace (chr "%") [] (replace (chr ",") (u ".") t)
  = replace (chr ",") (u ".") (replace (chr "%") [] t).
Proof.
  unfold replace. induction t as [|x t IH]; [reflexivity|].
  cbn [flat_map].
  destruct (N.eqb_spec x (chr ",")) as [Hc|Hc].
  - subst x. simpl. rewrite IH. reflexivity.
  - destruct (N.eqb_spec x (chr "%")) as [Hp|Hp].
    + subst x. simpl. exact IH.
    + simpl. destruct (N.eqb_spec x (chr "%")); [contradiction|].
      destruct (N.eqb_spec x (chr ",")); [contradiction|].
      simpl. rewrite IH. reflexivity.
Qed.

Lemma replace_comma_idem t :
  replace (chr ",") (u ".") (replace (chr ",") (u ".") t)
  = replace (chr ",") (u ".") t.
Proof.
  unfold replace. induction t as [|x t IH]; [reflexivity|].
  cbn [flat_map]. destruct (N.eqb_spec x (chr ",")) as [->|Hc].
  - simpl. rewrite IH. reflexivity.
  - simpl. destruct (N.eqb_spec x (chr ",")); [contradiction|].
    simpl. rewrite IH. reflexivity.
Qed.

Lemma replace_percent_idem t :
  replace (chr "%") [] (replace (chr "%") [] t) = replace (chr "%") [] t.
Proof.
  unfold replace. induction t as [|x t IH]; [reflexivity|].
  cbn [flat_map]. destruct (N.eqb_spec x (chr "%")) as [->|Hc].
  - simpl. exact IH.
  - simpl. destruct (N.eqb_spec x (chr "%")); [contradiction|].
    simpl. rewrite IH. reflexivity.
Qed.

(** X14: a yield text reads the same with decimal commas as with decimal
    points, and with or without percent signs. *)
Theorem yield_text_comma_and_percent t :
  parse_ytm (replace (chr ",") (u ".") t) = parse_ytm t
  /\ parse_ytm (replace (chr "%") [] t) = parse_ytm t.
Proof.
  unfold parse_ytm. split.
  - rewrite replace_comma_percent_commute, replace_comma_idem. reflexivity.
  - rewrite replace_percent_idem. reflexivity.
Qed.

End Cleaning.

(** ** Offer dates and the calendar *)

Section Calendar.

Lemma date_new_inv y m d dt :
  date_new y m d = inr dt ->
  dt = mkdate y m d /\ 1 <= y <= 9999 /\ 1 <= m <= 12
  /\ 1 <= d <= days_in_month y m.
Proof.
  unfold date_new. destruct (negb _); [discriminate|].
  destruct (Z.leb_spec 1 y), (Z.leb_spec y 9999), (Z.leb_spec 1 m),
    (Z.leb_spec m 12), (Z.leb_spec 1 d), (Z.leb_spec d (days_in_month y m));
    simpl; try discriminate.
  intros [= <-]. repeat split; assumption.
Qed.

Lemma month_cases m :
  1 <= m <= 12 ->
  m = 1 \/ m = 2 \/ m = 3 \/ m = 4 \/ m = 5 \/ m = 6 \/ m = 7 \/ m = 8
  \/ m = 9 \/ m = 10 \/ m = 11 \/ m = 12.
Proof. lia. Qed.

Lemma month_fits_year y m :
  1 <= m <= 12 ->
  0 <= days_before_month y m
  /\ days_before_month y m + days_in_month y m <= year_length y.
Proof.
  intros Hm. unfold year_length.
  destruct (month_cases m Hm) as [H|[H|[H|[H|[H|[H|[H|[H|[H|[H|[H|H]]]]]]]]]]];
    subst m; unfold days_before_month, days_in_month; simpl;
    destruct (is_leap y); lia.
Qed.

Lemma months_in_order y m1 m2 :
  1 <= m1 -> m1 < m2 -> m2 <= 12 ->
  days_before_month y m1 + days_in_month y m1 <= days_before_month y m2.
Proof.
  intros H1 H12 H2.
  assert (Hm1 : 1 <= m1 <= 12) by lia. assert (Hm2 : 1 <= m2 <= 12) by lia.
  destruct (month_cases m1 Hm1)
    as [H|[H|[H|[H|[H|[H|[H|[H|[H|[H|[H|H]]]]]]]]]]]; subst m1;
  destruct (month_cases m2 Hm2)
    as [H|[H|[H|[H|[H|[H|[H|[H|[H|[H|[H|H]]]]]]]]]]]; subst m2;
  try lia; unfold days_before_month, days_in_month; simpl;
  destruct (is_leap y); lia.
Qed.

Lemma year_after y :
  days_before_year (y + 1) = days_before_year y + year_length y.
Proof.
  unfold days_before_year, year_length, is_leap.
  replace (y + 1 - 1) with y by lia.
  destruct (Z.eqb_spec (y mod 4) 0), (Z.eqb_spec (y mod 100) 0),
    (Z.eqb_spec (y mod 400) 0); simpl; Z.div_mod_to_equations; lia.
Qed.

Lemma years_in_order y1 y2 :
  y1 <= y2 -> days_before_year y1 <= days_before_year y2.
Proof.
  intros H. unfold days_before_year. Z.div_mod_to_equations. lia.
Qed.

Lemma earlier_day_smaller_ordinal a b :
  valid_date a -> valid_date b -> date_lt a b -> toordinal a < toordinal b.
Proof.
  unfold valid_date, date_lt. intros Ha Hb Hlt.
  apply date_new_inv in Ha, Hb.
  destruct a as [ya ma da], b as [yb mb db]. simpl in *.
  destruct Ha as (_ & Hya & Hma & Hda), Hb as (_ & Hyb & Hmb & Hdb).
  unfold toordinal. simpl.
  pose proof (month_fits_year ya ma Hma) as [Ha0 Ha1].
  pose proof (month_fits_year yb mb Hmb) as [Hb0 Hb1].
  destruct Hlt as [Hy|[-> [Hm|[-> Hd]]]].
  - pose proof (year_after ya) as Hnext.
    pose proof (years_in_order (ya + 1) yb ltac:(lia)) as Hmono. lia.
  - pose proof (months_in_order yb ma mb ltac:(lia) Hm ltac:(lia)). lia.
  - lia.
Qed.

Lemma date_lt_total a b : date_lt a b \/ a = b \/ date_lt b a.
Proof.
  destruct a as [ya ma da], b as [yb mb db]. unfold date_lt. simpl.
  destruct (Z.lt_total ya yb) as [|[->|]]; auto.
  destruct (Z.lt_total ma mb) as [|[->|]]; auto 6.
  destruct (Z.lt_total da db) as [|[->|]]; auto 8.
Qed.

Lemma ordinal_order a b :
  valid_date a -> valid_date b -> (toordinal a < toordinal b <-> date_lt a b).
Proof.
  intros Ha Hb. split; [|apply earlier_day_smaller_ordinal; assumption].
  intros H. destruct (date_lt_total a b) as [Hl|[->|Hg]]; [exact Hl|lia|].
  pose proof (earlier_day_smaller_ordinal b a Hb Ha Hg). lia.
Qed.

End Calendar.

(** ** The years to the offer *)

Section YearsToOffer.

Lemma binary_round_aux_signed s m e l :
  0 <= m ->
  is_nan (binary_round_aux prec emax s m e l) = false
  /\ sign_bit (binary_round_aux prec emax s m e l) = s.
Proof.
  intros H. unfold binary_round_aux.
  pose proof (shr_fexp_nonneg m e l H) as H1.
  destruct (shr_fexp prec emax m e l) as [mrs' e'].
  simpl in H1.
  pose proof (shr_fexp_nonneg
                (round_nearest_even (shr_m mrs') (loc_of_shr_record mrs'))
                e' loc_Exact (round_nearest_even_nonneg _ _ H1)) as H2.
  destruct (shr_fexp prec emax _ e' loc_Exact) as [mrs'' e''].
  simpl in H2. destruct (shr_m mrs'') as [|p|p]; [auto| |lia].
  destruct (e'' <=? emax - prec); auto.
Qed.

Lemma float_of_Z_pos_signed n :
  0 < n ->
  is_nan (float_of_Z n) = false /\ sign_bit (float_of_Z n) = false.
Proof.
  intros Hn. destruct n as [|p|p]; try lia.
  unfold float_of_Z, binary_normalize, binary_round.
  destruct (shl_align _ _ _) as [mz ez].
  apply binary_round_aux_signed. lia.
Qed.

Lemma div_core_nonneg m1 e1 m2 e2 :
  0 <= m1 -> 0 < m2 ->
  0 <= fst (fst (SFdiv_core_binary prec emax m1 e1 m2 e2)).
Proof.
  intros H1 H2. unfold SFdiv_core_binary.
  set (m' := match _ - _ - _ with
             | Zpos _ => _
             | _ => _
             end).
  assert (Hm' : 0 <= m').
  { subst m'. destruct (_ - _ - _); try lia. apply Z.shiftl_nonneg. lia. }
  destruct (Z.div_eucl m' m2) as [q r] eqn:Ed. simpl.
  assert (Hq : q = m' / m2) by (unfold Z.div; rewrite Ed; reflexivity).
  rewrite Hq. apply Z.div_pos; lia.
Qed.

Lemma fdiv_by_365_signed x :
  is_nan x = false -> sign_bit x = false ->
  is_nan (fdiv x (float_of_Z 365)) = false
  /\ sign_bit (fdiv x (float_of_Z 365)) = false.
Proof.
  intros Hn Hs.
  change (float_of_Z 365) with (S754_finite false 6421147906211840 (-44)).
  destruct x as [s|s| |s m e]; simpl in Hn, Hs; try discriminate; subst s;
    unfold fdiv, SFdiv; simpl xorb; auto.
  pose proof (div_core_nonneg (Z.pos m) e 6421147906211840 (-44)
                ltac:(lia) ltac:(lia)) as Hq.
  destruct (SFdiv_core_binary prec emax (Z.pos m) e 6421147906211840 (-44))
    as [[q e'] l]. simpl in Hq.
  apply binary_round_aux_signed. exact Hq.
Qed.

Lemma offer_of_text_dated today text d m y dt :
  parse_dmy text = Some (d, m, y) ->
  date_new (if y <? 100 then y + 2000 else y) m d = inr dt ->
  offer_of_text today text
  = if 0 <? toordinal dt - toordinal today
    then inr (text, Some (fdiv (float_of_Z (toordinal dt - toordinal today))
                               (float_of_Z 365)))
    else inr (NA, None).
Proof.
  intros Hp Hd. unfold offer_of_text.
  destruct (parse_dmy_some_text _ _ _ _ Hp) as (E1 & E2 & E3).
  rewrite E1, E2, E3, Hp, Hd. reflexivity.
Qed.

Lemma offer_of_text_years today text od yrs :
  offer_of_text today text = inr (od, Some yrs) ->
  od = text
  /\ exists d m y dt,
       parse_dmy text = Some (d, m, y)
       /\ date_new (if y <? 100 then y + 2000 else y) m d = inr dt
       /\ toordinal today < toordinal dt
       /\ yrs = fdiv (float_of_Z (toordinal dt - toordinal today))
                     (float_of_Z 365).
Proof.
  unfold offer_of_text.
  destruct (negb _ && negb _ && negb _).
  - destruct (parse_dmy text) as [[[d m] y]|] eqn:Hp; [|discriminate].
    destruct (date_new _ m d) as [[|]|dt] eqn:Hd; try discriminate.
    destruct (Z.ltb_spec 0 (toordinal dt - toordinal today)); [|discriminate].
    intros [= <- <-]. split; [reflexivity|].
    exists d, m, y, dt. repeat split; auto. lia.
  - destruct (pystr_eqb text (u "-")); discriminate.
Qed.

(** X15: whenever a record carries the years to its offer, its offer date
    is the text of the offer cell, that text reads as a valid date after
    today, the years are the day difference divided by 365.0, a number that
    is neither NaN nor negative, and the record carries their text with one
    decimal as well. *)
Theorem years_to_offer_shape html today c cells b yrs :
  emitted html today c cells b ->
  Years_to_Offer b = Some yrs ->
  is_nan yrs = false /\ sign_bit yrs = false
  /\ Years_to_Offer_Str b = Some (format_f 1 yrs ++ u " years")
  /\ exists i d m y dt,
       offer_date_idx c = Some i
       /\ offer_text cells i = Some (Offer_Date b)
       /\ parse_dmy (Offer_Date b) = Some (d, m, y)
       /\ date_new (if y <? 100 then y + 2000 else y) m d = inr dt
       /\ toordinal today < toordinal dt
       /\ yrs = fdiv (float_of_Z (toordinal dt - toordinal today))
                     (float_of_Z 365).
Proof.
  intros He Hy. apply emitted_built in He.
  assert (Hstr : Years_to_Offer_Str b
                 = (fun y => format_f 1 y ++ u " years") <$> Years_to_Offer b).
  { unfold build_bond in He. destruct (parse_name _) as [isin name].
    destruct (parse_offer today cells (offer_date_idx c)) as [e|[od yo]];
      [discriminate|].
    injection He as <-. reflexivity. }
  rewrite Hy in Hstr. simpl in Hstr.
  apply build_bond_fields in He. destruct He as (_ & _ & _ & _ & Ho).
  rewrite Hy in Ho. unfold parse_offer in Ho.
  destruct (offer_date_idx c) as [i|]; [|discriminate].
  destruct (cells !! i) as [cell|] eqn:Hc; [|discriminate].
  destruct (offer_of_text today (strip (strip_tags (strip cell))))
    as [e|[od yo]] eqn:Eo; [discriminate|].
  assert (yo = Some yrs) as -> by congruence.
  apply offer_of_text_years in Eo.
  destruct Eo as (-> & d & m & y & dt & Hp & Hd & Hlt & ->).
  assert (Hod : Offer_Date b = strip (strip_tags (strip cell))).
  { destruct (parse_dmy_some_text _ _ _ _ Hp) as (E1 & _).
    rewrite E1 in Ho. congruence. }
  destruct (float_of_Z_pos_signed (toordinal dt - toordinal today))
    as [Hn Hs]; [lia|].
  destruct (fdiv_by_365_signed _ Hn Hs) as [Hn' Hs'].
  split; [exact Hn'|]. split; [exact Hs'|]. split; [exact Hstr|].
  exists i, d, m, y, dt. rewrite Hod. unfold offer_text. rewrite Hc.
  repeat split; auto.
Qed.

Lemma years_to_offer_shape_witness :
  exists b,
    emitted Pages.page_rows Samples.today Pages.columns_rows
      (cells_of Pages.full_row) b
    /\ Years_to_Offer b = Some (fdiv (float_of_Z 2496) (float_of_Z 365))
    /\ Years_to_Offer_Str b = Some (u "6.8 years")
    /\ Offer_Date b = u "31.12.30".
Proof.
  destruct full_row_emitted as [b Hb]. exists b.
  assert (Hy : Years_to_Offer b
               = Some (fdiv (float_of_Z 2496) (float_of_Z 365))).
  { pose proof (build_bond_fields _ _ _ _ (emitted_built _ _ _ _ _ Hb))
      as (_ & _ & _ & _ & Ho).
    change (parse_offer _ _ _)
      with (@inr exn _ (u "31.12.30",
                        Some (fdiv (float_of_Z 2496) (float_of_Z 365)))) in Ho.
    congruence. }
  destruct (years_to_offer_shape _ _ _ _ _ _ Hb Hy)
    as (_ & _ & Hstr & i & d & m & y & dt & Hi & Ht & _).
  split; [exact Hb|]. split; [exact Hy|]. split; [exact Hstr|].
  simpl in Hi. injection Hi as <-.
  change (offer_text _ _) with (Some (u "31.12.30")) in Ht. congruence.
Defined.

(** X16: for an offer cell that reads as a valid date, the record carries
    the years to the offer exactly when that date is a later calendar day
    than today; otherwise its offer date is [N/A]. *)
Theorem years_to_offer_iff_later_day html today c cells b i text d m y dt :
  valid_date today ->
  emitted html today c cells b ->
  offer_date_idx c = Some i -> offer_text cells i = Some text ->
  parse_dmy text = Some (d, m, y) ->
  date_new (if y <? 100 then y + 2000 else y) m d = inr dt ->
  (date_lt today dt ->
   Offer_Date b = text
   /\ Years_to_Offer b
      = Some (fdiv (float_of_Z (toordinal dt - toordinal today))
                   (float_of_Z 365)))
  /\ (~ date_lt today dt -> Offer_Date b = NA /\ Years_to_Offer b = None).
Proof.
  intros Hv He Hi Ht Hp Hd.
  assert (Hvd : valid_date dt).
  { apply date_new_inv in Hd as Hd'. destruct Hd' as (-> & _).
    unfold valid_date. simpl. exact Hd. }
  pose proof (ordinal_order today dt Hv Hvd) as Hord.
  apply emitted_built, build_bond_fields in He.
  destruct He as (_ & _ & _ & _ & Ho). rewrite Hi in Ho.
  unfold offer_text in Ht. destruct (cells !! i) as [cell|] eqn:Hc;
    [|discriminate]. injection Ht as Ht.
  rewrite (parse_offer_cell _ _ _ _ Hc), Ht,
    (offer_of_text_dated _ _ _ _ _ _ Hp Hd) in Ho.
  destruct (parse_dmy_some_text _ _ _ _ Hp) as (E1 & _).
  split; intros Hcmp.
  - apply Hord in Hcmp.
    destruct (Z.ltb_spec 0 (toordinal dt - toordinal today)); [|lia].
    rewrite E1 in Ho. split; congruence.
  - destruct (Z.ltb_spec 0 (toordinal dt - toordinal today)).
    + destruct Hcmp. apply Hord. lia.
    + simpl in Ho. split; congruence.
Qed.

Lemma years_to_offer_iff_later_day_witness :
  exists b,
    valid_date Samples.today
    /\ emitted Pages.page_rows Samples.today Pages.columns_rows
         (cells_of Pages.full_row) b
    /\ date_lt Samples.today (mkdate 2030 12 31)
    /\ Offer_Date b = u "31.12.30" /\ Years_to_Offer b <> None.
Proof.
  destruct full_row_emitted as [b Hb]. exists b.
  assert (Hv : valid_date Samples.today) by reflexivity.
  assert (Hlt : date_lt Samples.today (mkdate 2030 12 31))
    by (left; simpl; lia).
  destruct (years_to_offer_iff_later_day _ _ _ _ _ 3%nat (u "31.12.30")
              31 12 30 (mkdate 2030 12 31) Hv Hb eq_refl eq_refl eq_refl
              eq_refl) as [H _].
  destruct (H Hlt) as [Ho Hy].
  split; [exact Hv|]. split; [exact Hb|]. split; [exact Hlt|].
  split; [exact Ho|]. rewrite Hy. discriminate.
Defined.

End YearsToOffer.

(** ** The commands of the bot *)

Section Commands.

Import TelegramBondsBot BotText TelegramCommands ReSpec.

Example bonds_count_examples :
  map bonds_count
      [u "/bonds"; u "/bonds 10"; u "/bonds 0"; u "/bonds 100";
       u "/bonds -3"; u "/bonds abc"; u "/bonds  7  8"; u "/bondsx 12";
       u "/bonds 1_0"; u "/bonds 2.5"]
  = [5; 10; 1; 20; 1; 5; 7; 12; 10; 5].
Proof. vm_compute. reflexivity. Qed.

Lemma bonds_count_range command : 1 <= bonds_count command <= 20.
Proof.
  unfold bonds_count.
  destruct (split_ws command) as [|w0 [|arg rest]]; try lia.
  destruct (int_of_str arg); lia.
Qed.

Lemma get_bonds_data_cases fetch now count st :
  1 <= count ->
  let '(r, _, f) := get_bonds_data fetch now count st in
  (f = [] \/ f = [fetch_count count])
  /\ match r with
     | Some l => l <> [] /\ Z.of_nat (length l) <= count
     | None => True
     end.
Proof.
  intros Hc. unfold get_bonds_data.
  destruct (cached st now count) as [data|] eqn:E.
  - split; [left; reflexivity|].
    apply cached_usable in E. destruct E as (_ & Hne & _).
    apply slice_to_pos_nonempty; assumption.
  - destruct (fetch (fetch_count count)) as [[|b bs]|];
      (split; [right; reflexivity|]); try exact I.
    apply slice_to_pos_nonempty; [assumption|discriminate].
Qed.

Lemma startswith_eqb_false p q s :
  startswith p s = true -> startswith p q = false -> pystr_eqb s q = false.
Proof.
  intros Hs Hq. destruct (pystr_eqb s q) eqn:E; [|reflexivity].
  apply pystr_eqb_eq in E. subst q. congruence.
Qed.

(** A command that starts with [/bonds] is none of the other commands. *)
Lemma bonds_command_branch w chat_id command name st :
  startswith (u "/bonds") command = true ->
  handle_command w chat_id command name st
  = (let count := bonds_count command in
     let '(bonds, store', fetches) :=
       get_bonds_data (fetch w) (now w) count (store st) in
     let reply :=
       match bonds with
       | Some (b :: bs) => html chat_id (format_bonds_message (b :: bs) count)
       | _ => plain chat_id no_data_text
       end in
     Some (with_store st store',
           [plain chat_id (fetching_text count); reply], fetches)).
Proof.
  intros Hs. unfold handle_command.
  rewrite (startswith_eqb_false _ (u "/start") _ Hs) by reflexivity.
  rewrite (startswith_eqb_false _ (u "/help") _ Hs) by reflexivity.
  rewrite (startswith_eqb_false _ (u "/subscribe") _ Hs) by reflexivity.
  rewrite (startswith_eqb_false _ (u "/unsubscribe") _ Hs) by reflexivity.
  rewrite (startswith_eqb_false _ (u "/status") _ Hs) by reflexivity.
  rewrite Hs. reflexivity.
Qed.

(** X17: a command that starts with [/bonds] is answered by exactly two
    messages to the chat that sent it: a notice that names a count between 1
    and 20, then either the failure text or an HTML listing of at least one
    and at most that many bonds.  The page is fetched at most once, for
    between 5 and 20 records, and the subscriptions stay as they were. *)
Theorem bonds_command_effects w chat_id command name st :
  startswith (u "/bonds") command = true ->
  exists count reply store' fetches,
    handle_command w chat_id command name st
    = Some (with_store st store',
            [plain chat_id (fetching_text count); reply], fetches)
    /\ 1 <= count <= 20
    /\ (fetches = [] \/ exists n, fetches = [n] /\ 5 <= n <= 20)
    /\ (reply = plain chat_id no_data_text
        \/ exists bonds,
             bonds <> [] /\ Z.of_nat (length bonds) <= count
             /\ reply = html chat_id (format_bonds_message bonds count)).
Proof.
  intros Hs. rewrite (bonds_command_branch _ _ _ _ _ Hs). cbv zeta.
  pose proof (bonds_count_range command) as Hc.
  pose proof (get_bonds_data_cases (fetch w) (now w) (bonds_count command)
                (store st) ltac:(lia)) as H.
  destruct (get_bonds_data _ _ _ _) as [[r store'] fetches].
  destruct H as [Hf Hr].
  eexists (bonds_count command), _, store', fetches.
  split; [reflexivity|]. split; [exact Hc|]. split.
  - destruct Hf as [->| ->]; [left; reflexivity|].
    right. eexists. split; [reflexivity|]. unfold fetch_count. lia.
  - destruct r as [[|b bs]|]; [left; reflexivity| |left; reflexivity].
    right. exists (b :: bs). destruct Hr as [H1 H2]. auto.
Qed.

Lemma bonds_command_effects_witness :
  startswith (u "/bonds") (u "/bonds 3") = true
  /\ exists st' reply,
       handle_command
         (mkworld CacheSamples.t0 CacheSamples.fetch_five (fun _ => None))
         42 (u "/bonds 3") (u "Ann")
         (mkbot ∅ initial CacheSamples.t0)
       = Some (st', [plain 42 (fetching_text 3); reply], [5]).
Proof.
  assert (Hs : startswith (u "/bonds") (u "/bonds 3") = true) by reflexivity.
  split; [exact Hs|].
  destruct (bonds_command_effects
              (mkworld CacheSamples.t0 CacheSamples.fetch_five
                       (fun _ => None))
              42 (u "/bonds 3") (u "Ann") (mkbot ∅ initial CacheSamples.t0)
              Hs)
    as (count & reply & store' & fetches & He & _).
  exists (with_store (mkbot ∅ initial CacheSamples.t0)
            (snd (fst (get_bonds_data CacheSamples.fetch_five CacheSamples.t0
                         3 initial)))).
  eexists. vm_compute. reflexivity.
Defined.

Ltac command_cases command :=
  unfold handle_command;
  destruct (pystr_eqb command (u "/start")) eqn:Estart;
  [apply pystr_eqb_eq in Estart
  |destruct (pystr_eqb command (u "/help")) eqn:Ehelp;
   [apply pystr_eqb_eq in Ehelp
   |destruct (pystr_eqb command (u "/subscribe")) eqn:Esub;
    [apply pystr_eqb_eq in Esub
    |destruct (pystr_eqb command (u "/unsubscribe")) eqn:Eunsub;
     [apply pystr_eqb_eq in Eunsub
     |destruct (pystr_eqb command (u "/status")) eqn:Estatus;
      [apply pystr_eqb_eq in Estatus
      |destruct (startswith (u "/bonds") command) eqn:Ebonds]]]]].

Lemma pystr_eqb_false a b : pystr_eqb a b = false -> a <> b.
Proof.
  intros E ->. assert (H : pystr_eqb b b = true) by (apply pystr_eqb_eq; auto).
  congruence.
Qed.

(** X18: after a command that is answered, a chat is subscribed exactly
    when it is the sender of [/subscribe], or it was subscribed before and
    is not the sender of [/unsubscribe]. *)
Theorem subscriptions_after_command w chat_id command name st st' sent
    fetches :
  handle_command w chat_id command name st = Some (st', sent, fetches) ->
  forall user,
    user ∈ subscribed_users st'
    <-> (user = chat_id /\ command = u "/subscribe")
        \/ (user ∈ subscribed_users st
            /\ ~ (user = chat_id /\ command = u "/unsubscribe")).
Proof.
  assert (N1 : u "/start" <> u "/subscribe") by (vm_compute; discriminate).
  assert (N2 : u "/start" <> u "/unsubscribe") by (vm_compute; discriminate).
  assert (N3 : u "/help" <> u "/subscribe") by (vm_compute; discriminate).
  assert (N4 : u "/help" <> u "/unsubscribe") by (vm_compute; discriminate).
  assert (N5 : u "/subscribe" <> u "/unsubscribe")
    by (vm_compute; discriminate).
  command_cases command.
  - subst command. intros [= <- _ _] user. tauto.
  - subst command. intros [= <- _ _] user. tauto.
  - subst command. intros [= <- _ _] user. simpl.
    rewrite elem_of_union, elem_of_singleton. tauto.
  - subst command. case_bool_decide as Hin.
    + intros [= <- _ _] user. simpl.
      rewrite elem_of_difference, elem_of_singleton.
      split.
      * intros [Hu Hne]. right. split; [exact Hu|]. tauto.
      * intros [[_ E]|[Hu Hn]]; [symmetry in E; contradiction|].
        split; [exact Hu|]. intros ->. apply Hn. auto.
    + intros [= <- _ _] user. split.
      * intros Hu. right. split; [exact Hu|]. intros [-> _]. contradiction.
      * intros [[_ E]|[Hu _]]; [symmetry in E; contradiction|exact Hu].
  - apply pystr_eqb_false in Esub, Eunsub.
    destruct (status_reply w st); [|discriminate].
    intros [= <- _ _] user. tauto.
  - apply pystr_eqb_false in Esub, Eunsub.
    destruct (get_bonds_data _ _ _ _) as [[r c] f].
    intros [= <- _ _] user. simpl. tauto.
  - apply pystr_eqb_false in Esub, Eunsub.
    intros [= <- _ _] user. tauto.
Qed.

Lemma subscriptions_after_command_witness :
  (7 : Z) ∈ subscribed_users
              (with_users (mkbot {[3]} initial CacheSamples.t0)
                          ({[7]} ∪ {[3]}))
  /\ (3 : Z) ∈ subscribed_users
                 (with_users (mkbot {[3]} initial CacheSamples.t0)
                             ({[7]} ∪ {[3]})).
Proof.
  assert (He : handle_command
                 (mkworld CacheSamples.t0 CacheSamples.fetch_five
                          (fun _ => None))
                 7 (u "/subscribe") (u "Ann")
                 (mkbot {[3]} initial CacheSamples.t0)
               = Some (with_users (mkbot {[3]} initial CacheSamples.t0)
                                  ({[7]} ∪ {[3]}),
                       [plain 7 subscribed_text], [])) by reflexivity.
  split.
  - apply (subscriptions_after_command _ _ _ _ _ _ _ _ He 7).
    left. split; reflexivity.
  - apply (subscriptions_after_command _ _ _ _ _ _ _ _ He 3).
    right. split; [simpl; apply elem_of_singleton; reflexivity|].
    intros [E _]. discriminate E.
Defined.

(** X19: every message that answers a command goes to the chat the command
    came from, and there is at least one.  A command that does not start
    with [/bonds] is answered by one message, fetches nothing and leaves the
    cache as it was. *)
Theorem command_replies w chat_id command name st st' sent fetches :
  handle_command w chat_id command name st = Some (st', sent, fetches) ->
  sent <> []
  /\ Forall (fun m => chat m = chat_id) sent
  /\ start_time st' = start_time st
  /\ (startswith (u "/bonds") command = true
      \/ (length sent = 1%nat /\ fetches = [] /\ store st' = store st)).
Proof.
  command_cases command.
  - intros [= <- <- <-]. repeat split; auto; discriminate.
  - intros [= <- <- <-]. repeat split; auto; discriminate.
  - intros [= <- <- <-]. repeat split; auto; discriminate.
  - case_bool_decide; intros [= <- <- <-]; repeat split; auto; discriminate.
  - destruct (status_reply w st); [|discriminate].
    intros [= <- <- <-]. repeat split; auto; discriminate.
  - destruct (get_bonds_data _ _ _ _) as [[r c] f].
    intros [= <- <- <-]. split; [discriminate|]. split.
    + repeat constructor. destruct r as [[|b bs]|]; reflexivity.
    + split; [reflexivity|]. left. reflexivity.
  - intros [= <- <- <-]. repeat split; auto; discriminate.
Qed.

Lemma command_replies_witness :
  Forall (fun m => chat m = 7) [plain 7 help_text].
Proof.
  assert (He : handle_command
                 (mkworld CacheSamples.t0 CacheSamples.fetch_five
                          (fun _ => None))
                 7 (u "/help") (u "Ann")
                 (mkbot ∅ initial CacheSamples.t0)
               = Some (mkbot ∅ initial CacheSamples.t0,
                       [plain 7 help_text], [])) by reflexivity.
  exact (proj1 (proj2 (command_replies _ _ _ _ _ _ _ _ He))).
Defined.

Lemma bond_blocks_part k bonds i item :
  bonds !! i = Some item ->
  part_of (bond_block (k + i) item) (bond_blocks k bonds).
Proof.
  revert k i. induction bonds as [|b bonds IH]; intros k i H;
    [discriminate|].
  destruct i as [|i]; simpl in H.
  - injection H as ->. rewrite Nat.add_0_r.
    exists [], (bond_blocks (S k) bonds). reflexivity.
  - destruct (IH (S k) i H) as (pre & post & E).
    exists (bond_block k b ++ pre), post.
    change (bond_blocks k (b :: bonds))
      with (bond_block k b ++ bond_blocks (S k) bonds).
    rewrite E. replace (k + S i)%nat with (S k + i)%nat by lia.
    rewrite <- app_assoc. reflexivity.
Qed.

(** X20: the message for a list of bonds holds, for each bond of the list,
    the block of that bond numbered by its place in the list, counting from
    one; it is the failure text for the empty list only. *)
Theorem message_lists_every_bond bonds count i item :
  bonds !! i = Some item ->
  part_of (bond_block (S i) item) (format_bonds_message bonds count)
  /\ format_bonds_message bonds count <> no_data_text.
Proof.
  intros H. destruct bonds as [|b bonds]; [discriminate|].
  unfold format_bonds_message. split.
  - destruct (bond_blocks_part 1 (b :: bonds) i item H) as (pre & post & E).
    exists (title count ++ pre), (post ++ footer).
    rewrite E, <- !app_assoc. reflexivity.
  - assert (Ht : exists t, u "<b>🔝 Топ-" = 60%N :: t)
      by (eexists; vm_compute; reflexivity).
    assert (Hn : exists t, no_data_text = 1053%N :: t)
      by (eexists; vm_compute; reflexivity).
    destruct Ht as [t Ht], Hn as [t' Hn].
    unfold title. rewrite Ht, Hn, <- !app_comm_cons. discriminate.
Qed.

Lemma message_lists_every_bond_witness :
  exists item,
    CacheSamples.five_records !! 1%nat = Some item
    /\ part_of (bond_block 2 item)
               (format_bonds_message CacheSamples.five_records 5).
Proof.
  eexists. split; [reflexivity|].
  exact (proj1 (message_lists_every_bond CacheSamples.five_records 5 1 _
                  eq_refl)).
Defined.

(** X21: the daily update leaves the subscriptions as they are and fetches
    the page at most once, for five records.  With no subscriber it fetches
    nothing and sends nothing.  Otherwise it sends either nothing, or one and
    the same HTML listing of one to five bonds to every subscriber, once
    each, and to nobody else. *)
Theorem daily_updates_effects w st :
  let '(st', sent, fetches) := send_daily_updates w st in
  subscribed_users st' = subscribed_users st
  /\ (fetches = [] \/ fetches = [5])
  /\ (subscribed_users st <> ∅ \/ (st' = st /\ sent = [] /\ fetches = []))
  /\ (sent = []
      \/ exists bonds,
           bonds <> [] /\ (length bonds <= 5)%nat
           /\ Forall (fun m => text m = format_bonds_message bonds 5
                               /\ parse_mode m = Some (u "HTML")) sent
           /\ NoDup (map chat sent)
           /\ forall user,
                user ∈ map chat sent <-> user ∈ subscribed_users st).
Proof.
  unfold send_daily_updates. case_bool_decide as He.
  - split; [reflexivity|]. split; [left; reflexivity|].
    split; [right; auto|]. left. reflexivity.
  - pose proof (get_bonds_data_cases (fetch w) (now w) 5 (store st)
                  ltac:(lia)) as H.
    destruct (get_bonds_data _ _ _ _) as [[r c] f].
    destruct H as [Hf Hr]. change (fetch_count 5) with 5 in Hf.
    destruct r as [[|b bs]|].
    + split; [reflexivity|]. split; [exact Hf|]. split; [left; exact He|].
      left. reflexivity.
    + split; [reflexivity|]. split; [exact Hf|]. split; [left; exact He|].
      right. exists (b :: bs). destruct Hr as [H1 H2].
      split; [exact H1|]. split; [lia|].
      rewrite map_map. simpl. rewrite map_id.
      split; [|split].
      * induction (elements (subscribed_users st)) as [|id ids IH];
          constructor; [split; reflexivity|exact IH].
      * apply NoDup_elements.
      * intros user. apply elem_of_elements.
    + split; [reflexivity|]. split; [exact Hf|]. split; [left; exact He|].
      left. reflexivity.
Qed.

End Commands.

(** ** The retry loop *)

Section Retries.

Import Transport.

Example request_examples :
  request (fun k => match k with
                    | 2%nat => Response 7
                    | _ => URLError
                    end) = (Some 7, 3%nat, [1; 2])
  /\ request (fun _ : nat => @URLError Z) = (None, 3%nat, [1; 2])
  /\ request (fun k => match k with
                       | 0%nat => URLError
                       | _ => @OtherError Z
                       end) = (None, 2%nat, [1]).
Proof. repeat split; reflexivity. Qed.

(** X22: a request is tried between one and three times.  Every try but
    the last ended in a [URLError]; the waits between the tries are one
    second, then two.  The answer returned is the one of the last try, and
    nothing is returned when the last try raised another error or was the
    third to end in a [URLError]. *)
Theorem request_tries {R} (net : nat -> outcome R) :
  let '(r, n, sleeps) := request net in
  (1 <= n <= 3)%nat
  /\ sleeps = take (n - 1) [1; 2]
  /\ (forall k, (S k < n)%nat -> net k = URLError)
  /\ match r with
     | Some x => net (n - 1)%nat = Response x
     | None =>
         net (n - 1)%nat = OtherError
         \/ (n = 3%nat /\ net 2%nat = URLError)
     end.
Proof.
  assert (Hk : forall n : nat,
             (n <= 3)%nat ->
             (n <= 1 \/ net 0%nat = URLError)%nat ->
             (n <= 2 \/ net 1%nat = URLError)%nat ->
             forall k, (S k < n)%nat -> net k = URLError).
  { intros n Hn H0 H1 [|[|k]] Hk; [| |lia].
    - destruct H0; [lia|assumption].
    - destruct H1; [lia|assumption]. }
  unfold request, max_retries. simpl.
  destruct (net 0%nat) eqn:E0; simpl.
  - repeat split; try lia; auto.
  - destruct (net 1%nat) eqn:E1; simpl.
    + repeat split; try lia; auto. apply Hk; auto; lia.
    + destruct (net 2%nat) eqn:E2; simpl;
        (split; [lia|]); (split; [reflexivity|]);
        (split; [apply Hk; auto; lia|]); auto.
    + repeat split; try lia; auto. apply Hk; auto; lia.
  - repeat split; try lia; auto.
Qed.

End Retries.

(** ** The daily check *)

Section Daily.

Import DailyCheck.

(** When the two readings of one turn of the loop fall on either side of
    the start of 10:00, two turns in a row send the updates. *)
Example daily_updates_sent_twice :
  daily_check (mkreading 9 59) (mkreading 10 0) (mkreading 9 58)
  = (true, mkreading 9 59)
  /\ daily_check (mkreading 10 0) (mkreading 10 0) (mkreading 9 59)
     = (true, mkreading 10 0).
Proof. split; reflexivity. Qed.

(** X23: when the two clock readings of each turn of the main loop show the
    same minute, the daily updates are sent only in a turn that reads 10:00,
    and never in two turns that follow each other. *)
Theorem daily_updates_not_repeated now1 inner1 now2 inner2 last :
  minute inner1 = minute now1 ->
  minute inner2 = minute now2 ->
  let '(sent1, last1) := daily_check now1 inner1 last in
  let '(sent2, _) := daily_check now2 inner2 last1 in
  (sent1 = true -> hour inner1 = 10 /\ minute now1 = 0)
  /\ sent1 && sent2 = false.
Proof.
  intros H1 H2. unfold daily_check, is_time_for_daily_update.
  destruct (Z.eqb_spec (minute now1) (minute last)) as [E1|E1]; simpl.
  - destruct (Z.eqb_spec (minute now2) (minute last)); simpl;
      (split; [discriminate|reflexivity]).
  - destruct (Z.eqb_spec (hour inner1) 10) as [Eh|Eh]; simpl.
    + destruct (Z.eqb_spec (minute inner1) 0) as [Em|Em]; simpl.
      * destruct (Z.eqb_spec (minute now2) (minute now1)) as [E2|E2]; simpl.
        -- split; [intros _; split; lia|reflexivity].
        -- split; [intros _; split; lia|].
           destruct (Z.eqb_spec (minute inner2) 0) as [E3|E3];
             [lia|]. apply andb_false_r.
      * destruct (Z.eqb_spec (minute now2) (minute now1)); simpl;
          (split; [discriminate|reflexivity]).
    + destruct (Z.eqb_spec (minute now2) (minute now1)); simpl;
        (split; [discriminate|reflexivity]).
Qed.

Lemma daily_updates_not_repeated_witness :
  minute (mkreading 10 0) = minute (mkreading 10 0)
  /\ fst (daily_check (mkreading 10 0) (mkreading 10 0) (mkreading 9 59))
     = true
  /\ fst (daily_check (mkreading 10 0) (mkreading 10 0) (mkreading 10 0))
     = false.
Proof.
  assert (H : minute (mkreading 10 0) = minute (mkreading 10 0))
    by reflexivity.
  pose proof (daily_updates_not_repeated (mkreading 10 0) (mkreading 10 0)
                (mkreading 10 0) (mkreading 10 0) (mkreading 9 59) H H)
    as Hd.
  split; [exact H|]. split; [reflexivity|]. reflexivity.
Defined.

End Daily.
